(** * microtvm-device: the device registry and the session protocol

    A shallow embedding of [microtvm_device/device_utils.py] (classes
    [MicroDevice] and [MicroTVMPlatforms]) and of the request handlers of
    [microtvm_device/device_server.py] (class [RPCRequest]), followed by the
    properties of the registry that the specification states.

    Python objects are mutable and shared, so a [MicroDevice] lives in an
    object store ([heap]) and the registry's [_platforms] list holds object
    references; [copy.copy] allocates a new object.  An exception does not
    roll the store back: every handler returns the store it leaves behind
    together with its result or the exception it raised.

    The values of [random.randint] are arguments of the functions that draw
    them, and so are the outputs of the [vboxmanage] subprocesses that the
    functions of the discovery and of the virtual machine parse.  Requests
    are served one at a time.  The text that [tabulate] renders, the
    messages of the logger other than the warning of [ReleasePlatform],
    the handler [RPCDeviceIsAlive], the commands that [attach] and [detach]
    hand to [_check_call] once they are issued, and the client are outside
    the model. *)

From Stdlib Require Import String Ascii.
From stdpp Require Import gmap strings pretty list fin_maps sorting.

(** ** Python results *)

Module Py.

Inductive exn :=
| AssertionError
| KeyError (key : string)
| IndexError
| AttributeError.

Inductive result (A : Type) :=
| Return (a : A)
| Raise (e : exn).
Arguments Return {A} a.
Arguments Raise {A} e.

(** [s.lower()] on the ASCII range, which is where the device types and
    serial numbers of the inventory live. *)
Definition lower_ascii (c : ascii) : ascii :=
  let n := nat_of_ascii c in
  if (65 <=? n)%nat && (n <=? 90)%nat then ascii_of_nat (n + 32) else c.

Fixpoint lower (s : string) : string :=
  match s with
  | EmptyString => EmptyString
  | String c s' => String (lower_ascii c) (lower s')
  end.

(** [not s] for a string: the empty string is falsy. *)
Definition truthy (s : string) : bool :=
  match s with EmptyString => false | _ => true end.

End Py.

Import Py.

(** ** class MicroDevice *)

Record MicroDevice := mkMicroDevice {
  _type : string;
  _serial_number : string;
  _vid_hex : option string;
  _pid_hex : option string;
  _is_taken : bool;
  _user : option string;
  _enabled : bool
}.

#[export] Instance MicroDevice_eq_dec : EqDecision MicroDevice.
Proof. solve_decision. Defined.

Module Device.

(** [MicroDevice.__init__] *)
Definition init (type serial_number : string) (vid_hex pid_hex : option string)
  : MicroDevice :=
  {| _type := type; _serial_number := serial_number;
     _vid_hex := vid_hex; _pid_hex := pid_hex;
     _is_taken := false; _user := None; _enabled := true |}.

Definition GetSerialNumber (self : MicroDevice) : string := _serial_number self.
Definition GetType (self : MicroDevice) : string := _type self.
Definition GetVID (self : MicroDevice) : option string := _vid_hex self.
Definition GetPID (self : MicroDevice) : option string := _pid_hex self.

Definition SetType (type : string) (self : MicroDevice) : MicroDevice :=
  {| _type := type; _serial_number := _serial_number self;
     _vid_hex := _vid_hex self; _pid_hex := _pid_hex self;
     _is_taken := _is_taken self; _user := _user self;
     _enabled := _enabled self |}.

Definition SetSerialNumber (serial_number : string) (self : MicroDevice)
  : MicroDevice :=
  {| _type := _type self; _serial_number := serial_number;
     _vid_hex := _vid_hex self; _pid_hex := _pid_hex self;
     _is_taken := _is_taken self; _user := _user self;
     _enabled := _enabled self |}.

Definition SetVID (vid : option string) (self : MicroDevice) : MicroDevice :=
  {| _type := _type self; _serial_number := _serial_number self;
     _vid_hex := vid; _pid_hex := _pid_hex self;
     _is_taken := _is_taken self; _user := _user self;
     _enabled := _enabled self |}.

Definition SetPID (pid : option string) (self : MicroDevice) : MicroDevice :=
  {| _type := _type self; _serial_number := _serial_number self;
     _vid_hex := _vid_hex self; _pid_hex := pid;
     _is_taken := _is_taken self; _user := _user self;
     _enabled := _enabled self |}.

Definition SetTaken (self : MicroDevice) : MicroDevice :=
  {| _type := _type self; _serial_number := _serial_number self;
     _vid_hex := _vid_hex self; _pid_hex := _pid_hex self;
     _is_taken := true; _user := _user self;
     _enabled := _enabled self |}.

(** [SetUser]: a missing or empty user is recorded as ["Unknown"]. *)
Definition SetUser (user : option string) (self : MicroDevice) : MicroDevice :=
  let u := match user with
           | Some s => if truthy s then s else "Unknown"
           | None => "Unknown"
           end in
  SetTaken
    {| _type := _type self; _serial_number := _serial_number self;
       _vid_hex := _vid_hex self; _pid_hex := _pid_hex self;
       _is_taken := _is_taken self; _user := Some u;
       _enabled := _enabled self |}.

Definition Enable (status : bool) (self : MicroDevice) : MicroDevice :=
  {| _type := _type self; _serial_number := _serial_number self;
     _vid_hex := _vid_hex self; _pid_hex := _pid_hex self;
     _is_taken := _is_taken self; _user := _user self;
     _enabled := status |}.

Definition Free (self : MicroDevice) : MicroDevice :=
  {| _type := _type self; _serial_number := _serial_number self;
     _vid_hex := _vid_hex self; _pid_hex := _pid_hex self;
     _is_taken := false; _user := None;
     _enabled := _enabled self |}.

(** The two assignments [platform._is_taken = True] and
    [platform._user = username] of [GetPlatform]. *)
Definition take (username : string) (self : MicroDevice) : MicroDevice :=
  {| _type := _type self; _serial_number := _serial_number self;
     _vid_hex := _vid_hex self; _pid_hex := _pid_hex self;
     _is_taken := true; _user := Some username;
     _enabled := _enabled self |}.

End Device.

(** ** The object store and class MicroTVMPlatforms *)

(** An object reference. *)
Definition loc := positive.

Record MicroTVMPlatforms := mkPlatforms {
  _platforms : list loc;
  _serial_numbers : gset string;
  _sessions : gmap string (list string)
}.

(** The process state: the [MicroDevice] objects alive in the interpreter
    and the module-level [PLATFORMS] of the server. *)
Record world := mkWorld {
  heap : gmap loc MicroDevice;
  PLATFORMS : MicroTVMPlatforms
}.

Definition set_heap (h : gmap loc MicroDevice) (w : world) : world :=
  {| heap := h; PLATFORMS := PLATFORMS w |}.

Definition set_sessions (s : gmap string (list string)) (w : world) : world :=
  {| heap := heap w;
     PLATFORMS := {| _platforms := _platforms (PLATFORMS w);
                     _serial_numbers := _serial_numbers (PLATFORMS w);
                     _sessions := s |} |}.

(** [MicroTVMPlatforms.__init__] on an empty interpreter. *)
Definition empty_world : world :=
  {| heap := ∅;
     PLATFORMS := {| _platforms := []; _serial_numbers := ∅; _sessions := ∅ |} |}.

(** The records of the registry, in registration order. *)
Definition records (w : world) : list MicroDevice :=
  omap (fun l => heap w !! l) (_platforms (PLATFORMS w)).

(** [MicroDevice(...)]: a new object at an unused reference. *)
Definition new_object (d : MicroDevice) (w : world) : loc * world :=
  let l := fresh (dom (heap w)) in
  (l, set_heap (<[l := d]> (heap w)) w).

(** [copy.copy(platform)]: a shallow copy; every field of a [MicroDevice]
    is an immutable string, bool or None, so the copy shares nothing that
    can be mutated. *)
Definition copy_object (l : loc) (w : world) : option (loc * world) :=
  match heap w !! l with
  | Some d => Some (new_object d w)
  | None => None
  end.

(** The loop [for platform in self._platforms: if P(platform): ...; return]:
    the first registered object that satisfies [P].  A reference in a Python
    list always has its object; the [None] case below only makes the
    function total, and no state of a run reaches it ([wf_alive]). *)
Fixpoint first_platform (P : MicroDevice -> bool) (h : gmap loc MicroDevice)
    (ls : list loc) : option loc :=
  match ls with
  | [] => None
  | l :: ls' =>
      match h !! l with
      | Some d => if P d then Some l else first_platform P h ls'
      | None => first_platform P h ls'
      end
  end.

Definition has_serial (serial_number : string) (d : MicroDevice) : bool :=
  String.eqb (Device.GetSerialNumber d) serial_number.

Definition has_type (type : string) (d : MicroDevice) : bool :=
  String.eqb (Device.GetType d) type.

(** [MicroTVMPlatforms.AddPlatform].  The device is appended as it is, not
    copied: the caller's reference and the registry share the object. *)
Definition AddPlatform (device : loc) (w : world) : world :=
  match heap w !! device with
  | Some d =>
      if decide (Device.GetSerialNumber d ∈ _serial_numbers (PLATFORMS w))
      then w
      else {| heap := heap w;
              PLATFORMS :=
                {| _platforms := _platforms (PLATFORMS w) ++ [device];
                   _serial_numbers :=
                     _serial_numbers (PLATFORMS w) ∪ {[Device.GetSerialNumber d]};
                   _sessions := _sessions (PLATFORMS w) |} |}
  | None => w
  end.

(** [MicroTVMPlatforms.GetType] *)
Definition GetType (serial_number : string) (w : world) : option string :=
  match first_platform (has_serial serial_number) (heap w)
          (_platforms (PLATFORMS w)) with
  | Some l => _type <$> heap w !! l
  | None => None
  end.

(** The test of the first loop of [GetPlatform]. *)
Definition is_candidate (type : string) (d : MicroDevice) : bool :=
  String.eqb (_type d) type && negb (_is_taken d) && _enabled d.

(** [candidate_platforms] after the first loop of [GetPlatform]: the
    eligible objects, in registration order. *)
Definition candidate_platforms (type : string) (w : world) : list loc :=
  List.filter
    (fun l => match heap w !! l with
              | Some d => is_candidate type d
              | None => false
              end)
    (_platforms (PLATFORMS w)).

(** [MicroTVMPlatforms.GetPlatform].  [random_num] is the value drawn by
    [random.randint(0, len(candidate_platforms)-1)]; the library draws it
    uniformly from that closed range, so [IndexError] below is not
    reachable from the source and only makes the function total; so does
    [AttributeError], for a candidate without object, which there is none.

    The object is marked taken before [self._sessions[session_number]] is
    read, so a [KeyError] leaves the marks in the store. *)
Definition GetPlatform (type session_number username : string)
    (random_num : nat) (w : world) : result (option loc) * world :=
  let candidates := candidate_platforms type w in
  if (0 <? length candidates)%nat then
    match candidates !! random_num with
    | None => (Raise IndexError, w)
    | Some platform =>
        let w1 := set_heap (alter (Device.take username) platform (heap w)) w in
        match heap w1 !! platform with
        | None => (Raise AttributeError, w1)
        | Some d =>
            let serial_number := Device.GetSerialNumber d in
            match _sessions (PLATFORMS w1) !! session_number with
            | None => (Raise (KeyError session_number), w1)
            | Some leased =>
                let w2 :=
                  set_sessions
                    (<[session_number := leased ++ [serial_number]]>
                       (_sessions (PLATFORMS w1))) w1 in
                let '(c, w3) := new_object d w2 in
                (Return (Some c), w3)
            end
        end
    end
  else (Return None, w).

(** [MicroTVMPlatforms.ReleasePlatform], with the warnings it logs. *)
Definition ReleasePlatform (serial_number : string) (w : world)
    : list string * world :=
  match first_platform (has_serial serial_number) (heap w)
          (_platforms (PLATFORMS w)) with
  | Some platform => ([], set_heap (alter Device.Free platform (heap w)) w)
  | None => (["SerialNumber " +:+ serial_number +:+ " was not found."], w)
  end.

(** [MicroTVMPlatforms.EnablePlatform] *)
Definition EnablePlatform (serial_number : string) (status : bool) (w : world)
    : bool * world :=
  match first_platform (has_serial serial_number) (heap w)
          (_platforms (PLATFORMS w)) with
  | Some platform =>
      (true, set_heap (alter (Device.Enable status) platform (heap w)) w)
  | None => (false, w)
  end.

(** [MicroTVMPlatforms.GetAllDeviceTypes]: the first registered object of
    every type (the objects themselves, not copies). *)
Fixpoint GetAllDeviceTypes_loop (h : gmap loc MicroDevice)
    (all_types : gset string) (ls : list loc) : list loc :=
  match ls with
  | [] => []
  | l :: ls' =>
      match h !! l with
      | Some d =>
          if decide (Device.GetType d ∈ all_types)
          then GetAllDeviceTypes_loop h all_types ls'
          else l :: GetAllDeviceTypes_loop h
                      (all_types ∪ {[Device.GetType d]}) ls'
      | None => GetAllDeviceTypes_loop h all_types ls'
      end
  end.

Definition GetAllDeviceTypes (w : world) : list loc :=
  GetAllDeviceTypes_loop (heap w) ∅ (_platforms (PLATFORMS w)).

(** [MicroTVMPlatforms.GetDeviceWithType] *)
Definition GetDeviceWithType (device_type : string) (w : world)
    : option loc * world :=
  match first_platform (has_type device_type) (heap w)
          (_platforms (PLATFORMS w)) with
  | Some platform =>
      match copy_object platform w with
      | Some (c, w') => (Some c, w')
      | None => (None, w)
      end
  | None => (None, w)
  end.

(** ** The listing of [MicroTVMPlatforms.__str__] *)

(** One row of [data]: type, serial, [not _is_taken], [str(_user)],
    [_enabled]. *)
Record row := mkRow {
  row_type : string;
  row_serial : string;
  row_available : bool;
  row_user : string;
  row_enabled : bool
}.

#[export] Instance row_eq_dec : EqDecision row.
Proof. solve_decision. Defined.

Definition str_user (u : option string) : string :=
  match u with Some s => s | None => "None" end.

Definition row_of (d : MicroDevice) : row :=
  {| row_type := Device.GetType d;
     row_serial := Device.GetSerialNumber d;
     row_available := negb (_is_taken d);
     row_user := str_user (_user d);
     row_enabled := _enabled d |}.

(** The sort key [lambda l: l[0].lower()]. *)
Definition sort_key (r : row) : string := lower (row_type r).

(** [sorted(data, key=..., reverse=False)].  Python's sort is stable and
    compares the keys only; a stable sort has one possible result
    ([stable_sort_unique] below), which insertion from the right computes. *)
Section Sorted.
Context {A : Type} (key : A -> string).

Fixpoint insert_sorted (x : A) (l : list A) : list A :=
  match l with
  | [] => [x]
  | y :: l' =>
      if String.leb (key x) (key y) then x :: l
      else y :: insert_sorted x l'
  end.

Fixpoint sorted (l : list A) : list A :=
  match l with
  | [] => []
  | x :: l' => insert_sorted x (sorted l')
  end.
End Sorted.

(** The table body that [__str__] hands to [tabulate]. *)
Definition listing (w : world) : list row :=
  sorted sort_key (row_of <$> records w).

(** ** Loading the inventory: [LoadDeviceTable] *)

(** One entry of the device table: [config["vid_hex"]], [config["pid_hex"]]
    and [config["instances"]]. *)
Record config := mkConfig {
  vid_hex : string;
  pid_hex : string;
  instances : list string
}.

(** [new_device = MicroDevice(...); device_table.AddPlatform(new_device)] *)
Definition register (d : MicroDevice) (w : world) : world :=
  let '(l, w') := new_object d w in AddPlatform l w'.

(** The two nested loops of [LoadDeviceTable], over the entries of the
    table in the order the dictionary yields them. *)
Definition add_table (data : list (string * config)) (w : world) : world :=
  foldl
    (fun w entry =>
       foldl
         (fun w item =>
            register (Device.init entry.1 item (Some (vid_hex entry.2))
                        (Some (pid_hex entry.2))) w)
         w (instances entry.2))
    w data.

Definition LoadDeviceTable (data : list (string * config)) : world :=
  add_table data empty_world.

(** ** The request handlers of [device_server.RPCRequest] *)

Module Server.

Definition SESSION_NUM_MAX_LEN : nat := 10.

(** The messages of [microDevice_pb2], as the handlers build them; a
    field that a handler leaves out keeps its default. *)
Record DeviceReply := mkDeviceReply {
  serial_number : string;
  vid : option string;
  pid : option string
}.

Record SessionMessage := mkSessionMessage {
  session_number : string;
  task : string
}.

Record StringMessage := mkStringMessage { text : string }.

Definition SESSION_CLOSED : string := "session_closed".

Definition RPCDeviceRequest (type session_number user : string)
    (random_num : nat) (w : world) : result DeviceReply * world :=
  if negb (truthy type) then (Raise AssertionError, w)
  else if negb (truthy session_number) then (Raise AssertionError, w)
  else if negb (truthy user) then (Raise AssertionError, w)
  else
    match GetPlatform type session_number user random_num w with
    | (Return (Some micro_device), w') =>
        match heap w' !! micro_device with
        | Some d =>
            (Return {| serial_number := Device.GetSerialNumber d;
                       vid := Device.GetVID d; pid := Device.GetPID d |}, w')
        | None => (Raise AttributeError, w')
        end
    | (Return None, w') =>
        (Return {| serial_number := ""; vid := None; pid := None |}, w')
    | (Raise e, w') => (Raise e, w')
    end.

Definition RPCDeviceRelease (type serial_number : string) (w : world)
    : result DeviceReply * world :=
  if negb (truthy type) then (Raise AssertionError, w)
  else if negb (truthy serial_number) then (Raise AssertionError, w)
  else
    (Return {| Server.serial_number := ""; vid := None; pid := None |},
     (ReleasePlatform serial_number w).2).

(** ["".join(["{}".format(random.randint(0, 9)) for num in range(0, 10)])],
    where [draw num] is the value of the draw of iteration [num]. *)
Definition sess_num (draw : nat -> nat) : string :=
  String.concat "" ((fun num => pretty (draw num)) <$> seq 0 SESSION_NUM_MAX_LEN).

Definition RPCSessionRequest (draw : nat -> nat) (w : world)
    : result SessionMessage * world :=
  (Return {| session_number := sess_num draw; task := "" |},
   set_sessions (<[sess_num draw := []]> (_sessions (PLATFORMS w))) w).

(** The loop of [RPCSessionClose]. *)
Definition release_all (serials : list string) (w : world) : world :=
  foldl (fun w serial_num => (ReleasePlatform serial_num w).2) w serials.

Definition RPCSessionClose (session_number : string) (w : world)
    : result SessionMessage * world :=
  if negb (truthy session_number) then (Raise AssertionError, w)
  else
    match _sessions (PLATFORMS w) !! session_number with
    | None => (Raise (KeyError session_number), w)
    | Some serials =>
        (Return {| Server.session_number := session_number;
                   task := SESSION_CLOSED |},
         release_all serials w)
    end.

Definition RPCDeviceRequestList (w : world) : list row * world :=
  (listing w, w).

Definition RPCDeviceRequestEnable (serial_number : string) (w : world)
    : result StringMessage * world :=
  let '(status, w') := EnablePlatform serial_number true w in
  (Return {| text := if status then "Enable Success." else "Enable failed." |},
   w').

Definition RPCDeviceRequestDisable (serial_number : string) (w : world)
    : result StringMessage * world :=
  let '(status, w') := EnablePlatform serial_number false w in
  (Return {| text := if status then "Disable Success." else "Disable failed." |},
   w').

(** [micro_device.GetVID()] on [None] raises [AttributeError]. *)
Definition RPCGetDeviceTypeInfo (type : string) (w : world)
    : result DeviceReply * world :=
  if negb (truthy type) then (Raise AssertionError, w)
  else
    match GetDeviceWithType type w with
    | (Some micro_device, w') =>
        match heap w' !! micro_device with
        | Some d =>
            (Return {| serial_number := ""; vid := Device.GetVID d;
                       pid := Device.GetPID d |}, w')
        | None => (Raise AttributeError, w')
        end
    | (None, w') => (Raise AttributeError, w')
    end.

(** One message of the protocol, with the random draws its handler makes. *)
Inductive request :=
| SessionRequest (draw : nat -> nat)
| SessionClose (session_number : string)
| DeviceRequest (type session_number user : string) (random_num : nat)
| DeviceRelease (type serial_number : string)
| DeviceRequestList
| DeviceRequestEnable (serial_number : string)
| DeviceRequestDisable (serial_number : string)
| GetDeviceTypeInfo (type : string).

(** The state the server is left in by a request, whether the handler
    returned or raised. *)
Definition serve (r : request) (w : world) : world :=
  match r with
  | SessionRequest draw => (RPCSessionRequest draw w).2
  | SessionClose s => (RPCSessionClose s w).2
  | DeviceRequest t s u n => (RPCDeviceRequest t s u n w).2
  | DeviceRelease t sn => (RPCDeviceRelease t sn w).2
  | DeviceRequestList => (RPCDeviceRequestList w).2
  | DeviceRequestEnable sn => (RPCDeviceRequestEnable sn w).2
  | DeviceRequestDisable sn => (RPCDeviceRequestDisable sn w).2
  | GetDeviceTypeInfo t => (RPCGetDeviceTypeInfo t w).2
  end.

End Server.

Import Server.

(** ** Discovery of the connected devices *)

(** One device of [ParseVirtualBoxDevices]: the dictionary of the fields
    that [vboxmanage list usbhost] printed for it.  The list to be parsed
    comes from a subprocess and is an argument of the functions below. *)
Abbreviation usb_device := (gmap string string).

(** The first loop of [ListConnectedDevices]: one new [MicroDevice] for
    every parsed device, with the type, VID and PID of [micro_device];
    [SetUser()] marks it when its state is ["Captured"].  A dictionary
    without ["SerialNumber"] or ["Current State"] raises [KeyError]. *)
Fixpoint device_list (micro_device : loc) (devices : list usb_device)
    (w : world) : result (list loc) * world :=
  match devices with
  | [] => (Return [], w)
  | device :: devices' =>
      match heap w !! micro_device with
      | None => (Raise AttributeError, w)
      | Some md =>
          match device !! "SerialNumber"%string with
          | None => (Raise (KeyError "SerialNumber"), w)
          | Some serial_number =>
              let '(new_device, w1) :=
                new_object
                  (Device.init (Device.GetType md) serial_number
                     (Device.GetVID md) (Device.GetPID md)) w in
              match device !! "Current State"%string with
              | None => (Raise (KeyError "Current State"), w1)
              | Some state =>
                  let w2 :=
                    if String.eqb state "Captured"
                    then set_heap (alter (Device.SetUser None) new_device
                                     (heap w1)) w1
                    else w1 in
                  match device_list micro_device devices' w2 with
                  | (Return ls, w3) => (Return (new_device :: ls), w3)
                  | (Raise e, w3) => (Raise e, w3)
                  end
              end
          end
      end
  end.

Definition serial_of (h : gmap loc MicroDevice) (l : loc) : option string :=
  Device.GetSerialNumber <$> h !! l.

Definition taken_in (h : gmap loc MicroDevice) (l : loc) : bool :=
  match h !! l with Some d => _is_taken d | None => false end.

(** [temp_devices] for [device_1]: [device_1] followed by every device of
    the list with its serial number, [device_1] included. *)
Definition temp_devices (h : gmap loc MicroDevice) (devices : list loc)
    (device_1 : loc) : list loc :=
  device_1 ::
  List.filter (fun device_2 => bool_decide (serial_of h device_1 = serial_of h device_2))
    devices.

(** What the last loop appends to [refined_list] for [temp_devices]: the
    taken devices, or, when there is none, the device that the loop
    variable is left with, the last of [temp_devices]. *)
Definition refined_for (h : gmap loc MicroDevice) (temp : list loc)
    (device_1 : loc) : list loc :=
  match List.filter (taken_in h) temp with
  | [] => [default device_1 (last temp)]
  | taken => taken
  end.

(** The loop "remove repetition in devices" of [ListConnectedDevices];
    [todo] is what is left of the iteration over [device_list]. *)
Fixpoint refined_list (h : gmap loc MicroDevice) (devices todo : list loc)
    (serial_list : list string) : list loc :=
  match todo with
  | [] => []
  | device_1 :: todo' =>
      match serial_of h device_1 with
      | None => refined_list h devices todo' serial_list
      | Some serial_number =>
          if decide (serial_number ∈ serial_list)
          then refined_list h devices todo' serial_list
          else refined_for h (temp_devices h devices device_1) device_1 ++
               refined_list h devices todo' (serial_list ++ [serial_number])
      end
  end.

(** [ListConnectedDevices(micro_device)], for the list [devices] that
    [ParseVirtualBoxDevices(micro_device)] returned. *)
Definition ListConnectedDevices (devices : list usb_device) (micro_device : loc)
    (w : world) : result (list loc) * world :=
  match device_list micro_device devices w with
  | (Return ls, w') => (Return (refined_list (heap w') ls ls []), w')
  | (Raise e, w') => (Raise e, w')
  end.

(** [DeviceIsAlive(device_type, serial)] *)
Definition DeviceIsAlive (devices : list usb_device)
    (device_type serial : string) (w : world) : result bool * world :=
  let '(micro_device, w0) :=
    new_object (Device.init device_type serial None None) w in
  match ListConnectedDevices devices micro_device w0 with
  | (Return ls, w') =>
      (Return (existsb (fun device =>
                          bool_decide (serial_of (heap w') device = Some serial))
                 ls), w')
  | (Raise e, w') => (Raise e, w')
  end.

(** ** Start-up: [LoadAttachedDevices] *)

(** The inner loop of [LoadAttachedDevices]: a found device whose serial
    number the table knows gets the table's type and is added to the
    registry under construction, which is the [PLATFORMS] of [w]; the
    others are skipped. *)
Fixpoint attach_found (table : MicroTVMPlatforms) (device_list : list loc)
    (w : world) : world :=
  match device_list with
  | [] => w
  | new_device :: rest =>
      match heap w !! new_device with
      | None => attach_found table rest w
      | Some d =>
          match GetType (Device.GetSerialNumber d)
                  {| heap := heap w; PLATFORMS := table |} with
          | None => attach_found table rest w
          | Some new_device_type =>
              attach_found table rest
                (AddPlatform new_device
                   (set_heap (alter (Device.SetType new_device_type)
                                new_device (heap w)) w))
          end
      end
  end.

(** The outer loop, over the representatives of the table's types; [scan]
    is what [ParseVirtualBoxDevices] returns for a representative. *)
Fixpoint attach_types (scan : MicroDevice -> list usb_device)
    (table : MicroTVMPlatforms) (all_device_types : list loc) (w : world)
    : result unit * world :=
  match all_device_types with
  | [] => (Return (), w)
  | micro_device :: rest =>
      match heap w !! micro_device with
      | None => (Raise AttributeError, w)
      | Some md =>
          match ListConnectedDevices (scan md) micro_device w with
          | (Return found, w1) =>
              attach_types scan table rest (attach_found table found w1)
          | (Raise e, w1) => (Raise e, w1)
          end
      end
  end.

(** [LoadAttachedDevices(args)]: the table itself for a dry run, otherwise
    a new registry with the connected devices that the table knows. *)
Definition LoadAttachedDevices (dry_run : bool) (data : list (string * config))
    (scan : MicroDevice -> list usb_device) : result world :=
  let table := LoadDeviceTable data in
  if dry_run then Return table
  else
    let all_device_types := GetAllDeviceTypes table in
    let attached_devices :=
      {| heap := heap table;
         PLATFORMS := {| _platforms := []; _serial_numbers := ∅;
                         _sessions := ∅ |} |} in
    match attach_types scan (PLATFORMS table) all_device_types
            attached_devices with
    | (Return _, w) => Return w
    | (Raise e, _) => Raise e
    end.


(** ** The virtual machine: [VirtualBoxGetInfo], [attach] and [detach] *)

Module VirtualBox.

(** What the functions below raise. *)
Inductive error :=
| KeyError (key : string)
| ValueError
| IndexError
| Exception.

(** [s.split(sep)] for a separator of one character. *)
Fixpoint split (sep : ascii) (s : string) : list string :=
  match s with
  | EmptyString => [EmptyString]
  | String c s' =>
      if Ascii.eqb c sep then EmptyString :: split sep s'
      else match split sep s' with
           | [] => [String c EmptyString]
           | part :: parts => String c part :: parts
           end
  end.

(** [key, value = line.split(sep, 1)]: the unpacking needs the two parts,
    and raises [ValueError] ([None] here) for a line without [sep]. *)
Fixpoint split_once (sep : ascii) (line : string) : option (string * string) :=
  match line with
  | EmptyString => None
  | String c line' =>
      if Ascii.eqb c sep then Some (EmptyString, line')
      else match split_once sep line' with
           | Some (key, value) => Some (String c key, value)
           | None => None
           end
  end.

(** [s.lstrip(c)] *)
Fixpoint lstrip (c : ascii) (s : string) : string :=
  match s with
  | EmptyString => EmptyString
  | String a s' => if Ascii.eqb a c then lstrip c s' else s
  end.

(** [sub in s] for two strings. *)
Fixpoint contains (sub s : string) : bool :=
  String.prefix sub s ||
  match s with
  | EmptyString => false
  | String _ s' => contains sub s'
  end.

(** A value of the dictionary [machine_info]: a string or a list. *)
Unset Elimination Schemes.
Inductive info_value :=
| Str (s : string)
| Lst (l : list info_value).
Set Elimination Schemes.

(** [x is list] compares [x] with the class [list] itself, which no value
    of the dictionary is. *)
Definition is_list (x : info_value) : bool := false.

(** The body of the loop of [VirtualBoxGetInfo].  Whatever the [try] block
    raises makes the loop go on with the next line: the unpacking of a
    line without a colon, and [append] called on the class [list]. *)
Definition record_line (machine_info : gmap string info_value) (line : string)
    : gmap string info_value :=
  match split_once ":" line with
  | None => machine_info
  | Some (key, value) =>
      let value := lstrip " " value in
      match machine_info !! key with
      | Some old =>
          if is_list old then machine_info
          else <[key := Lst [old; Str value]]> machine_info
      | None => <[key := Str value]> machine_info
      end
  end.

(** [VirtualBoxGetInfo(machine_uuid)], for the [output] that
    [vboxmanage showvminfo machine_uuid] printed. *)
Definition VirtualBoxGetInfo (output : string) : gmap string info_value :=
  foldl record_line ∅ (split "010" output).

(** [x in v] for a value of the dictionary: a substring of a string, an
    element of a list; a string is equal to no list. *)
Definition py_in (x : string) (v : info_value) : bool :=
  match v with
  | Str s => contains x s
  | Lst l =>
      existsb (fun e => match e with
                        | Str s => String.eqb s x
                        | Lst _ => false
                        end) l
  end.

(** [virtualbox_is_live(machine_uuid)] *)
Definition virtualbox_is_live (output : string) : sum error bool :=
  match VirtualBoxGetInfo output !! "State"%string with
  | None => inl (KeyError "State")
  | Some v => inr (py_in "running" v)
  end.

(** The command that [attach] or [detach] hands to [_check_call]. *)
Inductive command :=
| usbattach (machine_uuid dev_uuid : string)
| usbdetach (machine_uuid dev_uuid : string).

(** The loop of [attach] over the parsed devices: the fields of the first
    one with the serial number, [None] when [found] stays [False]. *)
Fixpoint attach_loop (serial_number : string) (usb_devices : list usb_device)
    : sum error (option (string * string * string * string)) :=
  match usb_devices with
  | [] => inr None
  | dev :: usb_devices' =>
      match dev !! "SerialNumber"%string with
      | None => inl (KeyError "SerialNumber")
      | Some serial =>
          if String.eqb serial serial_number then
            match dev !! "vid_hex"%string with
            | None => inl (KeyError "vid_hex")
            | Some vid_hex =>
                match dev !! "pid_hex"%string with
                | None => inl (KeyError "pid_hex")
                | Some pid_hex =>
                    match dev !! "UUID"%string with
                    | None => inl (KeyError "UUID")
                    | Some dev_uuid =>
                        inr (Some (vid_hex, pid_hex, serial, dev_uuid))
                    end
                end
            end
          else attach_loop serial_number usb_devices'
      end
  end.

(** [attach(micro_device, vm_path)], for the list [usb_devices] that
    [ParseVirtualBoxDevices] returned, the [machine_uuid] read from the
    file under [vm_path] and the output [showvminfo] of
    [vboxmanage showvminfo machine_uuid].  The result is the command
    handed to [_check_call], [None] when the function returns without
    one. *)
Definition attach (usb_devices : list usb_device)
    (machine_uuid showvminfo : string) (micro_device : MicroDevice)
    : sum error (option command) :=
  match attach_loop (Device.GetSerialNumber micro_device) usb_devices with
  | inl e => inl e
  | inr None => inl ValueError
  | inr (Some (vid_hex, pid_hex, serial, dev_uuid)) =>
      if truthy serial && truthy dev_uuid then
        let machine_info := VirtualBoxGetInfo showvminfo in
        match machine_info !! "SerialNumber"%string with
        | Some v =>
            if py_in serial v then inr None
            else inr (Some (usbattach machine_uuid dev_uuid))
        | None => inr (Some (usbattach machine_uuid dev_uuid))
        end
      else inl Exception
  end.

(** The loop of [detach]: the UUID of the first parsed device with the
    serial number. *)
Fixpoint detach_loop (serial_number : string) (usb_devices : list usb_device)
    : sum error (option string) :=
  match usb_devices with
  | [] => inr None
  | dev :: usb_devices' =>
      match dev !! "SerialNumber"%string with
      | None => inl (KeyError "SerialNumber")
      | Some serial =>
          if String.eqb serial serial_number then
            match dev !! "UUID"%string with
            | None => inl (KeyError "UUID")
            | Some dev_uuid => inr (Some dev_uuid)
            end
          else detach_loop serial_number usb_devices'
      end
  end.

(** [detach(micro_device, vm_path)] *)
Definition detach (usb_devices : list usb_device) (machine_uuid : string)
    (micro_device : MicroDevice) : sum error (option command) :=
  match detach_loop (Device.GetSerialNumber micro_device) usb_devices with
  | inl e => inl e
  | inr None => inr None
  | inr (Some dev_uuid) => inr (Some (usbdetach machine_uuid dev_uuid))
  end.

(** One entry of [grp.getgrall()]: the name of the group and its members,
    [group[3]]. *)
Record group := mkGroup {
  gr_name : string;
  gr_mem : list string
}.

(** [GetUsersFromGroup(group_name)], for the [groups] of [grp.getgrall()]. *)
Definition GetUsersFromGroup (groups : list group) (group_name : string)
    : list string :=
  flat_map (fun group =>
              if String.eqb (gr_name group) group_name then gr_mem group
              else [])
           groups.

(** Python's white space on the ASCII range, the characters that [strip()]
    removes. *)
Definition is_space (c : ascii) : bool :=
  let n := nat_of_ascii c in
  ((9 <=? n)%nat && (n <=? 13)%nat) || ((28 <=? n)%nat && (n <=? 32)%nat).

(** [not line.strip()]: the line has white space only. *)
Fixpoint blank (line : string) : bool :=
  match line with
  | EmptyString => true
  | String c line' => is_space c && blank line'
  end.

Definition is_hex_digit (c : ascii) : bool :=
  let n := nat_of_ascii c in
  ((48 <=? n)%nat && (n <=? 57)%nat) ||
  ((65 <=? n)%nat && (n <=? 70)%nat) ||
  ((97 <=? n)%nat && (n <=? 102)%nat).

(** [VIRTUALBOX_VID_PID_RE.match(s)] for [0x([0-9A-Fa-f]{4}).*]: the match
    is at the start of [s], and [.*] matches whatever follows. *)
Definition VIRTUALBOX_VID_PID_RE (s : string) : bool :=
  match s with
  | String "0" (String "x" (String a (String b (String c (String d _))))) =>
      is_hex_digit a && is_hex_digit b && is_hex_digit c && is_hex_digit d
  | _ => false
  end.

(** [s.replace(c, "")] for one character. *)
Fixpoint remove_char (c : ascii) (s : string) : string :=
  match s with
  | EmptyString => EmptyString
  | String a s' =>
      if Ascii.eqb a c then remove_char c s' else String a (remove_char c s')
  end.

(** [s.replace("(", "").replace(")", "").split(" ")[1].lower()] *)
Definition hex_field (s : string) : sum error string :=
  match split " " (remove_char ")" (remove_char "(" s)) with
  | _ :: part :: _ => inr (lower part)
  | _ => inl IndexError
  end.

(** What an empty line does with a [current_dev] that is not empty; the
    caller sets [current_dev] to a new dictionary afterwards.  The result
    is the list [devices]. *)
Definition end_of_device (micro_device : MicroDevice)
    (current_dev : usb_device) (devices : list usb_device)
    : sum error (list usb_device) :=
  match current_dev !! "VendorId"%string, current_dev !! "ProductId"%string with
  | Some vendor, Some product =>
      if negb (VIRTUALBOX_VID_PID_RE vendor) then inr devices
      else if negb (VIRTUALBOX_VID_PID_RE product) then inr devices
      else
        match hex_field vendor with
        | inl e => inl e
        | inr vid_hex =>
            let current_dev :=
              delete "VendorId"%string
                (<["vid_hex"%string := vid_hex]> current_dev) in
            match hex_field product with
            | inl e => inl e
            | inr pid_hex =>
                let current_dev :=
                  delete "ProductId"%string
                    (<["pid_hex"%string := pid_hex]> current_dev) in
                if bool_decide (Some vid_hex = Device.GetVID micro_device) &&
                   bool_decide (Some pid_hex = Device.GetPID micro_device)
                then inr (devices ++ [current_dev])
                else inr devices
            end
        end
  | _, _ => inr devices
  end.

(** The body of the loop over the lines, on [current_dev] and [devices]. *)
Definition parse_line (micro_device : MicroDevice)
    (state : usb_device * list usb_device) (line : string)
    : sum error (usb_device * list usb_device) :=
  let '(current_dev, devices) := state in
  if blank line then
    if bool_decide (current_dev ≠ ∅) then
      match end_of_device micro_device current_dev devices with
      | inl e => inl e
      | inr devices' => inr (∅, devices')
      end
    else inr (current_dev, devices)
  else
    match split_once ":" line with
    | None => inl ValueError
    | Some (key, value) =>
        inr (<[key := lstrip " " value]> current_dev, devices)
    end.

Fixpoint parse_lines (micro_device : MicroDevice)
    (state : usb_device * list usb_device) (lines : list string)
    : sum error (usb_device * list usb_device) :=
  match lines with
  | [] => inr state
  | line :: lines' =>
      match parse_line micro_device state line with
      | inl e => inl e
      | inr state' => parse_lines micro_device state' lines'
      end
  end.

Definition NO_DEVICES : string :=
  "Host USB Devices:

<none>

".

(** The loop over the users; [usbhost user] is the output of
    [vboxmanage list usbhost] run as [user]. *)
Fixpoint parse_users (usbhost : string -> string) (micro_device : MicroDevice)
    (vboxusers : list string) (devices : list usb_device)
    : sum error (list usb_device) :=
  match vboxusers with
  | [] => inr devices
  | user :: vboxusers' =>
      let output := usbhost user in
      if contains NO_DEVICES output
      then parse_users usbhost micro_device vboxusers' devices
      else
        match parse_lines micro_device (∅, devices) (split "010" output) with
        | inl e => inl e
        | inr (current_dev, devices') =>
            parse_users usbhost micro_device vboxusers'
              (if bool_decide (current_dev ≠ ∅)
               then devices' ++ [current_dev] else devices')
        end
  end.

(** The users whose devices are listed. *)
Definition vboxusers (groups : list group) (username : option string)
    : list string :=
  match username with
  | Some user =>
      if truthy user then [user] else GetUsersFromGroup groups "vboxusers"
  | None => GetUsersFromGroup groups "vboxusers"
  end.

(** [ParseVirtualBoxDevices(micro_device, username)] *)
Definition ParseVirtualBoxDevices (usbhost : string -> string)
    (groups : list group) (micro_device : MicroDevice)
    (username : option string) : sum error (list usb_device) :=
  parse_users usbhost micro_device (vboxusers groups username) [].


End VirtualBox.


(** ** Runs of the server *)

(** What happens to the registry: an object of the inventory is created
    and registered ([LoadDeviceTable], [LoadAttachedDevices]), or a request
    is served.  Requests are served one after the other. *)
Inductive event :=
| Register (d : MicroDevice)
| Serve (r : request).

Definition step (e : event) (w : world) : world :=
  match e with
  | Register d => register d w
  | Serve r => serve r w
  end.

(** The states that the events in [allowed] lead to from an empty
    interpreter. *)
Inductive reachable_by (allowed : event -> Prop) : world -> Prop :=
| reachable_empty : reachable_by allowed empty_world
| reachable_step e w :
    allowed e -> reachable_by allowed w -> reachable_by allowed (step e w).

Definition reachable : world -> Prop := reachable_by (fun _ => True).

(** A sequence of requests served from [w]. *)
Definition run (rs : list request) (w : world) : world :=
  foldl (fun w r => serve r w) w rs.

(** An event that releases a device: [RPCDeviceRelease], [RPCSessionClose]. *)
Definition releases (e : event) : Prop :=
  match e with
  | Serve (DeviceRelease _ _) | Serve (SessionClose _) => True
  | _ => False
  end.

(** ** A small inventory *)

Module Example.

(** One type with two boards, as a device table would list them. *)
Definition table : list (string * config) :=
  [("nucleo_f746zg"%string, mkConfig "0483" "374b" ["S2"; "S1"]%string)].

Definition board (serial_number : string) : MicroDevice :=
  Device.init "nucleo_f746zg" serial_number (Some "0483"%string)
    (Some "374b"%string).

(** The server after start-up. *)
Definition w0 : world := LoadDeviceTable table.

(** The session number made of ten draws of 0, and of ten draws of 1. *)
Definition X : string := "0000000000".
Definition Y : string := "1111111111".

(** Session [X] is open. *)
Definition w1 : world := serve (SessionRequest (fun _ => 0%nat)) w0.

(** [alice] holds S1 under [X] (the draw picked the second candidate). *)
Definition w2 : world :=
  serve (DeviceRequest "nucleo_f746zg" X "alice" 1) w1.

(** S1 was released individually. *)
Definition w3 : world := serve (DeviceRelease "nucleo_f746zg" "S1") w2.

(** A second inventory with a single board of its type. *)
Definition solo_table : list (string * config) :=
  [("due"%string, mkConfig "2341" "003d" ["D1"%string])].

Definition due (serial_number : string) : MicroDevice :=
  Device.init "due" serial_number (Some "2341"%string) (Some "003d"%string).

Definition s0 : world := LoadDeviceTable solo_table.
Definition s1 : world := serve (SessionRequest (fun _ => 0%nat)) s0.

(** [alice] holds D1 under [X]. *)
Definition s2 : world := serve (DeviceRequest "due" X "alice" 0) s1.

(** Session [X] is closed, session [Y] is opened and [bob] is given S1
    under [Y]. *)
Definition w4 : world := serve (SessionClose X) w2.
Definition w5 : world := serve (SessionRequest (fun _ => 1%nat)) w4.
Definition w6 : world := serve (DeviceRequest "nucleo_f746zg" Y "bob" 1) w5.

(** The inventory of [table] with the two boards listed the other way
    round. *)
Definition table' : list (string * config) :=
  [("nucleo_f746zg"%string, mkConfig "0483" "374b" ["S1"; "S2"]%string)].

(** Two devices as [ParseVirtualBoxDevices] returns them: S1 is captured
    by a virtual machine, S2 is not. *)
Definition usb_captured : usb_device :=
  {[ "SerialNumber"%string := "S1"%string;
     "Current State"%string := "Captured"%string ]}.
Definition usb_busy : usb_device :=
  {[ "SerialNumber"%string := "S2"%string;
     "Current State"%string := "Busy"%string ]}.

(** A parsed device with all its fields, and the output of
    [vboxmanage showvminfo] for a machine that holds three devices. *)
Definition usb_full (serial uuid : string) : usb_device :=
  {[ "SerialNumber"%string := serial; "UUID"%string := uuid;
     "vid_hex"%string := "0483"%string; "pid_hex"%string := "374b"%string;
     "Current State"%string := "Busy"%string ]}.

Definition showvminfo3 : string :=
  "Name: microtvm
State:           running (since 2021-09-01)
SerialNumber:    S1
SerialNumber:    S2
no colon here
SerialNumber:    S3
".

(** The output of [vboxmanage list usbhost] for a host with two devices,
    the board that is looked for, and an output that ends in the middle of
    a device. *)
Definition usbhost2 : string :=
  "Host USB Devices:

UUID:               u1
VendorId:           0x0483 (0483)
ProductId:          0x374B (374B)
SerialNumber:       S1
Current State:      Busy

UUID:               u2
VendorId:           0x2341 (2341)
ProductId:          0x003D (003D)
SerialNumber:       S7
Current State:      Captured

".

Definition usbhost_cut : string :=
  "UUID:               u2
VendorId:           0x2341 (2341)".

Definition stlink : MicroDevice :=
  Device.init "nucleo_f746zg" "" (Some "0483"%string) (Some "374b"%string).

(** What [ParseVirtualBoxDevices] finds on the host of [usbhost2], for the
    only user of the group [vboxusers]. *)
Definition scan2 (micro_device : MicroDevice) : list usb_device :=
  match VirtualBox.ParseVirtualBoxDevices (fun _ => usbhost2)
          [VirtualBox.mkGroup "vboxusers" ["tvm"%string]] micro_device None with
  | inr devices => devices
  | inl _ => []
  end.

End Example.

(** ** Vocabulary of the properties *)

(** [ls !! i] is the first object of [ls] that satisfies [P]: what the
    loops of [ReleasePlatform], [EnablePlatform], [GetType] and
    [GetDeviceWithType] stop at. *)
Definition first_at (P : MicroDevice -> bool) (h : gmap loc MicroDevice)
    (ls : list loc) (i : nat) (l : loc) (d : MicroDevice) : Prop :=
  ls !! i = Some l ∧ h !! l = Some d ∧ P d = true ∧
  ∀ j l' d', (j < i)%nat → ls !! j = Some l' → h !! l' = Some d' → P d' = false.

(** [l] is a registered object with contents [d]. *)
Definition registered (w : world) (l : loc) (d : MicroDevice) : Prop :=
  l ∈ _platforms (PLATFORMS w) ∧ heap w !! l = Some d.

(** The serial numbers of the registered records, in registration order. *)
Definition serials (w : world) : list string :=
  _serial_number <$> records w.

(** [serial_number] is in the lease list of session [s]. *)
Definition listed (w : world) (s serial_number : string) : Prop :=
  ∃ leased, _sessions (PLATFORMS w) !! s = Some leased ∧ serial_number ∈ leased.

(** What every state of a run satisfies: registered references are alive,
    serial numbers are unique and are the members of [_serial_numbers],
    and session lists hold registered serial numbers. *)
Record wf (w : world) : Prop := mk_wf {
  wf_alive : ∀ l, l ∈ _platforms (PLATFORMS w) → is_Some (heap w !! l);
  wf_unique : NoDup (serials w);
  wf_serial_set : ∀ sn, sn ∈ _serial_numbers (PLATFORMS w) ↔ sn ∈ serials w;
  wf_listed : ∀ s sn, listed w s sn → sn ∈ _serial_numbers (PLATFORMS w)
}.

(** The invariant of the specification, in its second form: a serial
    number in a session's list belongs to a record that is leased. *)
Definition session_list_invariant (w : world) : Prop :=
  ∀ s sn, listed w s sn →
    ∃ l d, registered w l d ∧ _serial_number d = sn ∧ _is_taken d = true.

(** The state after a successful [GetPlatform]: [platform] is marked, its
    serial number is appended to the list of [session_number], and [c] is
    the copy. *)
Definition leased_world (w : world) (platform : loc) (d : MicroDevice)
    (session_number username : string) (leased : list string) (c : loc) : world :=
  {| heap := <[c := Device.take username d]>
               (<[platform := Device.take username d]> (heap w));
     PLATFORMS :=
       {| _platforms := _platforms (PLATFORMS w);
          _serial_numbers := _serial_numbers (PLATFORMS w);
          _sessions := <[session_number := leased ++ [_serial_number d]]>
                         (_sessions (PLATFORMS w)) |} |}.

(** How serving request [r] may change a registered record [d] into [d']:
    its identity never changes, only [RPCDeviceRequestEnable/Disable] for
    its serial number touch [_enabled], and only the releasing requests
    take a lease away. *)
Definition served (r : request) (d d' : MicroDevice) : Prop :=
  _type d' = _type d ∧ _serial_number d' = _serial_number d ∧
  _vid_hex d' = _vid_hex d ∧ _pid_hex d' = _pid_hex d ∧
  match r with
  | DeviceRequestEnable sn =>
      (sn = _serial_number d ∧ _enabled d' = true) ∨ _enabled d' = _enabled d
  | DeviceRequestDisable sn =>
      (sn = _serial_number d ∧ _enabled d' = false) ∨ _enabled d' = _enabled d
  | _ => _enabled d' = _enabled d
  end ∧
  match r with
  | DeviceRelease _ _ | SessionClose _ => d' = d ∨ d' = Device.Free d
  | DeviceRequest _ _ user _ =>
      d' = d ∨ (_is_taken d = false ∧ d' = Device.take user d)
  | _ => _is_taken d' = _is_taken d ∧ _user d' = _user d
  end.

(** Every registered record of type [type] has serial number
    [serial_number] and is disabled. *)
Definition type_blocked (type serial_number : string) (w : world) : Prop :=
  ∀ l d, registered w l d → _type d = type →
    _serial_number d = serial_number ∧ _enabled d = false.

(** The objects that [LoadDeviceTable] creates for a table, in order. *)
Definition table_devices (data : list (string * config)) : list MicroDevice :=
  entry ← data;
  (fun item => Device.init entry.1 item (Some (vid_hex entry.2))
                 (Some (pid_hex entry.2))) <$> instances entry.2.

(** [l] is an object that the loop of [RPCSessionClose] over [serials]
    frees: the first registered object with one of these serial numbers. *)
Definition released (serials : list string) (h : gmap loc MicroDevice)
    (ls : list loc) (l : loc) : bool :=
  existsb
    (fun sn => bool_decide (first_platform (has_serial sn) h ls = Some l))
    serials.

(** The order of Python strings on the keys, as a relation on rows. *)
Definition key_le {A} (key : A -> string) (x y : A) : Prop :=
  String.leb (key x) (key y) = true.

(** Every parsed device has the two fields that [ListConnectedDevices]
    reads. *)
Definition parsed_ok (devices : list usb_device) : Prop :=
  ∀ device, device ∈ devices →
    is_Some (device !! "SerialNumber"%string) ∧
    is_Some (device !! "Current State"%string).

(** The record that the first loop of [ListConnectedDevices] builds for a
    parsed device. *)
Definition scanned (md : MicroDevice) (device : usb_device)
    : option MicroDevice :=
  match device !! "SerialNumber"%string, device !! "Current State"%string with
  | Some serial_number, Some state =>
      let d := Device.init (_type md) serial_number (_vid_hex md) (_pid_hex md) in
      Some (if String.eqb state "Captured" then Device.SetUser None d else d)
  | _, _ => None
  end.

(** The lease state of a record as discovery leaves it: enabled, and
    either free or taken by ["Unknown"]. *)
Definition as_discovered (d : MicroDevice) : Prop :=
  _enabled d = true ∧
  ((_is_taken d = false ∧ _user d = None) ∨
   (_is_taken d = true ∧ _user d = Some "Unknown"%string)).

(** The registry that [LoadAttachedDevices] is building in [w], beside the
    table [tablew]: it is well formed and without sessions, the objects of
    the table are untouched, the registered objects are new, and every
    registered record has the type under which the table knows its serial
    number. *)
Record attaching (tablew w : world) : Prop := mk_attaching {
  att_wf : wf w;
  att_sessions : _sessions (PLATFORMS w) = ∅;
  att_table : ∀ l, is_Some (heap tablew !! l) → heap w !! l = heap tablew !! l;
  att_new : ∀ l, l ∈ _platforms (PLATFORMS w) → heap tablew !! l = None;
  att_known : ∀ l d, registered w l d →
    GetType (_serial_number d) tablew = Some (_type d) ∧ as_discovered d
}.

(** The key and the value that [VirtualBoxGetInfo] reads from a line. *)
Definition entry (line : string) : option (string * string) :=
  match VirtualBox.split_once ":" line with
  | Some (key, value) => Some (key, VirtualBox.lstrip " " value)
  | None => None
  end.

(** The value that a line gives for [key], if it gives one. *)
Definition value_for (key line : string) : option string :=
  match entry line with
  | Some (k, v) => if decide (k = key) then Some v else None
  | None => None
  end.

(** The values that the lines of [output] give for [key], in the order of
    the lines. *)
Definition values_of (key output : string) : list string :=
  omap (value_for key) (VirtualBox.split "010" output).

(** The value of a key after one more line for it. *)
Definition add_value (old : option VirtualBox.info_value) (x : string)
    : VirtualBox.info_value :=
  match old with
  | None => VirtualBox.Str x
  | Some v => VirtualBox.Lst [v; VirtualBox.Str x]
  end.

(** The value of a key after the lines that give it the values [xs]. *)
Fixpoint add_values (old : option VirtualBox.info_value) (xs : list string)
    : option VirtualBox.info_value :=
  match xs with
  | [] => old
  | x :: xs' => add_values (Some (add_value old x)) xs'
  end.

(** [v] paired with one value after the other: [[[v, x1], x2], ...]. *)
Fixpoint nest (v : VirtualBox.info_value) (xs : list string)
    : VirtualBox.info_value :=
  match xs with
  | [] => v
  | x :: xs' => nest (VirtualBox.Lst [v; VirtualBox.Str x]) xs'
  end.

(** When [serial in machine_info[key]] holds, by the values of [key]. *)
Definition recognised (serial : string) (values : list string) : Prop :=
  match values with
  | [] => False
  | [v] => VirtualBox.contains serial v = true
  | [v1; v2] => serial = v1 ∨ serial = v2
  | _ => last values = Some serial
  end.

#[export] Instance recognised_dec serial values :
  Decision (recognised serial values).
Proof.
  destruct values as [|v [|v2 [|v3 vs]]]; unfold recognised; apply _.
Defined.

(** The two fields of a parsed device that [detach] reads. *)
Definition identity (dev : usb_device) : option string * option string :=
  (dev !! "SerialNumber"%string, dev !! "UUID"%string).

(** The lines of an output, and the last of them. *)
Definition lines_of (output : string) : list string :=
  VirtualBox.split "010" output.

Definition last_line (output : string) : string :=
  default ""%string (last (lines_of output)).

(** A device as [ParseVirtualBoxDevices] appends it at an empty line: with
    the VID and PID of [micro_device] under ["vid_hex"] and ["pid_hex"],
    and without the fields they were computed from. *)
Definition converted (micro_device : MicroDevice) (dev : usb_device) : Prop :=
  is_Some (dev !! "vid_hex"%string) ∧
  dev !! "vid_hex"%string = Device.GetVID micro_device ∧
  is_Some (dev !! "pid_hex"%string) ∧
  dev !! "pid_hex"%string = Device.GetPID micro_device ∧
  dev !! "VendorId"%string = None ∧
  dev !! "ProductId"%string = None.

(** The dictionary of a run of lines. *)
Definition add_field (dev : usb_device) (line : string) : usb_device :=
  match entry line with
  | Some (key, value) => <[key := value]> dev
  | None => dev
  end.

Definition fields (block : list string) : usb_device :=
  foldl add_field ∅ block.

(** The two fields in hex instead of ["VendorId"] and ["ProductId"]. *)
Definition in_hex (vid_hex pid_hex : string) (dev : usb_device) : usb_device :=
  delete "ProductId"%string
    (<["pid_hex"%string := pid_hex]>
       (delete "VendorId"%string (<["vid_hex"%string := vid_hex]> dev))).

(** A line that [ParseVirtualBoxDevices] can read: an empty one, or one
    with a colon whose value, for the two fields, has a second word. *)
Definition readable (line : string) : Prop :=
  VirtualBox.blank line = true ∨
  ∃ key value,
    entry line = Some (key, value) ∧
    (key = "VendorId"%string ∨ key = "ProductId"%string →
     ∃ hex, VirtualBox.hex_field value = inr hex).

(** Why the parsing of some lines raises [e]: a line that is not empty
    and has no colon, or a value of one of the two fields without a second
    word. *)
Definition explains (lines : list string) (e : VirtualBox.error) : Prop :=
  (e = VirtualBox.ValueError ∧
   ∃ line, line ∈ lines ∧ VirtualBox.blank line = false ∧
           VirtualBox.split_once ":" line = None) ∨
  (e = VirtualBox.IndexError ∧
   ∃ line key value,
     line ∈ lines ∧ entry line = Some (key, value) ∧
     (key = "VendorId"%string ∨ key = "ProductId"%string) ∧
     VirtualBox.hex_field value = inl VirtualBox.IndexError).

(** The users whose output is parsed. *)
Definition parsed_user (usbhost : string -> string) (users : list string)
    (user : string) : Prop :=
  user ∈ users ∧
  VirtualBox.contains VirtualBox.NO_DEVICES (usbhost user) = false.

(** A character that is a decimal digit. *)
Definition is_digit (c : ascii) : bool :=
  let n := nat_of_ascii c in (48 <=? n)%nat && (n <=? 57)%nat.

Fixpoint all_digits (s : string) : bool :=
  match s with
  | EmptyString => true
  | String c s' => is_digit c && all_digits s'
  end.
(** * Properties *)

(** ** The loop that finds the first matching object *)

Section FirstPlatform.
Context (P : MicroDevice -> bool) (h : gmap loc MicroDevice).

Local Abbreviation first_at := (first_at P h).

Lemma first_platform_None ls :
  first_platform P h ls = None ↔
  ∀ l d, l ∈ ls → h !! l = Some d → P d = false.
Proof.
  induction ls as [|a ls IH]; simpl.
  - split; [intros _ l d Hl; inversion Hl | done].
  - destruct (h !! a) as [da|] eqn:Ha.
    + destruct (P da) eqn:HP.
      * split; [done|]. intros H. specialize (H a da (list_elem_of_here _ _) Ha).
        congruence.
      * rewrite IH. split.
        -- intros H l d Hl Hd. apply elem_of_cons in Hl as [->|Hl]; [congruence|eauto].
        -- intros H l d Hl Hd. apply (H l d); [by apply list_elem_of_further|done].
    + rewrite IH. split.
      * intros H l d Hl Hd. apply elem_of_cons in Hl as [->|Hl]; [congruence|eauto].
      * intros H l d Hl Hd. apply (H l d); [by apply list_elem_of_further|done].
Qed.

Lemma first_platform_Some ls l :
  first_platform P h ls = Some l ↔ ∃ i d, first_at ls i l d.
Proof.
  induction ls as [|a ls IH]; simpl.
  - split; [done|]. intros (i & d & Hi & _). by destruct i.
  - destruct (h !! a) as [da|] eqn:Ha; [destruct (P da) eqn:HP|].
    + split.
      * intros [= <-]. exists 0%nat, da. repeat split; try done. intros; lia.
      * intros (i & d & Hi & Hd & HPd & Hfirst). destruct i as [|i].
        -- simpl in Hi. congruence.
        -- specialize (Hfirst 0%nat a da). simpl in Hfirst.
           assert (false = true) by (rewrite <- HP; symmetry; apply Hfirst; [lia|done..]).
           done.
    + rewrite IH. split.
      * intros (i & d & Hi & Hd & HPd & Hfirst). exists (S i), d.
        repeat split; try done. intros [|j] l' d' Hj Hl' Hd'; simpl in Hl'.
        -- congruence.
        -- apply (Hfirst j l' d'); [lia|done..].
      * intros (i & d & Hi & Hd & HPd & Hfirst). destruct i as [|i].
        -- simpl in Hi. congruence.
        -- exists i, d. repeat split; try done. intros j l' d' Hj Hl' Hd'.
           apply (Hfirst (S j) l' d'); [lia|done..].
    + rewrite IH. split.
      * intros (i & d & Hi & Hd & HPd & Hfirst). exists (S i), d.
        repeat split; try done. intros [|j] l' d' Hj Hl' Hd'; simpl in Hl'.
        -- congruence.
        -- apply (Hfirst j l' d'); [lia|done..].
      * intros (i & d & Hi & Hd & HPd & Hfirst). destruct i as [|i].
        -- simpl in Hi. congruence.
        -- exists i, d. repeat split; try done. intros j l' d' Hj Hl' Hd'.
           apply (Hfirst (S j) l' d'); [lia|done..].
Qed.

Lemma first_at_platform ls i l d :
  first_at ls i l d → first_platform P h ls = Some l.
Proof. intros H. apply first_platform_Some. eauto. Qed.

(** An update that does not change [P] does not change what is found. *)
Lemma first_platform_alter (f : MicroDevice -> MicroDevice) l ls :
  (∀ d, P (f d) = P d) →
  first_platform P (alter f l h) ls = first_platform P h ls.
Proof.
  intros Hf. induction ls as [|a ls IH]; simpl; [done|].
  destruct (decide (l = a)) as [->|Hne].
  - rewrite lookup_alter_eq. destruct (h !! a) as [da|]; simpl; [|done].
    rewrite Hf, IH. done.
  - rewrite lookup_alter_ne by done. rewrite IH. done.
Qed.

End FirstPlatform.

(** ** Records and serial numbers under updates of the store *)

Lemma elem_of_records w d :
  d ∈ records w ↔ ∃ l, registered w l d.
Proof.
  unfold records, registered. rewrite list_elem_of_omap. naive_solver.
Qed.

Lemma elem_of_serials w sn :
  sn ∈ serials w ↔ ∃ l d, registered w l d ∧ _serial_number d = sn.
Proof.
  unfold serials. rewrite list_elem_of_fmap. setoid_rewrite elem_of_records.
  split.
  - intros (d & -> & l & Hl). eauto.
  - intros (l & d & Hl & <-). eauto.
Qed.

Lemma omap_heap_ext {B} (g : MicroDevice -> B) (h h' : gmap loc MicroDevice)
    (ls : list loc) :
  (∀ l, l ∈ ls → g <$> h' !! l = g <$> h !! l) →
  g <$> omap (fun l => h' !! l) ls = g <$> omap (fun l => h !! l) ls.
Proof.
  induction ls as [|a ls IH]; intros H; simpl; [done|].
  pose proof (H a (list_elem_of_here _ _)) as Ha.
  assert (IH' := IH (fun l Hl => H l (list_elem_of_further _ _ _ Hl))).
  destruct (h' !! a), (h !! a); simpl in *; try done.
  by f_equal; [injection Ha|].
Qed.

Lemma serials_ext w w' :
  _platforms (PLATFORMS w') = _platforms (PLATFORMS w) →
  (∀ l, l ∈ _platforms (PLATFORMS w) →
        _serial_number <$> heap w' !! l = _serial_number <$> heap w !! l) →
  serials w' = serials w.
Proof.
  intros Hp Hh. unfold serials, records. rewrite Hp. by apply omap_heap_ext.
Qed.

Lemma records_ext w w' :
  _platforms (PLATFORMS w') = _platforms (PLATFORMS w) →
  (∀ l, l ∈ _platforms (PLATFORMS w) → heap w' !! l = heap w !! l) →
  records w' = records w.
Proof.
  intros Hp Hh. unfold records. rewrite Hp.
  rewrite <- (list_fmap_id (omap _ _)), <- (list_fmap_id (omap (λ l, heap w !! l) _)).
  apply omap_heap_ext. intros l Hl. by rewrite Hh.
Qed.

(** A state that differs from a well-formed one only in the contents of
    objects, none of which changed its serial number, and in the session
    lists, is well formed. *)
Lemma wf_ext w w' :
  wf w →
  _platforms (PLATFORMS w') = _platforms (PLATFORMS w) →
  _serial_numbers (PLATFORMS w') = _serial_numbers (PLATFORMS w) →
  (∀ l, l ∈ _platforms (PLATFORMS w) →
        _serial_number <$> heap w' !! l = _serial_number <$> heap w !! l) →
  (∀ s sn, listed w' s sn → sn ∈ _serial_numbers (PLATFORMS w)) →
  wf w'.
Proof.
  intros [Ha Hu Hs Hl] Hp Hsn Hh Hl'.
  assert (serials w' = serials w) as Hser by by apply serials_ext.
  split.
  - intros l Hin. rewrite Hp in Hin. specialize (Hh l Hin).
    destruct (Ha l Hin) as [d Hd]. rewrite Hd in Hh.
    destruct (heap w' !! l); [eauto|done].
  - by rewrite Hser.
  - intros sn. by rewrite Hsn, Hser.
  - intros s sn H. rewrite Hsn. eauto.
Qed.

Lemma wf_empty : wf empty_world.
Proof.
  split.
  - intros l Hl. inversion Hl.
  - constructor.
  - intros sn. unfold serials, records. simpl. set_solver.
  - intros s sn (leased & H & _). simpl in H. by rewrite lookup_empty in H.
Qed.

Lemma fresh_not_registered w l :
  wf w → l ∈ _platforms (PLATFORMS w) → l ≠ fresh (dom (heap w)).
Proof.
  intros Hwf Hl ->. apply (wf_alive _ Hwf) in Hl.
  apply elem_of_dom in Hl. by apply is_fresh in Hl.
Qed.

Lemma wf_new_object d w : wf w → wf (new_object d w).2.
Proof.
  intros Hwf. apply (wf_ext w); try done.
  - intros l Hl. simpl. rewrite lookup_insert_ne; [done|].
    intros <-. by eapply fresh_not_registered.
  - intros s sn H. by apply (wf_listed _ Hwf s).
Qed.

Lemma records_app_alive w l d :
  heap w !! l = Some d →
  omap (fun l => heap w !! l) (_platforms (PLATFORMS w) ++ [l]) = records w ++ [d].
Proof.
  intros Hd. unfold records. rewrite omap_app. simpl. by rewrite Hd.
Qed.

Lemma wf_AddPlatform device w :
  wf w → wf (AddPlatform device w).
Proof.
  intros Hwf. unfold AddPlatform.
  destruct (heap w !! device) as [d|] eqn:Hd; [|done].
  destruct (decide _) as [Hin|Hnin]; [done|].
  destruct Hwf as [Ha Hu Hs Hl].
  assert (serials {| heap := heap w;
             PLATFORMS := {| _platforms := _platforms (PLATFORMS w) ++ [device];
               _serial_numbers := _serial_numbers (PLATFORMS w) ∪ {[Device.GetSerialNumber d]};
               _sessions := _sessions (PLATFORMS w) |} |}
          = serials w ++ [_serial_number d]) as Hser.
  { unfold serials at 1, records at 1. simpl.
    rewrite (records_app_alive w device d Hd), fmap_app. done. }
  split.
  - simpl. intros l Hin. apply elem_of_app in Hin as [Hin|Hin]; [eauto|].
    apply list_elem_of_singleton in Hin as ->. eauto.
  - rewrite Hser. apply NoDup_app. split; [done|]. split; [|apply NoDup_singleton].
    intros sn Hsn Hsn'. apply list_elem_of_singleton in Hsn' as ->.
    apply Hnin, Hs, Hsn.
  - intros sn. rewrite Hser. simpl. rewrite elem_of_union, elem_of_app, Hs.
    rewrite elem_of_singleton, list_elem_of_singleton. done.
  - intros s sn H. simpl. apply elem_of_union_l. by apply (Hl s).
Qed.

Lemma wf_register d w : wf w → wf (register d w).
Proof.
  intros Hwf. unfold register.
  destruct (new_object d w) as [l w'] eqn:E.
  apply wf_AddPlatform. change w' with (l, w').2. rewrite <- E.
  by apply wf_new_object.
Qed.

(** ** The outcomes of [GetPlatform] *)

Lemma elem_of_candidate_platforms type w platform :
  platform ∈ candidate_platforms type w ↔
  ∃ d, registered w platform d ∧ is_candidate type d = true.
Proof.
  unfold candidate_platforms, registered.
  rewrite list_elem_of_In, filter_In, <- list_elem_of_In. split.
  - intros [Hin H]. destruct (heap w !! platform) as [d|]; [eauto|done].
  - intros (d & [Hin Hd] & Hc). by rewrite Hd.
Qed.

Lemma candidate_platforms_nil type w :
  candidate_platforms type w = [] ↔
  ∀ l d, registered w l d → is_candidate type d = false.
Proof.
  split.
  - intros Hnil l d Hreg. destruct (is_candidate type d) eqn:E; [|done].
    assert (l ∈ candidate_platforms type w) as Hin
      by (apply elem_of_candidate_platforms; eauto).
    rewrite Hnil in Hin. inversion Hin.
  - intros H. destruct (candidate_platforms type w) as [|p ps] eqn:E; [done|].
    assert (p ∈ candidate_platforms type w) as Hin by (rewrite E; left).
    apply elem_of_candidate_platforms in Hin as (d & Hreg & Hc).
    rewrite (H p d Hreg) in Hc. done.
Qed.

Lemma candidate_platforms_NoDup type w :
  NoDup (_platforms (PLATFORMS w)) → NoDup (candidate_platforms type w).
Proof.
  unfold candidate_platforms. generalize (_platforms (PLATFORMS w)).
  intros ls Hnd. induction Hnd as [|a ls Ha Hnd IH]; simpl; [constructor|].
  destruct (match heap w !! a with Some d => is_candidate type d | None => false end);
    [|done].
  constructor; [|done]. rewrite list_elem_of_In, filter_In, <- list_elem_of_In.
  tauto.
Qed.

Lemma alter_lookup_insert (f : MicroDevice -> MicroDevice)
    (h : gmap loc MicroDevice) l d :
  h !! l = Some d → alter f l h = <[l := f d]> h.
Proof. intros H. rewrite alter_alt, H. done. Qed.

Lemma GetPlatform_unavailable type session_number username random_num w :
  candidate_platforms type w = [] →
  GetPlatform type session_number username random_num w = (Return None, w).
Proof. intros H. unfold GetPlatform. rewrite H. done. Qed.

Lemma GetPlatform_out_of_range type session_number username random_num w :
  candidate_platforms type w !! random_num = None →
  candidate_platforms type w ≠ [] →
  GetPlatform type session_number username random_num w = (Raise IndexError, w).
Proof.
  intros H Hne. unfold GetPlatform. rewrite H.
  destruct (candidate_platforms type w); [done|]. done.
Qed.

Lemma GetPlatform_unknown_session type session_number username random_num w
    platform d :
  candidate_platforms type w !! random_num = Some platform →
  heap w !! platform = Some d →
  _sessions (PLATFORMS w) !! session_number = None →
  GetPlatform type session_number username random_num w =
    (Raise (KeyError session_number),
     set_heap (<[platform := Device.take username d]> (heap w)) w).
Proof.
  intros Hc Hd Hs. unfold GetPlatform. rewrite Hc.
  destruct (candidate_platforms type w); [done|]. simpl.
  rewrite lookup_alter_eq, Hd. simpl. rewrite Hs.
  by rewrite (alter_lookup_insert _ _ _ d).
Qed.

Lemma GetPlatform_leased type session_number username random_num w
    platform d leased :
  candidate_platforms type w !! random_num = Some platform →
  heap w !! platform = Some d →
  _sessions (PLATFORMS w) !! session_number = Some leased →
  GetPlatform type session_number username random_num w =
    let c := fresh (dom (<[platform := Device.take username d]> (heap w))) in
    (Return (Some c),
     leased_world w platform d session_number username leased c).
Proof.
  intros Hc Hd Hs. unfold GetPlatform. rewrite Hc.
  destruct (candidate_platforms type w); [done|]. simpl.
  rewrite lookup_alter_eq, Hd. simpl. rewrite Hs.
  by rewrite (alter_lookup_insert _ _ _ d).
Qed.

(** Every call of [GetPlatform] ends in one of four ways. *)
Lemma GetPlatform_cases type session_number username random_num w :
  let r := GetPlatform type session_number username random_num w in
  (candidate_platforms type w = [] ∧ r = (Return None, w)) ∨
  (candidate_platforms type w !! random_num = None ∧ r = (Raise IndexError, w)) ∨
  (∃ platform d,
     candidate_platforms type w !! random_num = Some platform ∧
     registered w platform d ∧ is_candidate type d = true ∧
     ((_sessions (PLATFORMS w) !! session_number = None ∧
       r = (Raise (KeyError session_number),
            set_heap (<[platform := Device.take username d]> (heap w)) w)) ∨
      (∃ leased,
         _sessions (PLATFORMS w) !! session_number = Some leased ∧
         let c := fresh (dom (<[platform := Device.take username d]> (heap w))) in
         r = (Return (Some c),
              leased_world w platform d session_number username leased c)))).
Proof.
  intros r. subst r.
  destruct (candidate_platforms type w) as [|p ps] eqn:E.
  { left. split; [done|]. by apply GetPlatform_unavailable. }
  right.
  destruct (candidate_platforms type w !! random_num) as [platform|] eqn:Hc.
  2:{ left. rewrite <- E. split; [done|]. apply GetPlatform_out_of_range; [done|].
      by rewrite E. }
  right. rewrite <- E.
  assert (platform ∈ candidate_platforms type w) as Hin
    by (eapply list_elem_of_lookup_2; eauto).
  apply elem_of_candidate_platforms in Hin as (d & Hreg & Hcand).
  exists platform, d. repeat split; try done; try apply Hreg.
  destruct (_sessions (PLATFORMS w) !! session_number) as [leased|] eqn:Hs.
  - right. exists leased. split; [done|].
    apply GetPlatform_leased; [done|apply Hreg|done].
  - left. split; [done|]. apply GetPlatform_unknown_session; [done|apply Hreg|done].
Qed.

(** ** Well-formedness along a run *)

Lemma wf_alter (f : MicroDevice -> MicroDevice) l w :
  (∀ d, _serial_number (f d) = _serial_number d) →
  wf w → wf (set_heap (alter f l (heap w)) w).
Proof.
  intros Hf Hwf. apply (wf_ext w); try done.
  - intros a _. simpl. destruct (decide (l = a)) as [->|Hne].
    + rewrite lookup_alter_eq. destruct (heap w !! a); simpl; [|done].
      by rewrite Hf.
    + by rewrite lookup_alter_ne.
  - intros s sn H. by apply (wf_listed _ Hwf s).
Qed.

Lemma wf_ReleasePlatform serial_number w :
  wf w → wf (ReleasePlatform serial_number w).2.
Proof.
  intros Hwf. unfold ReleasePlatform. destruct (first_platform _ _ _); [|done].
  by apply wf_alter.
Qed.

Lemma wf_EnablePlatform serial_number status w :
  wf w → wf (EnablePlatform serial_number status w).2.
Proof.
  intros Hwf. unfold EnablePlatform. destruct (first_platform _ _ _); [|done].
  by apply wf_alter.
Qed.

Lemma wf_release_all serials w : wf w → wf (release_all serials w).
Proof.
  revert w. induction serials as [|sn sns IH]; intros w Hwf; simpl; [done|].
  apply IH. by apply wf_ReleasePlatform.
Qed.

Lemma wf_GetPlatform type session_number username random_num w :
  wf w → wf (GetPlatform type session_number username random_num w).2.
Proof.
  intros Hwf.
  destruct (GetPlatform_cases type session_number username random_num w)
    as [[_ ->]|[[_ ->]|(p & d & Hc & [Hin Hd] & Hcand & [[Hs ->]|(leased & Hs & ->)])]];
    try done; simpl.
  - rewrite <- (alter_lookup_insert (Device.take username) _ _ _ Hd).
    by apply wf_alter.
  - apply (wf_ext w); try done.
    + intros l Hl. simpl. rewrite lookup_insert_ne.
      * destruct (decide (p = l)) as [->|Hne].
        -- rewrite lookup_insert_eq, Hd. done.
        -- by rewrite lookup_insert_ne.
      * intros <-. apply (wf_alive _ Hwf) in Hl. apply elem_of_dom in Hl.
        eapply (is_fresh (dom (<[p:=Device.take username d]> (heap w)))).
        by apply dom_insert_subseteq.
    + intros s sn (lst & Hlst & Hsn). simpl in Hlst.
      destruct (decide (session_number = s)) as [->|Hne].
      * rewrite lookup_insert_eq in Hlst. injection Hlst as <-.
        apply elem_of_app in Hsn as [Hsn|Hsn].
        -- apply (wf_listed _ Hwf s). by exists leased.
        -- apply list_elem_of_singleton in Hsn as ->.
           apply (wf_serial_set _ Hwf), elem_of_serials. exists p, d. by split.
      * rewrite lookup_insert_ne in Hlst by done.
        apply (wf_listed _ Hwf s). by exists lst.
Qed.

Lemma wf_GetDeviceWithType device_type w :
  wf w → wf (GetDeviceWithType device_type w).2.
Proof.
  intros Hwf. unfold GetDeviceWithType, copy_object.
  destruct (first_platform _ _ _) as [p|]; [|done].
  destruct (heap w !! p) as [d|]; [|done].
  destruct (new_object d w) as [c w'] eqn:E. simpl.
  change w' with (c, w').2. rewrite <- E. by apply wf_new_object.
Qed.

Arguments sess_num : simpl never.

Lemma wf_RPCSessionRequest draw w :
  wf w → wf (RPCSessionRequest draw w).2.
Proof.
  intros Hwf. apply (wf_ext w); try done.
  intros s sn (lst & Hlst & Hsn). simpl in Hlst.
  destruct (decide (sess_num draw = s)) as [<-|Hne].
  - rewrite lookup_insert_eq in Hlst. injection Hlst as <-. inversion Hsn.
  - rewrite lookup_insert_ne in Hlst by done.
    apply (wf_listed _ Hwf s). by exists lst.
Qed.

Lemma wf_serve r w : wf w → wf (serve r w).
Proof.
  intros Hwf. destruct r as [draw|s|t s u n|t sn| |sn|sn|t]; simpl.
  - by apply wf_RPCSessionRequest.
  - unfold RPCSessionClose. destruct (negb (truthy s)); [done|].
    destruct (_sessions (PLATFORMS w) !! s); [|done]. by apply wf_release_all.
  - unfold RPCDeviceRequest.
    destruct (negb (truthy t)); [done|]. destruct (negb (truthy s)); [done|].
    destruct (negb (truthy u)); [done|].
    pose proof (wf_GetPlatform t s u n w Hwf) as H.
    destruct (GetPlatform t s u n w) as [[[c|]|e] w']; simpl in *; try done.
    by destruct (heap w' !! c).
  - unfold RPCDeviceRelease.
    destruct (negb (truthy t)); [done|]. destruct (negb (truthy sn)); [done|].
    by apply wf_ReleasePlatform.
  - done.
  - unfold RPCDeviceRequestEnable.
    pose proof (wf_EnablePlatform sn true w Hwf) as H.
    by destruct (EnablePlatform sn true w).
  - unfold RPCDeviceRequestDisable.
    pose proof (wf_EnablePlatform sn false w Hwf) as H.
    by destruct (EnablePlatform sn false w).
  - unfold RPCGetDeviceTypeInfo. destruct (negb (truthy t)); [done|].
    pose proof (wf_GetDeviceWithType t w Hwf) as H.
    destruct (GetDeviceWithType t w) as [[c|] w']; simpl in *; [|done].
    by destruct (heap w' !! c).
Qed.

Lemma wf_step e w : wf w → wf (step e w).
Proof. destruct e; [apply wf_register|apply wf_serve]. Qed.

Lemma reachable_by_wf allowed w : reachable_by allowed w → wf w.
Proof.
  induction 1 as [|e w _ _ IH]; [apply wf_empty|by apply wf_step].
Qed.

(** In a well-formed state a serial number names one registered object. *)
Lemma wf_registered_inj w l l' d d' :
  wf w → registered w l d → registered w l' d' →
  _serial_number d = _serial_number d' → l = l'.
Proof.
  intros Hwf [Hl Hd] [Hl' Hd'] Heq.
  pose proof (wf_unique _ Hwf) as Hnd. unfold serials, records in Hnd.
  revert Hnd Hl Hl'. generalize (_platforms (PLATFORMS w)). intros ls.
  induction ls as [|a ls IH]; intros Hnd Hl Hl'; [inversion Hl|].
  simpl in Hnd.
  assert (∀ x dx, x ∈ ls → heap w !! x = Some dx →
          _serial_number dx ∈ _serial_number <$> omap (λ l, heap w !! l) ls) as Hmem.
  { intros x dx Hx Hdx. apply list_elem_of_fmap. exists dx. split; [done|].
    apply list_elem_of_omap. eauto. }
  apply elem_of_cons in Hl as [->|Hl]; apply elem_of_cons in Hl' as [->|Hl']; try done.
  - rewrite Hd in Hnd. simpl in Hnd. apply NoDup_cons in Hnd as [Hnin _].
    exfalso. apply Hnin. rewrite Heq. by apply (Hmem l' d').
  - rewrite Hd' in Hnd. simpl in Hnd. apply NoDup_cons in Hnd as [Hnin _].
    exfalso. apply Hnin. rewrite <- Heq. by apply (Hmem l d).
  - apply IH; try done. destruct (heap w !! a); simpl in Hnd; [|done].
    by apply NoDup_cons in Hnd as [_ ?].
Qed.

Lemma wf_NoDup_platforms w : wf w → NoDup (_platforms (PLATFORMS w)).
Proof.
  intros Hwf. pose proof (wf_unique _ Hwf) as Hnd.
  pose proof (wf_alive _ Hwf) as Ha. unfold serials, records in Hnd.
  revert Hnd Ha. generalize (_platforms (PLATFORMS w)). intros ls.
  induction ls as [|a ls IH]; intros Hnd Ha; [constructor|].
  destruct (Ha a (list_elem_of_here _ _)) as [d Hd].
  simpl in Hnd. rewrite Hd in Hnd. simpl in Hnd.
  apply NoDup_cons in Hnd as [Hnin Hnd]. constructor.
  - intros Hin. apply Hnin. apply list_elem_of_fmap. exists d. split; [done|].
    apply list_elem_of_omap. eauto.
  - apply IH; [done|]. intros l Hl. apply Ha. by right.
Qed.

Lemma has_serial_true sn d : has_serial sn d = true ↔ _serial_number d = sn.
Proof. unfold has_serial, Device.GetSerialNumber. apply String.eqb_eq. Qed.

Lemma has_serial_false sn d : has_serial sn d = false ↔ _serial_number d ≠ sn.
Proof. unfold has_serial, Device.GetSerialNumber. apply String.eqb_neq. Qed.

Lemma has_type_false t d : has_type t d = false ↔ _type d ≠ t.
Proof. unfold has_type, Device.GetType. apply String.eqb_neq. Qed.

(** In a well-formed state the loop over the serial numbers stops at the
    one registered object with that serial number. *)
Lemma first_platform_serial w l d :
  wf w → registered w l d →
  first_platform (has_serial (_serial_number d)) (heap w)
    (_platforms (PLATFORMS w)) = Some l.
Proof.
  intros Hwf [Hl Hd].
  destruct (first_platform _ _ _) as [l'|] eqn:E.
  - apply first_platform_Some in E as (i & d' & Hi & Hd' & HP & _).
    apply has_serial_true in HP. f_equal.
    apply (wf_registered_inj w l' l d' d); try done.
    split; [|done]. by eapply list_elem_of_lookup_2.
  - rewrite first_platform_None in E. specialize (E l d Hl Hd).
    apply has_serial_false in E. done.
Qed.

Lemma first_platform_no_serial w sn :
  (∀ l d, registered w l d → _serial_number d ≠ sn) →
  first_platform (has_serial sn) (heap w) (_platforms (PLATFORMS w)) = None.
Proof.
  intros H. apply first_platform_None. intros l d Hl Hd.
  apply has_serial_false, (H l d). by split.
Qed.

Lemma ReleasePlatform_first serial_number w i platform d :
  first_at (has_serial serial_number) (heap w) (_platforms (PLATFORMS w))
    i platform d →
  ReleasePlatform serial_number w =
    ([], set_heap (<[platform := Device.Free d]> (heap w)) w).
Proof.
  intros H. unfold ReleasePlatform.
  rewrite (first_at_platform _ _ _ _ _ _ H).
  destruct H as (_ & Hd & _). by rewrite (alter_lookup_insert _ _ _ d).
Qed.

Lemma ReleasePlatform_registered w platform d :
  wf w → registered w platform d →
  ReleasePlatform (_serial_number d) w =
    ([], set_heap (<[platform := Device.Free d]> (heap w)) w).
Proof.
  intros Hwf Hreg. unfold ReleasePlatform.
  rewrite (first_platform_serial w platform d Hwf Hreg).
  destruct Hreg as [_ Hd]. by rewrite (alter_lookup_insert _ _ _ d).
Qed.

Lemma ReleasePlatform_not_found serial_number w :
  (∀ l d, registered w l d → _serial_number d ≠ serial_number) →
  ReleasePlatform serial_number w =
    (["SerialNumber " +:+ serial_number +:+ " was not found."], w).
Proof.
  intros H. unfold ReleasePlatform. by rewrite first_platform_no_serial.
Qed.

Lemma ReleasePlatform_twice serial_number w :
  ReleasePlatform serial_number (ReleasePlatform serial_number w).2 =
  ReleasePlatform serial_number w.
Proof.
  unfold ReleasePlatform.
  destruct (first_platform _ (heap w) _) as [l|] eqn:E; simpl.
  - rewrite first_platform_alter by done. rewrite E. f_equal.
    unfold set_heap. simpl. f_equal.
    apply map_eq. intros k. destruct (decide (l = k)) as [->|Hne].
    + rewrite !lookup_alter_eq. by destruct (heap w !! k).
    + by rewrite !lookup_alter_ne.
  - by rewrite E.
Qed.

(** C8. [ReleasePlatform(serial)] marks the matching record (the first
    registered one with that serial number, which in a well-formed registry
    is the only one) not taken and without user, whatever its state was, and
    changes nothing else; releasing twice is releasing once; for a serial
    number that no registered record has, it logs the warning and changes
    nothing. *)
Theorem ReleasePlatform_frees_idempotent (serial_number : string) (w : world) :
  (∀ i platform d,
     first_at (has_serial serial_number) (heap w) (_platforms (PLATFORMS w))
       i platform d →
     ReleasePlatform serial_number w =
       ([], set_heap (<[platform := Device.Free d]> (heap w)) w)) ∧
  (∀ platform d,
     wf w → registered w platform d → _serial_number d = serial_number →
     ReleasePlatform serial_number w =
       ([], set_heap (<[platform := Device.Free d]> (heap w)) w)) ∧
  (∀ d, _is_taken (Device.Free d) = false ∧ _user (Device.Free d) = None ∧
        _type (Device.Free d) = _type d ∧
        _serial_number (Device.Free d) = _serial_number d ∧
        _vid_hex (Device.Free d) = _vid_hex d ∧
        _pid_hex (Device.Free d) = _pid_hex d ∧
        _enabled (Device.Free d) = _enabled d) ∧
  ReleasePlatform serial_number (ReleasePlatform serial_number w).2 =
    ReleasePlatform serial_number w ∧
  ((∀ l d, registered w l d → _serial_number d ≠ serial_number) →
   ReleasePlatform serial_number w =
     (["SerialNumber " +:+ serial_number +:+ " was not found."], w)).
Proof.
  split; [|split; [|split; [|split]]].
  - apply ReleasePlatform_first.
  - intros platform d Hwf Hreg <-. by apply ReleasePlatform_registered.
  - done.
  - apply ReleasePlatform_twice.
  - apply ReleasePlatform_not_found.
Qed.

Lemma reachable_serve r w : reachable w → reachable (serve r w).
Proof. intros H. by apply (reachable_step _ (Serve r)). Qed.

Lemma reachable_register d w : reachable w → reachable (register d w).
Proof. intros H. by apply (reachable_step _ (Register d)). Qed.

Lemma reachable_wf w : reachable w → wf w.
Proof. apply reachable_by_wf. Qed.

Lemma Example_w0_reachable : reachable Example.w0.
Proof.
  change Example.w0 with
    (register (Example.board "S1") (register (Example.board "S2") empty_world)).
  do 2 apply reachable_register. constructor.
Qed.

Lemma Example_w2_reachable : reachable Example.w2.
Proof. do 2 apply reachable_serve. apply Example_w0_reachable. Qed.

Lemma ReleasePlatform_frees_idempotent_witness :
  ReleasePlatform "S1" Example.w2 =
    ([], set_heap (<[2%positive := Example.board "S1"]> (heap Example.w2))
           Example.w2) ∧
  ReleasePlatform "S9" Example.w2 =
    (["SerialNumber S9 was not found."%string], Example.w2).
Proof.
  pose proof (ReleasePlatform_frees_idempotent "S1" Example.w2)
    as (_ & Hreg & _).
  pose proof (ReleasePlatform_frees_idempotent "S9" Example.w2)
    as (_ & _ & _ & _ & Hnone).
  split.
  - apply (Hreg 2%positive (Device.take "alice" (Example.board "S1"))).
    + apply reachable_wf, Example_w2_reachable.
    + split; [|reflexivity]. vm_compute. right. left.
    + reflexivity.
  - apply Hnone. intros l d [Hl Hd] Hsn.
    vm_compute in Hl.
    repeat (apply elem_of_cons in Hl as [->|Hl];
            [vm_compute in Hd; injection Hd as <-; discriminate|]).
    inversion Hl.
Defined.

(** ** What a request does to the registered records *)

Lemma release_all_frame serials w :
  PLATFORMS (release_all serials w) = PLATFORMS w ∧
  dom (heap (release_all serials w)) = dom (heap w) ∧
  ∀ l d, heap w !! l = Some d →
    heap (release_all serials w) !! l = Some d ∨
    heap (release_all serials w) !! l = Some (Device.Free d).
Proof.
  revert w. induction serials as [|sn sns IH]; intros w; simpl.
  { split; [done|]. split; [done|]. auto. }
  destruct (IH (ReleasePlatform sn w).2) as (HP & Hdom & Hh).
  assert (PLATFORMS (ReleasePlatform sn w).2 = PLATFORMS w ∧
          dom (heap (ReleasePlatform sn w).2) = dom (heap w) ∧
          ∀ l d, heap w !! l = Some d →
            heap (ReleasePlatform sn w).2 !! l = Some d ∨
            heap (ReleasePlatform sn w).2 !! l = Some (Device.Free d))
    as (HP1 & Hdom1 & Hh1).
  { unfold ReleasePlatform. destruct (first_platform _ _ _) as [p|]; simpl.
    - split; [done|]. split; [apply dom_alter_L|]. intros l d Hd.
      destruct (decide (p = l)) as [->|Hne].
      + right. by rewrite lookup_alter_eq, Hd.
      + left. by rewrite lookup_alter_ne.
    - split; [done|]. split; [done|]. auto. }
  split; [by rewrite HP|]. split; [by rewrite Hdom|].
  intros l d Hd. destruct (Hh1 l d Hd) as [H1|H1]; destruct (Hh l _ H1) as [H2|H2];
    rewrite H2; auto.
Qed.

Lemma served_refl r d :
  (match r with
   | DeviceRequestEnable _ | DeviceRequestDisable _ => False
   | _ => True
   end) → served r d d.
Proof.
  intros Hr. unfold served. repeat split; destruct r; try done; auto.
Qed.

(** The request left the registered records as they were. *)
Ltac untouched :=
  split; [done|]; split; [done|];
  let l := fresh "l" in let d := fresh "d" in let H := fresh "H" in
  intros l d H; exists d; split; [done|];
  unfold served; repeat split; auto.

Lemma serve_frame r w :
  wf w →
  _platforms (PLATFORMS (serve r w)) = _platforms (PLATFORMS w) ∧
  _serial_numbers (PLATFORMS (serve r w)) = _serial_numbers (PLATFORMS w) ∧
  ∀ l d, registered w l d →
    ∃ d', registered (serve r w) l d' ∧ served r d d'.
Proof.
  intros Hwf.
  assert (∀ w', _platforms (PLATFORMS w') = _platforms (PLATFORMS w) →
            ∀ l d d', registered w l d → heap w' !! l = Some d' →
                      registered w' l d') as Hreg.
  { intros w' Hp l d d' [Hl _] Hd'. split; [by rewrite Hp|done]. }
  destruct r as [draw|s|t s u n|t sn| |sn|sn|t]; simpl.
  - (* RPCSessionRequest *)
    untouched.
  - (* RPCSessionClose *)
    unfold RPCSessionClose. destruct (negb (truthy s)); simpl.
    { untouched. }
    destruct (_sessions (PLATFORMS w) !! s) as [lst|]; simpl.
    2:{ untouched. }
    destruct (release_all_frame lst w) as (HP & _ & Hh).
    rewrite HP. split; [done|]. split; [done|]. intros l d Hld.
    destruct (Hh l d (proj2 Hld)) as [H|H].
    + exists d. split; [eapply Hreg; eauto; by rewrite HP|].
      unfold served. repeat split; auto.
    + exists (Device.Free d). split; [eapply Hreg; eauto; by rewrite HP|].
      unfold served. repeat split; auto.
  - (* RPCDeviceRequest *)
    unfold RPCDeviceRequest.
    destruct (negb (truthy t)); simpl.
    { untouched. }
    destruct (negb (truthy s)); simpl.
    { untouched. }
    destruct (negb (truthy u)); simpl.
    { untouched. }
    destruct (GetPlatform_cases t s u n w)
      as [[_ E]|[[_ E]|(p & dp & Hc & [Hin Hdp] & Hcand &
                        [[Hs E]|(leased & Hs & E)])]];
      simpl in E; rewrite E; simpl.
    + untouched.
    + untouched.
    + split; [done|]. split; [done|]. intros l d [Hl Hd].
      destruct (decide (p = l)) as [->|Hne].
      * exists (Device.take u dp). split.
        -- split; [done|]. simpl. by rewrite lookup_insert_eq.
        -- assert (d = dp) as -> by congruence.
           unfold served. repeat split; try done. right. split; [|done].
           unfold is_candidate in Hcand. destruct (_is_taken dp); [|done].
           by rewrite andb_false_r in Hcand.
      * exists d. split.
        -- split; [done|]. simpl. by rewrite lookup_insert_ne.
        -- unfold served. repeat split; auto.
    + unfold leased_world. simpl. rewrite lookup_insert_eq. simpl.
      set (c := fresh (dom (<[p:=Device.take u dp]> (heap w)))).
      assert (∀ l, l ∈ _platforms (PLATFORMS w) → c ≠ l) as Hc'.
      { intros l Hl <-. apply (wf_alive _ Hwf) in Hl. apply elem_of_dom in Hl.
        apply (is_fresh (dom (<[p:=Device.take u dp]> (heap w)))).
        by apply dom_insert_subseteq. }
      split; [done|]. split; [done|]. intros l d [Hl Hd].
      destruct (decide (p = l)) as [->|Hne].
      * exists (Device.take u dp). split.
        -- split; [done|]. simpl. rewrite lookup_insert_ne by by apply Hc'.
           by rewrite lookup_insert_eq.
        -- assert (d = dp) as -> by congruence.
           unfold served. repeat split; try done. right. split; [|done].
           unfold is_candidate in Hcand. destruct (_is_taken dp); [|done].
           by rewrite andb_false_r in Hcand.
      * exists d. split.
        -- split; [done|]. simpl. rewrite lookup_insert_ne by by apply Hc'.
           by rewrite lookup_insert_ne.
        -- unfold served. repeat split; auto.
  - (* RPCDeviceRelease *)
    unfold RPCDeviceRelease.
    destruct (negb (truthy t)); simpl.
    { untouched. }
    destruct (negb (truthy sn)); simpl.
    { untouched. }
    destruct (release_all_frame [sn] w) as (HP & _ & Hh). simpl in HP, Hh.
    rewrite HP. split; [done|]. split; [done|]. intros l d Hld.
    destruct (Hh l d (proj2 Hld)) as [H|H].
    + exists d. split; [eapply Hreg; eauto; by rewrite HP|].
      unfold served. repeat split; auto.
    + exists (Device.Free d). split; [eapply Hreg; eauto; by rewrite HP|].
      unfold served. repeat split; auto.
  - (* RPCDeviceRequestList *)
    untouched.
  - (* RPCDeviceRequestEnable *)
    unfold RPCDeviceRequestEnable, EnablePlatform.
    destruct (first_platform _ _ _) as [p|] eqn:E; simpl.
    2:{ untouched. }
    split; [done|]. split; [done|]. intros l d [Hl Hd].
    destruct (decide (p = l)) as [->|Hne].
    + exists (Device.Enable true d). split.
      * split; [done|]. simpl. by rewrite lookup_alter_eq, Hd.
      * apply first_platform_Some in E as (i & d0 & _ & Hd0 & HP & _).
        assert (d0 = d) as -> by congruence. apply has_serial_true in HP.
        unfold served. repeat split; auto.
    + exists d. split.
      * split; [done|]. simpl. by rewrite lookup_alter_ne.
      * unfold served. repeat split; auto.
  - (* RPCDeviceRequestDisable *)
    unfold RPCDeviceRequestDisable, EnablePlatform.
    destruct (first_platform _ _ _) as [p|] eqn:E; simpl.
    2:{ untouched. }
    split; [done|]. split; [done|]. intros l d [Hl Hd].
    destruct (decide (p = l)) as [->|Hne].
    + exists (Device.Enable false d). split.
      * split; [done|]. simpl. by rewrite lookup_alter_eq, Hd.
      * apply first_platform_Some in E as (i & d0 & _ & Hd0 & HP & _).
        assert (d0 = d) as -> by congruence. apply has_serial_true in HP.
        unfold served. repeat split; auto.
    + exists d. split.
      * split; [done|]. simpl. by rewrite lookup_alter_ne.
      * unfold served. repeat split; auto.
  - (* RPCGetDeviceTypeInfo *)
    unfold RPCGetDeviceTypeInfo.
    destruct (negb (truthy t)); simpl.
    { untouched. }
    unfold GetDeviceWithType, copy_object.
    destruct (first_platform _ _ _) as [p|]; simpl.
    2:{ untouched. }
    destruct (heap w !! p) as [dp|]; simpl.
    2:{ untouched. }
    rewrite lookup_insert_eq. simpl.
    split; [done|]. split; [done|]. intros l d [Hl Hd]. exists d.
    split; [|by apply served_refl]. split; [done|]. simpl.
    rewrite lookup_insert_ne; [done|]. intros <-.
    by eapply fresh_not_registered.
Qed.

(** ** Enabling and disabling *)

Lemma EnablePlatform_registered w platform d status :
  wf w → registered w platform d →
  EnablePlatform (_serial_number d) status w =
    (true, set_heap (<[platform := Device.Enable status d]> (heap w)) w).
Proof.
  intros Hwf Hreg. unfold EnablePlatform.
  rewrite (first_platform_serial w platform d Hwf Hreg).
  destruct Hreg as [_ Hd]. by rewrite (alter_lookup_insert _ _ _ d).
Qed.

Lemma EnablePlatform_not_found serial_number status w :
  (∀ l d, registered w l d → _serial_number d ≠ serial_number) →
  EnablePlatform serial_number status w = (false, w).
Proof.
  intros H. unfold EnablePlatform. by rewrite first_platform_no_serial.
Qed.

Lemma registered_alive w l : wf w → l ∈ _platforms (PLATFORMS w) → ∃ d, registered w l d.
Proof.
  intros Hwf Hl. destruct (wf_alive _ Hwf l Hl) as [d Hd]. by exists d.
Qed.

(** The records after a request are the records before it, each changed
    as [served] allows. *)
Lemma serve_registered_inv r w l d' :
  wf w → registered (serve r w) l d' →
  ∃ d, registered w l d ∧ served r d d'.
Proof.
  intros Hwf [Hl Hd']. destruct (serve_frame r w Hwf) as (Hp & _ & Hf).
  rewrite Hp in Hl. destruct (registered_alive w l Hwf Hl) as [d Hreg].
  exists d. split; [done|]. destruct (Hf l d Hreg) as (d'' & [_ Hd''] & Hs).
  congruence.
Qed.

Lemma type_blocked_unavailable type serial_number w s u n :
  type_blocked type serial_number w →
  GetPlatform type s u n w = (Return None, w).
Proof.
  intros Hb. apply GetPlatform_unavailable, candidate_platforms_nil.
  intros l d Hreg. unfold is_candidate.
  destruct (String.eqb_spec (_type d) type) as [Ht|Ht]; [|done].
  destruct (Hb l d Hreg Ht) as [_ ->]. by rewrite andb_false_r.
Qed.

Lemma type_blocked_serve type serial_number r w :
  wf w → r ≠ DeviceRequestEnable serial_number →
  type_blocked type serial_number w →
  type_blocked type serial_number (serve r w).
Proof.
  intros Hwf Hr Hb l d' Hreg Ht.
  destruct (serve_registered_inv r w l d' Hwf Hreg) as (d & Hd & Hs).
  destruct Hs as (Hty & Hsn & _ & _ & Hen & _).
  destruct (Hb l d Hd) as [Hsn' Hen']; [congruence|].
  split; [congruence|].
  destruct r; try congruence.
  - destruct Hen as [[-> _]|Hen]; [|congruence]. by rewrite Hsn' in Hr.
  - destruct Hen as [[_ ?]|Hen]; [done|congruence].
Qed.

Lemma type_blocked_run type serial_number rs w :
  wf w → Forall (λ r, r ≠ DeviceRequestEnable serial_number) rs →
  type_blocked type serial_number w →
  type_blocked type serial_number (run rs w).
Proof.
  intros Hwf Hrs. revert w Hwf.
  induction Hrs as [|r rs Hr _ IH]; intros w Hwf Hb; simpl; [done|].
  apply IH; [by apply wf_serve|by apply type_blocked_serve].
Qed.

(** C7. [EnablePlatform(serial, status)] writes [_enabled] of the record
    with that serial number and nothing else: that record keeps its type,
    serial number, taken flag and user, every other object and the whole
    of [PLATFORMS] (device list, serial set, session lists) are as they
    were.  When the disabled record is the only one of its type,
    [GetPlatform] for that type returns [None] after any requests that do
    not enable that serial number, whether or not the record is still
    taken; once it is enabled again, and free, it is handed out. *)
Theorem EnablePlatform_orthogonal (serial_number : string) (w : world) :
  wf w →
  (∀ status platform d,
     registered w platform d → _serial_number d = serial_number →
     EnablePlatform serial_number status w =
       (true, set_heap (<[platform := Device.Enable status d]> (heap w)) w) ∧
     _enabled (Device.Enable status d) = status ∧
     _is_taken (Device.Enable status d) = _is_taken d ∧
     _user (Device.Enable status d) = _user d ∧
     _serial_number (Device.Enable status d) = _serial_number d ∧
     _type (Device.Enable status d) = _type d) ∧
  (∀ status,
     (∀ l d, registered w l d → _serial_number d ≠ serial_number) →
     EnablePlatform serial_number status w = (false, w)) ∧
  (∀ type platform d,
     registered w platform d → _serial_number d = serial_number →
     _type d = type →
     (∀ l' d', registered w l' d' → _type d' = type → l' = platform) →
     (∀ rs s u n,
        Forall (λ r, r ≠ DeviceRequestEnable serial_number) rs →
        let w' := run rs (EnablePlatform serial_number false w).2 in
        GetPlatform type s u n w' = (Return None, w')) ∧
     (∀ s u leased,
        _is_taken d = false →
        _sessions (PLATFORMS w) !! s = Some leased →
        ∃ c w', GetPlatform type s u 0 (EnablePlatform serial_number true w).2
                = (Return (Some c), w'))).
Proof.
  intros Hwf. split; [|split].
  - intros status platform d Hreg <-. split; [|done].
    by apply EnablePlatform_registered.
  - intros status. apply EnablePlatform_not_found.
  - intros type platform d Hreg <- <- Hsole. split.
    + intros rs s u n Hrs w'. subst w'.
      apply (type_blocked_unavailable _ (_serial_number d)).
      apply type_blocked_run; [by apply wf_EnablePlatform|done|].
      rewrite (EnablePlatform_registered w platform d false Hwf Hreg). simpl.
      intros l' d' [Hl' Hd'] Ht. simpl in Hl', Hd'.
      destruct (decide (platform = l')) as [<-|Hne].
      * rewrite lookup_insert_eq in Hd'. by injection Hd' as <-.
      * rewrite lookup_insert_ne in Hd' by done.
        exfalso. apply Hne. symmetry. by apply (Hsole l' d').
    + intros s u leased Hfree Hs.
      rewrite (EnablePlatform_registered w platform d true Hwf Hreg). simpl.
      set (w1 := set_heap _ w).
      assert (candidate_platforms (_type d) w1 = [platform]) as Hcand.
      { pose proof (wf_NoDup_platforms w Hwf) as Hnd.
        destruct Hreg as [Hin Hd]. unfold candidate_platforms. subst w1. simpl.
        revert Hnd Hin Hsole. unfold registered.
        generalize (_platforms (PLATFORMS w)). intros ls Hnd Hin Hsole.
        induction Hnd as [|a ls Ha Hnd IH]; [inversion Hin|]. simpl.
        destruct (decide (platform = a)) as [<-|Hne].
        - rewrite lookup_insert_eq. unfold is_candidate. simpl.
          rewrite String.eqb_refl, Hfree. simpl. f_equal.
          clear IH Hin. induction ls as [|b ls IH]; [done|]. simpl.
          apply not_elem_of_cons in Ha as [Hb Ha]. apply NoDup_cons in Hnd as [_ Hnd].
          rewrite lookup_insert_ne by done.
          destruct (heap w !! b) as [db|] eqn:Hdb.
          + unfold is_candidate.
            destruct (String.eqb_spec (_type db) (_type d)) as [Ht|Ht].
            * exfalso. apply Hb. symmetry. apply (Hsole b db); [|done].
              split; [right; left|done].
            * simpl. apply IH; [done|done|]. intros l' d' [Hl' Hd'] Ht'.
              apply (Hsole l' d'); [|done]. split; [|done].
              apply elem_of_cons in Hl' as [->|Hl']; [left|right; by right].
          + apply IH; [done|done|]. intros l' d' [Hl' Hd'] Ht'.
            apply (Hsole l' d'); [|done]. split; [|done].
            apply elem_of_cons in Hl' as [->|Hl']; [left|right; by right].
        - rewrite lookup_insert_ne by done.
          apply elem_of_cons in Hin as [?|Hin]; [done|].
          destruct (heap w !! a) as [da|] eqn:Hda.
          + unfold is_candidate.
            destruct (String.eqb_spec (_type da) (_type d)) as [Ht|Ht].
            * exfalso. apply Hne. symmetry. apply (Hsole a da); [|done].
              split; [left|done].
            * simpl. apply IH; [done|]. intros l' d' [Hl' Hd'] Ht'.
              apply (Hsole l' d'); [|done]. split; [by right|done].
          + apply IH; [done|]. intros l' d' [Hl' Hd'] Ht'.
            apply (Hsole l' d'); [|done]. split; [by right|done]. }
      pose proof (GetPlatform_leased (_type d) s u 0 w1 platform
                    (Device.Enable true d) leased) as H.
      rewrite Hcand in H. specialize (H eq_refl).
      eexists _, _. apply H.
      * subst w1. simpl. by rewrite lookup_insert_eq.
      * done.
Qed.

Lemma Example_s2_reachable : reachable Example.s2.
Proof.
  do 2 apply reachable_serve.
  change Example.s0 with (register (Example.due "D1") empty_world).
  apply reachable_register. constructor.
Qed.

Lemma EnablePlatform_orthogonal_witness :
  EnablePlatform "D1" false Example.s2 =
    (true,
     set_heap (<[1%positive :=
                  Device.Enable false (Device.take "alice" (Example.due "D1"))]>
                 (heap Example.s2)) Example.s2) ∧
  let w' := run [DeviceRelease "due" "D1"]
              (EnablePlatform "D1" false Example.s2).2 in
  GetPlatform "due" Example.X "bob" 0 w' = (Return None, w').
Proof.
  pose proof (EnablePlatform_orthogonal "D1" Example.s2
                (reachable_wf _ Example_s2_reachable)) as (Hen & _ & Hsole).
  assert (registered Example.s2 1%positive
            (Device.take "alice" (Example.due "D1"))) as Hreg.
  { split; [|reflexivity]. vm_compute. left. }
  split.
  - apply (Hen false 1%positive _ Hreg). reflexivity.
  - apply (Hsole "due"%string 1%positive _ Hreg); [reflexivity|reflexivity| |].
    + intros l' d' [Hl' _] _. vm_compute in Hl'.
      apply elem_of_cons in Hl' as [->|Hl']; [done|inversion Hl'].
    + repeat constructor. discriminate.
Defined.

(** ** Registration *)

Lemma add_table_devices data w :
  add_table data w = foldl (fun w d => register d w) w (table_devices data).
Proof.
  unfold add_table, table_devices. revert w.
  induction data as [|entry data IH]; intros w; simpl; [done|].
  rewrite foldl_app, <- IH. f_equal.
  generalize (instances entry.2). intros items. revert w.
  induction items as [|item items IHi]; intros w; simpl; [done|].
  by rewrite IHi.
Qed.

Lemma AddPlatform_present device d w :
  heap w !! device = Some d →
  _serial_number d ∈ _serial_numbers (PLATFORMS w) →
  AddPlatform device w = w.
Proof.
  intros Hd Hin. unfold AddPlatform, Device.GetSerialNumber. rewrite Hd.
  by destruct (decide _).
Qed.

Lemma register_unfold d w :
  register d w =
  AddPlatform (fresh (dom (heap w)))
    (set_heap (<[fresh (dom (heap w)) := d]> (heap w)) w).
Proof. done. Qed.

Lemma register_present d w :
  wf w → _serial_number d ∈ _serial_numbers (PLATFORMS w) →
  PLATFORMS (register d w) = PLATFORMS w ∧
  records (register d w) = records w ∧
  heap (register d w) = <[fresh (dom (heap w)) := d]> (heap w).
Proof.
  intros Hwf Hin. rewrite register_unfold.
  rewrite (AddPlatform_present _ d); [|by simpl; rewrite lookup_insert_eq|done].
  split; [done|]. split; [|done]. apply records_ext; [done|].
  intros l Hl. simpl. rewrite lookup_insert_ne; [done|].
  intros <-. by eapply fresh_not_registered.
Qed.

Lemma register_serial_numbers d w :
  _serial_numbers (PLATFORMS (register d w)) =
  _serial_numbers (PLATFORMS w) ∪ {[_serial_number d]}.
Proof.
  rewrite register_unfold. unfold AddPlatform, Device.GetSerialNumber. simpl.
  rewrite lookup_insert_eq. destruct (decide _) as [Hin|Hnin]; simpl; [|done].
  apply set_eq. intros x. rewrite elem_of_union, elem_of_singleton.
  split; [auto|]. by intros [?| ->].
Qed.

Lemma foldl_register_serial_numbers ds w sn :
  sn ∈ _serial_numbers (PLATFORMS (foldl (fun w d => register d w) w ds)) ↔
  sn ∈ _serial_numbers (PLATFORMS w) ∨ sn ∈ _serial_number <$> ds.
Proof.
  revert w. induction ds as [|d ds IH]; intros w; simpl.
  - split; [auto|]. intros [?|H]; [done|inversion H].
  - rewrite IH, register_serial_numbers, elem_of_union, elem_of_singleton.
    rewrite elem_of_cons. tauto.
Qed.

Lemma wf_foldl_register ds w :
  wf w → wf (foldl (fun w d => register d w) w ds).
Proof.
  revert w. induction ds as [|d ds IH]; intros w Hwf; simpl; [done|].
  by apply IH, wf_register.
Qed.

Lemma foldl_register_present ds w :
  wf w →
  (∀ d, d ∈ ds → _serial_number d ∈ _serial_numbers (PLATFORMS w)) →
  PLATFORMS (foldl (fun w d => register d w) w ds) = PLATFORMS w ∧
  records (foldl (fun w d => register d w) w ds) = records w.
Proof.
  revert w. induction ds as [|d ds IH]; intros w Hwf Hin; simpl; [done|].
  destruct (register_present d w Hwf) as (HP & Hr & _); [apply Hin; left|].
  destruct (IH (register d w)) as [HP' Hr'].
  - by apply wf_register.
  - intros d' Hd'. rewrite HP. apply Hin. by right.
  - split; congruence.
Qed.

(** C9. [AddPlatform] of a device whose serial number a registered record
    already has returns without touching the registry: the state is the
    same state.  So loading a device table a second time, which creates
    new objects for the same serial numbers, leaves [PLATFORMS] (device
    list, serial set, sessions) and the registered records as the first
    load made them. *)
Theorem AddPlatform_duplicate_noop (w : world) :
  wf w →
  (∀ device d l' d',
     heap w !! device = Some d →
     registered w l' d' → _serial_number d' = _serial_number d →
     AddPlatform device w = w) ∧
  (∀ data,
     PLATFORMS (add_table data (add_table data w)) =
       PLATFORMS (add_table data w) ∧
     records (add_table data (add_table data w)) =
       records (add_table data w)).
Proof.
  intros Hwf. split.
  - intros device d l' d' Hd Hreg Hsn. apply (AddPlatform_present _ d); [done|].
    apply (wf_serial_set _ Hwf), elem_of_serials. eauto.
  - intros data. rewrite !add_table_devices.
    apply foldl_register_present.
    + by apply wf_foldl_register.
    + intros d Hd. apply foldl_register_serial_numbers. right.
      by apply list_elem_of_fmap_2.
Qed.

Lemma AddPlatform_duplicate_noop_witness :
  AddPlatform 1%positive Example.w0 = Example.w0 ∧
  records (add_table Example.table (add_table Example.table empty_world)) =
    [Example.board "S2"; Example.board "S1"].
Proof.
  pose proof (AddPlatform_duplicate_noop Example.w0
                (reachable_wf _ Example_w0_reachable)) as [Hadd _].
  pose proof (AddPlatform_duplicate_noop empty_world wf_empty) as [_ Htwice].
  split.
  - apply (Hadd 1%positive (Example.board "S2") 1%positive (Example.board "S2"));
      [reflexivity| |reflexivity].
    split; [vm_compute; left|reflexivity].
  - destruct (Htwice Example.table) as [_ ->]. reflexivity.
Defined.

(** ** Looking a type up *)

Lemma truthy_true s : truthy s = true ↔ s ≠ ""%string.
Proof. by destruct s. Qed.

Lemma first_platform_no_type w t :
  (∀ l d, registered w l d → _type d ≠ t) →
  first_platform (has_type t) (heap w) (_platforms (PLATFORMS w)) = None.
Proof.
  intros H. apply first_platform_None. intros l d Hl Hd.
  apply has_type_false, (H l d). by split.
Qed.

(** Writing to an object that is not registered does not change the
    registered records. *)
Lemma records_insert_unregistered w c x :
  c ∉ _platforms (PLATFORMS w) →
  records (set_heap (<[c := x]> (heap w)) w) = records w.
Proof.
  intros Hc. apply records_ext; [done|]. intros l Hl. simpl.
  rewrite lookup_insert_ne; [done|]. by intros <-.
Qed.

(** C10. [GetDeviceWithType(type)] returns [None], and leaves the state
    alone, when no registered record has that type; otherwise it returns a
    new object whose contents are those of the first record of that type in
    registration order, whether that record is taken or disabled or not,
    and later writes to the returned object do not reach the registry.  The
    handler [RPCGetDeviceTypeInfo] calls [GetVID] on the result, so for a
    type that no record has it raises [AttributeError]. *)
Theorem GetDeviceWithType_first_or_None (device_type : string) (w : world) :
  ((∀ l d, registered w l d → _type d ≠ device_type) →
   GetDeviceWithType device_type w = (None, w) ∧
   (device_type ≠ ""%string →
    RPCGetDeviceTypeInfo device_type w = (Raise AttributeError, w))) ∧
  (∀ i platform d,
     first_at (has_type device_type) (heap w) (_platforms (PLATFORMS w))
       i platform d →
     let c := fresh (dom (heap w)) in
     let w' := set_heap (<[c := d]> (heap w)) w in
     GetDeviceWithType device_type w = (Some c, w') ∧
     heap w !! c = None ∧
     (wf w → ∀ x, records (set_heap (<[c := x]> (heap w')) w') = records w) ∧
     (device_type ≠ ""%string →
      RPCGetDeviceTypeInfo device_type w =
        (Return {| serial_number := ""; vid := _vid_hex d; pid := _pid_hex d |},
         w'))).
Proof.
  split.
  - intros Hnone.
    assert (GetDeviceWithType device_type w = (None, w)) as E.
    { unfold GetDeviceWithType. by rewrite first_platform_no_type. }
    split; [done|]. intros Ht. unfold RPCGetDeviceTypeInfo.
    apply truthy_true in Ht. rewrite Ht, E. done.
  - intros i platform d Hfirst c w'.
    assert (GetDeviceWithType device_type w = (Some c, w')) as E.
    { unfold GetDeviceWithType, copy_object.
      rewrite (first_at_platform _ _ _ _ _ _ Hfirst).
      destruct Hfirst as (_ & -> & _). done. }
    assert (heap w !! c = None) as Hc.
    { apply not_elem_of_dom, is_fresh. }
    split; [done|]. split; [done|]. split.
    + intros Hwf x. subst w'. unfold set_heap at 1 2. simpl.
      rewrite insert_insert_eq.
      apply (records_insert_unregistered w c x).
      intros Hin. apply (wf_alive _ Hwf) in Hin. rewrite Hc in Hin.
      by destruct Hin.
    + intros Ht. unfold RPCGetDeviceTypeInfo.
      apply truthy_true in Ht. rewrite Ht, E. simpl.
      subst w'. simpl. by rewrite lookup_insert_eq.
Qed.

Lemma GetDeviceWithType_first_or_None_witness :
  RPCGetDeviceTypeInfo "spresense" Example.w2 =
    (Raise AttributeError, Example.w2) ∧
  (GetDeviceWithType "nucleo_f746zg" Example.w2).1 = Some 4%positive ∧
  (RPCGetDeviceTypeInfo "nucleo_f746zg" Example.w2).1 =
    Return {| serial_number := ""; vid := Some "0483"%string;
              pid := Some "374b"%string |}.
Proof.
  pose proof (GetDeviceWithType_first_or_None "spresense" Example.w2)
    as [Hnone _].
  pose proof (GetDeviceWithType_first_or_None "nucleo_f746zg" Example.w2)
    as [_ Hfirst].
  split; [|split].
  - apply Hnone; [|discriminate].
    intros l d [Hl Hd]. vm_compute in Hl.
    repeat (apply elem_of_cons in Hl as [->|Hl];
            [vm_compute in Hd; injection Hd as <-; discriminate|]).
    inversion Hl.
  - destruct (Hfirst 0%nat 1%positive (Example.board "S2")) as (-> & _).
    + repeat split. intros j l' d' Hj. lia.
    + reflexivity.
  - destruct (Hfirst 0%nat 1%positive (Example.board "S2")) as (_ & _ & _ & ->).
    + repeat split. intros j l' d' Hj. lia.
    + reflexivity.
    + discriminate.
Defined.

(** ** Allocation *)

Lemma is_candidate_true type d :
  is_candidate type d = true ↔
  _type d = type ∧ _is_taken d = false ∧ _enabled d = true.
Proof.
  unfold is_candidate. rewrite !andb_true_iff, negb_true_iff, String.eqb_eq.
  tauto.
Qed.

Lemma RPCDeviceRequest_GetPlatform type s u n w :
  type ≠ ""%string → s ≠ ""%string → u ≠ ""%string →
  RPCDeviceRequest type s u n w =
  match GetPlatform type s u n w with
  | (Return (Some micro_device), w') =>
      match heap w' !! micro_device with
      | Some d =>
          (Return {| serial_number := Device.GetSerialNumber d;
                     vid := Device.GetVID d; pid := Device.GetPID d |}, w')
      | None => (Raise AttributeError, w')
      end
  | (Return None, w') =>
      (Return {| serial_number := ""; vid := None; pid := None |}, w')
  | (Raise e, w') => (Raise e, w')
  end.
Proof.
  intros Ht Hs Hu. unfold RPCDeviceRequest.
  apply truthy_true in Ht, Hs, Hu. by rewrite Ht, Hs, Hu.
Qed.

(** C2. [GetPlatform(type, session, user)] chooses among the registered
    records of that type that are not taken and are enabled, and among
    nothing else.  The choice is [candidate_platforms[random_num]] for a
    [random_num] that [random.randint] draws uniformly from the indices of
    the candidates: every index yields a lease and every candidate is the
    choice of exactly one index, so no candidate is preferred.  A call that
    returns a device has marked exactly the chosen record as taken by
    [user], appended its serial number to the list of the session, and
    returns a new object that carries the record's serial number, VID and
    PID; writes to that object do not reach the registry, and the reply of
    [RPCDeviceRequest] holds the three strings.  Without a candidate the
    call returns [None] (the reply has an empty serial number) and the
    state is unchanged. *)
Theorem GetPlatform_allocates (type s u : string) (w : world) :
  wf w →
  ((∀ l d, registered w l d → is_candidate type d = false) →
   ∀ n, GetPlatform type s u n w = (Return None, w) ∧
        (type ≠ ""%string → s ≠ ""%string → u ≠ ""%string →
         RPCDeviceRequest type s u n w =
           (Return {| serial_number := ""; vid := None; pid := None |}, w))) ∧
  (∀ n c w',
     GetPlatform type s u n w = (Return (Some c), w') →
     ∃ platform d leased,
       registered w platform d ∧
       _type d = type ∧ _is_taken d = false ∧ _enabled d = true ∧
       candidate_platforms type w !! n = Some platform ∧
       _sessions (PLATFORMS w) !! s = Some leased ∧
       w' = leased_world w platform d s u leased c ∧
       _is_taken (Device.take u d) = true ∧
       _user (Device.take u d) = Some u ∧
       heap w !! c = None ∧ (c ∉ _platforms (PLATFORMS w)) ∧
       (∀ x, records (set_heap (<[c := x]> (heap w')) w') = records w') ∧
       (type ≠ ""%string → s ≠ ""%string → u ≠ ""%string →
        RPCDeviceRequest type s u n w =
          (Return {| serial_number := _serial_number d;
                     vid := _vid_hex d; pid := _pid_hex d |}, w'))) ∧
  (∀ leased,
     _sessions (PLATFORMS w) !! s = Some leased →
     (∀ n, (n < length (candidate_platforms type w))%nat →
           ∃ c w', GetPlatform type s u n w = (Return (Some c), w')) ∧
     (∀ platform d,
        registered w platform d → is_candidate type d = true →
        ∃ n, (n < length (candidate_platforms type w))%nat ∧
             candidate_platforms type w !! n = Some platform ∧
             ∀ n', candidate_platforms type w !! n' = Some platform → n' = n)).
Proof.
  intros Hwf. split; [|split].
  - intros Hnone n.
    assert (GetPlatform type s u n w = (Return None, w)) as E
      by by apply GetPlatform_unavailable, candidate_platforms_nil.
    split; [done|]. intros Ht Hs Hu.
    by rewrite RPCDeviceRequest_GetPlatform, E.
  - intros n c w' E.
    destruct (GetPlatform_cases type s u n w)
      as [[_ E']|[[_ E']|(p & d & Hc & Hreg & Hcand &
                          [[Hs E']|(leased & Hs & E')])]];
      simpl in E'; rewrite E' in E; try discriminate.
    injection E as <- <-.
    set (c := fresh (dom (<[p:=Device.take u d]> (heap w)))).
    assert (heap w !! c = None) as Hfresh.
    { apply not_elem_of_dom. intros Hin.
      apply (is_fresh (dom (<[p:=Device.take u d]> (heap w)))).
      by apply dom_insert_subseteq. }
    assert (c ∉ _platforms (PLATFORMS w)) as Hunreg.
    { intros Hin. apply (wf_alive _ Hwf) in Hin. rewrite Hfresh in Hin.
      by destruct Hin. }
    apply is_candidate_true in Hcand as (Ht & Htaken & Hen).
    exists p, d, leased. repeat split; try done; try apply Hreg.
    + intros x. by apply records_insert_unregistered.
    + intros Ht' Hs' Hu'. rewrite RPCDeviceRequest_GetPlatform by done.
      rewrite E'. fold c. unfold leased_world. simpl.
      by rewrite lookup_insert_eq.
  - intros leased Hs. split.
    + intros n Hn. apply lookup_lt_is_Some_2 in Hn as [p Hp].
      assert (p ∈ candidate_platforms type w) as Hin
        by by eapply list_elem_of_lookup_2.
      apply elem_of_candidate_platforms in Hin as (d & [_ Hd] & _).
      eexists _, _. by apply (GetPlatform_leased _ _ _ _ _ p d leased).
    + intros p d Hreg Hcand.
      assert (p ∈ candidate_platforms type w) as Hin
        by (apply elem_of_candidate_platforms; eauto).
      apply list_elem_of_lookup_1 in Hin as [n Hn]. exists n.
      split; [by eapply lookup_lt_Some|]. split; [done|].
      intros n' Hn'.
      eapply NoDup_lookup; [|exact Hn'|exact Hn].
      by apply candidate_platforms_NoDup, wf_NoDup_platforms.
Qed.

Lemma Example_w1_reachable : reachable Example.w1.
Proof. apply reachable_serve, Example_w0_reachable. Qed.

Lemma GetPlatform_allocates_witness :
  GetPlatform "due" Example.X "alice" 0 Example.w1 = (Return None, Example.w1) ∧
  (∃ c w', GetPlatform "nucleo_f746zg" Example.X "alice" 1 Example.w1
           = (Return (Some c), w')) ∧
  RPCDeviceRequest "nucleo_f746zg" Example.X "alice" 1 Example.w1 =
    (Return {| serial_number := "S1"; vid := Some "0483"%string;
               pid := Some "374b"%string |}, Example.w2).
Proof.
  pose proof (GetPlatform_allocates "due" Example.X "alice" Example.w1
                (reachable_wf _ Example_w1_reachable)) as (Hnone & _ & _).
  pose proof (GetPlatform_allocates "nucleo_f746zg" Example.X "alice" Example.w1
                (reachable_wf _ Example_w1_reachable)) as (_ & Hsome & Hdraw).
  split; [|split].
  - apply Hnone. intros l d [Hl Hd]. vm_compute in Hl.
    repeat (apply elem_of_cons in Hl as [->|Hl];
            [vm_compute in Hd; by injection Hd as <-|]).
    inversion Hl.
  - destruct (Hdraw []) as [Hin _]; [reflexivity|].
    apply (Hin 1%nat). vm_compute. lia.
  - assert (GetPlatform "nucleo_f746zg" Example.X "alice" 1 Example.w1
            = (Return (Some 3%positive), Example.w2)) as E by (vm_compute; reflexivity).
    destruct (Hsome 1%nat 3%positive Example.w2 E)
      as (p & d & leased & Hreg & _ & _ & _ & Hc & _ & _ & _ & _ & _ & _ & _ & Hrpc).
    rewrite Hrpc by discriminate.
    vm_compute in Hc. injection Hc as <-.
    destruct Hreg as [_ Hd]. vm_compute in Hd. injection Hd as <-.
    reflexivity.
Defined.

(** ** Session lists *)

Lemma ReleasePlatform_PLATFORMS serial_number w :
  PLATFORMS (ReleasePlatform serial_number w).2 = PLATFORMS w.
Proof.
  unfold ReleasePlatform. by destruct (first_platform _ _ _).
Qed.

(** A serial number that is listed after a request was listed before it,
    or the request was a [RPCDeviceRequest] for that session that has just
    marked the record with that serial number. *)
Lemma serve_listed r w s sn :
  wf w → listed (serve r w) s sn →
  listed w s sn ∨
  ∃ t u n p d,
    r = DeviceRequest t s u n ∧ registered w p d ∧ _serial_number d = sn ∧
    registered (serve r w) p (Device.take u d).
Proof.
  intros Hwf.
  destruct r as [draw|s0|t s0 u n|t sn0| |sn0|sn0|t]; simpl.
  - intros (lst & Hlst & Hsn). simpl in Hlst. left.
    destruct (decide (sess_num draw = s)) as [<-|Hne].
    + rewrite lookup_insert_eq in Hlst. injection Hlst as <-. inversion Hsn.
    + rewrite lookup_insert_ne in Hlst by done. by exists lst.
  - unfold RPCSessionClose. destruct (negb (truthy s0)); [auto|].
    destruct (_sessions (PLATFORMS w) !! s0) as [lst|]; simpl; [|auto].
    destruct (release_all_frame lst w) as (HP & _). unfold listed.
    rewrite HP. auto.
  - unfold RPCDeviceRequest.
    destruct (negb (truthy t)); [auto|]. destruct (negb (truthy s0)); [auto|].
    destruct (negb (truthy u)); [auto|].
    destruct (GetPlatform_cases t s0 u n w)
      as [[_ E]|[[_ E]|(p & dp & Hc & [Hin Hdp] & Hcand &
                        [[Hs E]|(leased & Hs & E)])]];
      simpl in E; rewrite E; simpl; auto.
    unfold leased_world. simpl. rewrite lookup_insert_eq. simpl.
    intros (lst & Hlst & Hsn). simpl in Hlst.
    destruct (decide (s0 = s)) as [->|Hne].
    + rewrite lookup_insert_eq in Hlst. injection Hlst as <-.
      apply elem_of_app in Hsn as [Hsn|Hsn]; [left; by exists leased|].
      apply list_elem_of_singleton in Hsn as ->. right.
      exists t, u, n, p, dp. repeat split; try done. simpl.
      rewrite lookup_insert_ne, lookup_insert_eq; [done|].
      intros Heq. apply (wf_alive _ Hwf) in Hin. apply elem_of_dom in Hin.
      apply (is_fresh (dom (<[p:=Device.take u dp]> (heap w)))).
      rewrite Heq. by apply dom_insert_subseteq.
    + rewrite lookup_insert_ne in Hlst by done. left. by exists lst.
  - unfold RPCDeviceRelease.
    destruct (negb (truthy t)); [auto|]. destruct (negb (truthy sn0)); [auto|].
    simpl. unfold listed. rewrite ReleasePlatform_PLATFORMS. auto.
  - auto.
  - unfold RPCDeviceRequestEnable, EnablePlatform.
    destruct (first_platform _ _ _); simpl; auto.
  - unfold RPCDeviceRequestDisable, EnablePlatform.
    destruct (first_platform _ _ _); simpl; auto.
  - unfold RPCGetDeviceTypeInfo. destruct (negb (truthy t)); [auto|].
    unfold GetDeviceWithType, copy_object.
    destruct (first_platform _ _ _) as [p|]; simpl; [|auto].
    destruct (heap w !! p); simpl; [|auto].
    rewrite lookup_insert_eq. simpl. auto.
Qed.

(** Registering keeps what was registered. *)
Lemma register_registered d0 w l d :
  wf w → registered w l d → registered (register d0 w) l d.
Proof.
  intros Hwf [Hl Hd]. rewrite register_unfold.
  assert (fresh (dom (heap w)) ≠ l) as Hne
    by (intros <-; by eapply fresh_not_registered).
  unfold AddPlatform. simpl. rewrite lookup_insert_eq.
  destruct (decide _); split; simpl; try by rewrite lookup_insert_ne.
  - done.
  - apply elem_of_app. by left.
Qed.

Lemma register_sessions d w :
  _sessions (PLATFORMS (register d w)) = _sessions (PLATFORMS w).
Proof.
  rewrite register_unfold. unfold AddPlatform. simpl. rewrite lookup_insert_eq.
  by destruct (decide _).
Qed.

Lemma wf_listed_unique w s sn :
  wf w → listed w s sn →
  ∃ l d, registered w l d ∧ _serial_number d = sn ∧
         ∀ l' d', registered w l' d' → _serial_number d' = sn → l' = l.
Proof.
  intros Hwf Hlisted.
  apply (wf_listed _ Hwf), (wf_serial_set _ Hwf), elem_of_serials in Hlisted
    as (l & d & Hreg & Hsn).
  exists l, d. split; [done|]. split; [done|]. intros l' d' Hreg' Hsn'.
  apply (wf_registered_inj w l' l d' d); congruence.
Qed.

Lemma leases_kept_without_release w :
  reachable_by (fun e => ¬ releases e) w →
  ∀ s sn, listed w s sn →
    ∃ l d, registered w l d ∧ _serial_number d = sn ∧
           _is_taken d = true ∧ is_Some (_user d).
Proof.
  induction 1 as [|e w He Hreach IH].
  { intros s sn (lst & Hlst & _). simpl in Hlst. by rewrite lookup_empty in Hlst. }
  pose proof (reachable_by_wf _ _ Hreach) as Hwf.
  intros s sn Hlisted. destruct e as [d0|r]; simpl in *.
  - assert (listed w s sn) as Hold.
    { unfold listed in *. by rewrite register_sessions in Hlisted. }
    destruct (IH s sn Hold) as (l & d & Hreg & Hrest).
    exists l, d. split; [by apply register_registered|done].
  - destruct (serve_listed r w s sn Hwf Hlisted)
      as [Hold|(t & u & n & p & d & -> & Hreg & Hsn & Hreg')].
    + destruct (IH s sn Hold) as (l & d & Hreg & Hsn & Htaken & Huser).
      destruct (serve_frame r w Hwf) as (_ & _ & Hf).
      destruct (Hf l d Hreg) as (d' & Hreg' & Hty & Hsn' & _ & _ & _ & Hlease).
      exists l, d'. split; [done|]. split; [congruence|].
      destruct r; try (destruct Hlease as [-> ->]; done); try (by destruct He).
      destruct Hlease as [->|[Hfree _]]; [done|by rewrite Htaken in Hfree].
    + exists p, (Device.take u d). split; [done|]. split; [done|].
      split; [done|]. by eexists.
Qed.


Lemma Example_w2_without_release :
  reachable_by (fun e => ¬ releases e) Example.w2.
Proof.
  unfold Example.w2, Example.w1.
  apply (reachable_step _ (Serve (DeviceRequest _ _ _ _))); [by intros []|].
  apply (reachable_step _ (Serve (SessionRequest _))); [by intros []|].
  change Example.w0 with
    (step (Register (Example.board "S1"))
       (step (Register (Example.board "S2")) empty_world)).
  apply reachable_step; [by intros []|].
  apply reachable_step; [by intros []|]. constructor.
Qed.

Lemma Example_w2_listed : listed Example.w2 Example.X "S1".
Proof. exists ["S1"%string]. split; [reflexivity|left]. Qed.



(** ** Closing a session *)

Lemma ReleasePlatform_lookup sn w l :
  heap (ReleasePlatform sn w).2 !! l =
  if bool_decide (first_platform (has_serial sn) (heap w)
                    (_platforms (PLATFORMS w)) = Some l)
  then Device.Free <$> heap w !! l else heap w !! l.
Proof.
  unfold ReleasePlatform. destruct (first_platform _ _ _) as [p|]; simpl.
  - case_bool_decide as Hp.
    + injection Hp as ->. by rewrite lookup_alter_eq.
    + rewrite lookup_alter_ne; [done|]. by intros ->.
  - first [done | by case_bool_decide].
Qed.

Lemma first_platform_ReleasePlatform P sn w :
  (∀ d, P (Device.Free d) = P d) →
  first_platform P (heap (ReleasePlatform sn w).2) (_platforms (PLATFORMS w)) =
  first_platform P (heap w) (_platforms (PLATFORMS w)).
Proof.
  intros HP. unfold ReleasePlatform.
  destruct (first_platform (has_serial sn) _ _); simpl; [|done].
  by apply first_platform_alter.
Qed.

Lemma first_platform_release_all P serials w :
  (∀ d, P (Device.Free d) = P d) →
  first_platform P (heap (release_all serials w)) (_platforms (PLATFORMS w)) =
  first_platform P (heap w) (_platforms (PLATFORMS w)).
Proof.
  intros HP. revert w. induction serials as [|sn sns IH]; intros w; simpl; [done|].
  rewrite <- (ReleasePlatform_PLATFORMS sn w), IH, ReleasePlatform_PLATFORMS.
  by apply first_platform_ReleasePlatform.
Qed.

Lemma released_ReleasePlatform serials sn w l :
  released serials (heap (ReleasePlatform sn w).2) (_platforms (PLATFORMS w)) l =
  released serials (heap w) (_platforms (PLATFORMS w)) l.
Proof.
  unfold released. induction serials as [|sn' sns IH]; simpl; [done|].
  by rewrite IH, first_platform_ReleasePlatform.
Qed.

Lemma Free_Free (o : option MicroDevice) :
  Device.Free <$> (Device.Free <$> o) = Device.Free <$> o.
Proof. by destruct o. Qed.

(** The store after the loop of [RPCSessionClose]. *)
Lemma release_all_lookup serials w l :
  heap (release_all serials w) !! l =
  if released serials (heap w) (_platforms (PLATFORMS w)) l
  then Device.Free <$> heap w !! l else heap w !! l.
Proof.
  revert w. induction serials as [|sn sns IH]; intros w; simpl; [done|].
  rewrite IH, ReleasePlatform_PLATFORMS, released_ReleasePlatform.
  rewrite ReleasePlatform_lookup.
  case_bool_decide; simpl; destruct (released sns _ _ l); try done.
  apply Free_Free.
Qed.

Lemma released_release_all serials serials' w l :
  released serials (heap (release_all serials' w)) (_platforms (PLATFORMS w)) l =
  released serials (heap w) (_platforms (PLATFORMS w)) l.
Proof.
  unfold released. induction serials as [|sn sns IH]; simpl; [done|].
  by rewrite IH, first_platform_release_all.
Qed.

Lemma release_all_twice serials w :
  release_all serials (release_all serials w) = release_all serials w.
Proof.
  destruct (release_all_frame serials w) as (HP & _).
  destruct (release_all_frame serials (release_all serials w)) as (HP' & _).
  assert (heap (release_all serials (release_all serials w)) =
          heap (release_all serials w)) as Hh.
  { apply map_eq. intros l. rewrite release_all_lookup, HP.
    rewrite released_release_all, release_all_lookup.
    destruct (released _ _ _ l); [apply Free_Free|done]. }
  destruct (release_all serials (release_all serials w)) as [h P].
  destruct (release_all serials w) as [h' P']. simpl in *. congruence.
Qed.

Lemma released_registered w serials l d :
  wf w → registered w l d →
  released serials (heap w) (_platforms (PLATFORMS w)) l = true ↔
  _serial_number d ∈ serials.
Proof.
  intros Hwf Hreg. unfold released. rewrite existsb_exists. split.
  - intros (sn & Hin & Hp). apply bool_decide_eq_true in Hp.
    apply first_platform_Some in Hp as (i & d' & _ & Hd' & HP & _).
    destruct Hreg as [_ Hd]. assert (d' = d) as -> by congruence.
    apply has_serial_true in HP as ->. by apply list_elem_of_In.
  - intros Hin. exists (_serial_number d). split; [by apply list_elem_of_In|].
    apply bool_decide_eq_true. by apply first_platform_serial.
Qed.

(** C3, as the code has it.  [RPCSessionClose] of an open session calls
    [ReleasePlatform] for every serial number in the session's list, in
    order, and returns the closing message: the records with these serial
    numbers are freed and the others are as they were.  The session is not
    discarded: its entry and its list stay in [_sessions].  A second close
    right after the first raises nothing and changes nothing. *)
Theorem RPCSessionClose_releases_and_keeps (session_number : string)
    (serials : list string) (w : world) :
  wf w → session_number ≠ ""%string →
  _sessions (PLATFORMS w) !! session_number = Some serials →
  let closed := {| Server.session_number := session_number;
                   task := "session_closed" |} in
  let w' := release_all serials w in
  RPCSessionClose session_number w = (Return closed, w') ∧
  PLATFORMS w' = PLATFORMS w ∧
  _sessions (PLATFORMS w') !! session_number = Some serials ∧
  (∀ l d, registered w l d → _serial_number d ∈ serials →
          registered w' l (Device.Free d)) ∧
  (∀ l d, registered w l d → _serial_number d ∉ serials → registered w' l d) ∧
  RPCSessionClose session_number w' = (Return closed, w').
Proof.
  intros Hwf Hs Hopen closed w'.
  destruct (release_all_frame serials w) as (HP & _).
  assert (RPCSessionClose session_number w = (Return closed, w')) as E.
  { unfold RPCSessionClose. apply truthy_true in Hs. by rewrite Hs, Hopen. }
  split; [done|]. split; [done|]. split; [by subst w'; rewrite HP|].
  split; [|split].
  - intros l d Hreg Hin. split; [subst w'; rewrite HP; apply Hreg|].
    subst w'. rewrite release_all_lookup.
    rewrite (proj2 (released_registered w serials l d Hwf Hreg) Hin).
    destruct Hreg as [_ ->]. done.
  - intros l d Hreg Hnin. split; [subst w'; rewrite HP; apply Hreg|].
    subst w'. rewrite release_all_lookup.
    destruct (released serials _ _ l) eqn:Hrel.
    + by apply (released_registered w serials l d Hwf Hreg) in Hrel.
    + apply Hreg.
  - unfold RPCSessionClose. apply truthy_true in Hs. rewrite Hs. simpl.
    subst w'. rewrite HP, Hopen. by rewrite release_all_twice.
Qed.

Lemma RPCSessionClose_releases_and_keeps_witness :
  RPCSessionClose Example.X Example.w2 =
    (Return {| Server.session_number := Example.X; task := "session_closed" |},
     Example.w4) ∧
  registered Example.w4 2%positive (Example.board "S1") ∧
  RPCSessionClose Example.X Example.w4 =
    (Return {| Server.session_number := Example.X; task := "session_closed" |},
     Example.w4).
Proof.
  destruct (RPCSessionClose_releases_and_keeps Example.X ["S1"%string] Example.w2)
    as (Hclose & _ & _ & Hfreed & _ & Hagain).
  - apply reachable_wf, Example_w2_reachable.
  - discriminate.
  - reflexivity.
  - split; [exact Hclose|]. split; [|exact Hagain].
    apply (Hfreed 2%positive (Device.take "alice" (Example.board "S1"))).
    + split; [vm_compute; right; left|reflexivity].
    + left.
Defined.

(** C3 as stated does not hold.  After [RPCSessionClose] for [X] the table
    still has the entry of [X] with S1 in it.  When [bob] is then given S1
    under session [Y] and [X] is closed once more, S1 is released a second
    time: [bob]'s record is freed while S1 is in the list of [Y]. *)
Lemma close_keeps_session_and_releases_again :
  (RPCSessionClose Example.X Example.w2).1 =
    Return {| Server.session_number := Example.X; task := "session_closed" |} ∧
  _sessions (PLATFORMS (RPCSessionClose Example.X Example.w2).2) !! Example.X =
    Some ["S1"%string] ∧
  heap Example.w6 !! 2%positive = Some (Device.take "bob" (Example.board "S1")) ∧
  _sessions (PLATFORMS Example.w6) !! Example.Y = Some ["S1"%string] ∧
  (RPCSessionClose Example.X Example.w6).1 =
    Return {| Server.session_number := Example.X; task := "session_closed" |} ∧
  heap (RPCSessionClose Example.X Example.w6).2 !! 2%positive =
    Some (Example.board "S1") ∧
  _sessions (PLATFORMS (RPCSessionClose Example.X Example.w6).2) !! Example.Y =
    Some ["S1"%string].
Proof. repeat split; vm_compute; reflexivity. Qed.

(** ** Opening a session *)

Lemma pretty_digit (n : nat) :
  (n ≤ 9)%nat → ∃ c, pretty n = String c "" ∧ is_digit c = true.
Proof.
  intros Hn.
  do 10 (destruct n as [|n]; [eexists; split; vm_compute; reflexivity|]).
  lia.
Qed.

Lemma sess_num_digits draw :
  (∀ num, (num < SESSION_NUM_MAX_LEN)%nat → (draw num ≤ 9)%nat) →
  String.length (sess_num draw) = SESSION_NUM_MAX_LEN ∧
  all_digits (sess_num draw) = true.
Proof.
  intros H. unfold sess_num, SESSION_NUM_MAX_LEN in *.
  cbn [seq fmap list_fmap].
  destruct (pretty_digit (draw 0%nat)) as (c0 & -> & H0); [apply H; lia|].
  destruct (pretty_digit (draw 1%nat)) as (c1 & -> & H1); [apply H; lia|].
  destruct (pretty_digit (draw 2%nat)) as (c2 & -> & H2); [apply H; lia|].
  destruct (pretty_digit (draw 3%nat)) as (c3 & -> & H3); [apply H; lia|].
  destruct (pretty_digit (draw 4%nat)) as (c4 & -> & H4); [apply H; lia|].
  destruct (pretty_digit (draw 5%nat)) as (c5 & -> & H5); [apply H; lia|].
  destruct (pretty_digit (draw 6%nat)) as (c6 & -> & H6); [apply H; lia|].
  destruct (pretty_digit (draw 7%nat)) as (c7 & -> & H7); [apply H; lia|].
  destruct (pretty_digit (draw 8%nat)) as (c8 & -> & H8); [apply H; lia|].
  destruct (pretty_digit (draw 9%nat)) as (c9 & -> & H9); [apply H; lia|].
  split; [reflexivity|]. cbn -[is_digit]. unfold String.append. cbn -[is_digit].
  by rewrite H0, H1, H2, H3, H4, H5, H6, H7, H8, H9.
Qed.

(** C4, as the code has it.  [RPCSessionRequest] returns the number it
    drew, ten decimal digits, and binds it to an empty list whatever was
    there: the sessions with another number keep their lists, and the
    store, the device list and the serial set are untouched.  There is no
    check for a session that already has the drawn number. *)
Theorem RPCSessionRequest_binds_empty_list (draw : nat → nat) (w : world) :
  let w' := (RPCSessionRequest draw w).2 in
  (RPCSessionRequest draw w).1 =
    Return {| Server.session_number := sess_num draw; task := "" |} ∧
  _sessions (PLATFORMS w') !! sess_num draw = Some [] ∧
  (∀ s, s ≠ sess_num draw →
        _sessions (PLATFORMS w') !! s = _sessions (PLATFORMS w) !! s) ∧
  heap w' = heap w ∧
  _platforms (PLATFORMS w') = _platforms (PLATFORMS w) ∧
  _serial_numbers (PLATFORMS w') = _serial_numbers (PLATFORMS w) ∧
  ((∀ num, (num < SESSION_NUM_MAX_LEN)%nat → (draw num ≤ 9)%nat) →
   String.length (sess_num draw) = SESSION_NUM_MAX_LEN ∧
   all_digits (sess_num draw) = true).
Proof.
  intros w'. subst w'. unfold RPCSessionRequest. simpl.
  split; [done|]. split; [by rewrite lookup_insert_eq|].
  split; [by intros s Hs; rewrite lookup_insert_ne|].
  repeat (split; [done|]). apply sess_num_digits.
Qed.

Lemma RPCSessionRequest_binds_empty_list_witness :
  String.length (sess_num (fun num => num mod 10)%nat) = 10%nat ∧
  all_digits (sess_num (fun num => num mod 10)%nat) = true.
Proof.
  destruct (RPCSessionRequest_binds_empty_list (fun num => num mod 10)%nat
              empty_world) as (_ & _ & _ & _ & _ & _ & Hdigits).
  apply Hdigits. intros num Hnum.
  pose proof (Nat.mod_upper_bound num 10). lia.
Defined.

(** C4 as stated does not hold.  Session [X] holds S1 for [alice]; a new
    session whose ten draws are all 0 gets the number of [X], and the list
    of [X] is replaced by the empty list, while the record of S1 stays
    taken. *)
Lemma session_request_overwrites_open_session :
  _sessions (PLATFORMS Example.w2) !! Example.X = Some ["S1"%string] ∧
  (RPCSessionRequest (fun _ => 0%nat) Example.w2).1 =
    Return {| Server.session_number := Example.X; task := "" |} ∧
  _sessions (PLATFORMS (RPCSessionRequest (fun _ => 0%nat) Example.w2).2)
    !! Example.X = Some [] ∧
  heap (RPCSessionRequest (fun _ => 0%nat) Example.w2).2 !! 2%positive =
    Some (Device.take "alice" (Example.board "S1")).
Proof. repeat split; vm_compute; reflexivity. Qed.

(** ** A request for a session that is not open *)

(** C5, what the code does.  When the session number is not in
    [_sessions] and a candidate exists, [GetPlatform] has already marked
    the chosen record as taken by the user when
    [self._sessions[session_number]] raises [KeyError]: the call fails and
    the record stays taken, in no session's list. *)
Theorem GetPlatform_unknown_session_keeps_mark (type s u : string) (n : nat)
    (w : world) (platform : loc) (d : MicroDevice) :
  candidate_platforms type w !! n = Some platform →
  heap w !! platform = Some d →
  _sessions (PLATFORMS w) !! s = None →
  let w' := set_heap (<[platform := Device.take u d]> (heap w)) w in
  GetPlatform type s u n w = (Raise (KeyError s), w') ∧
  heap w' !! platform = Some (Device.take u d) ∧
  _is_taken (Device.take u d) = true ∧
  _user (Device.take u d) = Some u ∧
  _sessions (PLATFORMS w') = _sessions (PLATFORMS w) ∧
  (_is_taken d = false → w' ≠ w) ∧
  (type ≠ ""%string → s ≠ ""%string → u ≠ ""%string →
   RPCDeviceRequest type s u n w = (Raise (KeyError s), w')).
Proof.
  intros Hc Hd Hs w'.
  assert (GetPlatform type s u n w = (Raise (KeyError s), w')) as E
    by by apply GetPlatform_unknown_session.
  split; [done|]. split; [by subst w'; simpl; rewrite lookup_insert_eq|].
  repeat (split; [done|]). split.
  - intros Hfree Heq. assert (heap w' !! platform = heap w !! platform) as H
      by by rewrite Heq.
    subst w'. simpl in H. rewrite lookup_insert_eq, Hd in H.
    injection H as H. by rewrite <- H in Hfree.
  - intros Ht Hs' Hu. by rewrite RPCDeviceRequest_GetPlatform, E.
Qed.

Lemma GetPlatform_unknown_session_keeps_mark_witness :
  RPCDeviceRequest "nucleo_f746zg" "4242424242" "bob" 0 Example.w0 =
    (Raise (KeyError "4242424242"),
     set_heap (<[1%positive := Device.take "bob" (Example.board "S2")]>
                 (heap Example.w0)) Example.w0) ∧
  records (RPCDeviceRequest "nucleo_f746zg" "4242424242" "bob" 0 Example.w0).2 =
    [Device.take "bob" (Example.board "S2"); Example.board "S1"].
Proof.
  destruct (GetPlatform_unknown_session_keeps_mark "nucleo_f746zg" "4242424242"
              "bob" 0 Example.w0 1%positive (Example.board "S2"))
    as (_ & _ & _ & _ & _ & _ & Hrpc); [reflexivity..|].
  rewrite Hrpc by discriminate. split; reflexivity.
Defined.

(** ** The order of Python strings *)

Lemma ascii_compare_Lt a b :
  Ascii.compare a b = Lt ↔ (N_of_ascii a < N_of_ascii b)%N.
Proof. unfold Ascii.compare. apply N.compare_lt_iff. Qed.

Lemma ascii_compare_Eq a b : Ascii.compare a b = Eq ↔ a = b.
Proof.
  split; [apply Ascii.compare_eq_iff|]. intros ->.
  unfold Ascii.compare. apply N.compare_refl.
Qed.

Lemma string_compare_refl s : String.compare s s = Eq.
Proof.
  induction s as [|a s IH]; simpl; [done|].
  by rewrite (proj2 (ascii_compare_Eq a a) eq_refl).
Qed.

Lemma string_compare_Lt_trans a b c :
  String.compare a b = Lt → String.compare b c = Lt → String.compare a c = Lt.
Proof.
  revert b c. induction a as [|x a IH]; intros [|y b] [|z c]; simpl; try done.
  destruct (Ascii.compare x y) eqn:Hxy; try done;
    destruct (Ascii.compare y z) eqn:Hyz; try done; intros Hab Hbc.
  - apply ascii_compare_Eq in Hxy as ->, Hyz as ->.
    rewrite (proj2 (ascii_compare_Eq z z) eq_refl). by apply (IH b c).
  - apply ascii_compare_Eq in Hxy as ->. by rewrite Hyz.
  - apply ascii_compare_Eq in Hyz as <-. by rewrite Hxy.
  - apply ascii_compare_Lt in Hxy. apply ascii_compare_Lt in Hyz.
    assert (Ascii.compare x z = Lt) as ->; [|done].
    apply ascii_compare_Lt. by apply (N.lt_trans _ (N_of_ascii y)).
Qed.

Lemma string_leb_cases a b :
  String.leb a b = true ↔ String.compare a b = Lt ∨ a = b.
Proof.
  unfold String.leb. destruct (String.compare a b) eqn:E; split; try done; auto.
  - intros _. right. by apply String.compare_eq_iff.
  - intros [?| ->]; [done|]. by rewrite string_compare_refl in E.
Qed.

Lemma string_leb_refl a : String.leb a a = true.
Proof. apply string_leb_cases. by right. Qed.

Lemma string_leb_trans a b c :
  String.leb a b = true → String.leb b c = true → String.leb a c = true.
Proof.
  rewrite !string_leb_cases. intros [Hab| ->] [Hbc| ->]; auto.
  left. by apply (string_compare_Lt_trans a b c).
Qed.

Lemma string_leb_false a b : String.leb a b = false → String.leb b a = true.
Proof.
  intros H. destruct (String.leb_total a b) as [H'|H']; [congruence|done].
Qed.

(** ** [sorted] is the stable sort by key *)

Section SortedFacts.
Context {A : Type} (key : A -> string).

Local Abbreviation le := (key_le key).

Lemma insert_sorted_Permutation x l : insert_sorted key x l ≡ₚ x :: l.
Proof.
  induction l as [|y l IH]; simpl; [done|].
  destruct (String.leb (key x) (key y)); [done|].
  by rewrite IH, Permutation_swap.
Qed.

Lemma sorted_Permutation l : sorted key l ≡ₚ l.
Proof.
  induction l as [|x l IH]; simpl; [done|].
  by rewrite insert_sorted_Permutation, IH.
Qed.

Lemma insert_sorted_StronglySorted x l :
  StronglySorted le l → StronglySorted le (insert_sorted key x l).
Proof.
  induction 1 as [|y l Hl IH Hy]; simpl.
  - repeat constructor.
  - destruct (String.leb (key x) (key y)) eqn:E.
    + constructor; [by constructor|]. constructor; [done|].
      eapply Forall_impl; [exact Hy|]. intros z Hz.
      by apply (string_leb_trans _ (key y)).
    + constructor; [done|].
      rewrite insert_sorted_Permutation. constructor; [|done].
      by apply string_leb_false.
Qed.

Lemma sorted_StronglySorted l : StronglySorted le (sorted key l).
Proof.
  induction l as [|x l IH]; simpl; [constructor|].
  by apply insert_sorted_StronglySorted.
Qed.

(** Rows with the same key keep their order. *)
Lemma insert_sorted_filter k x l :
  filter (λ y, key y = k) (insert_sorted key x l) =
  filter (λ y, key y = k) (x :: l).
Proof.
  induction l as [|y l IH]; simpl; [done|].
  destruct (String.leb (key x) (key y)) eqn:E; [done|].
  rewrite filter_cons, IH, !filter_cons.
  destruct (decide (key y = k)) as [Hy|Hy]; [|done].
  destruct (decide (key x = k)) as [Hx|Hx]; [|done].
  rewrite Hx, Hy, string_leb_refl in E. done.
Qed.

Lemma sorted_filter k l :
  filter (λ y, key y = k) (sorted key l) = filter (λ y, key y = k) l.
Proof.
  induction l as [|x l IH]; simpl; [done|].
  by rewrite insert_sorted_filter, !filter_cons, IH.
Qed.

(** Two lists in key order with the same rows, in the same order, for
    every key are one list: a stable sort has a single result. *)
Lemma stable_sort_unique l1 l2 :
  StronglySorted le l1 → StronglySorted le l2 →
  (∀ k, filter (λ y, key y = k) l1 = filter (λ y, key y = k) l2) →
  l1 = l2.
Proof.
  intros H1. revert l2. induction H1 as [|x l1 Hl1 IH Hx]; intros l2 H2 Hf.
  - destruct l2 as [|y l2]; [done|].
    specialize (Hf (key y)). rewrite filter_cons_True in Hf by done.
    by rewrite filter_nil in Hf.
  - destruct H2 as [|y l2 Hl2 Hy].
    { specialize (Hf (key x)). rewrite filter_cons_True in Hf by done.
      by rewrite filter_nil in Hf. }
    assert (key x = key y) as Hk.
    { destruct (decide (key x = key y)) as [|Hne]; [done|].
      apply String.leb_antisym.
      - pose proof (Hf (key y)) as Hfy.
        rewrite filter_cons_False, filter_cons_True in Hfy by done.
        assert (y ∈ filter (λ z, key z = key y) l1) as Hin
          by (rewrite Hfy; left).
        apply list_elem_of_filter in Hin as [_ Hin].
        rewrite Forall_forall in Hx. by apply Hx.
      - pose proof (Hf (key x)) as Hfx.
        rewrite filter_cons_True, filter_cons_False in Hfx by done.
        assert (x ∈ filter (λ z, key z = key x) l2) as Hin
          by (rewrite <- Hfx; left).
        apply list_elem_of_filter in Hin as [_ Hin].
        rewrite Forall_forall in Hy. by apply Hy. }
    pose proof (Hf (key x)) as Hfx.
    rewrite !filter_cons_True in Hfx by done.
    injection Hfx as -> Hfx. f_equal. apply IH; [done|].
    intros k. specialize (Hf k). rewrite !filter_cons in Hf.
    destruct (decide (key y = k)); [by injection Hf|done].
Qed.

End SortedFacts.




(** * Further properties of the registry *)

(** ** Looking a serial number up *)

(** [GetType(serial)] is the type of the registered record with that
    serial number, and [None] when there is none: a serial number has a
    type exactly when it is in [_serial_numbers]. *)
Theorem GetType_registered (serial_number : string) (w : world) :
  wf w →
  (∀ l d, registered w l d → _serial_number d = serial_number →
          GetType serial_number w = Some (_type d)) ∧
  (∀ t, GetType serial_number w = Some t →
        ∃ l d, registered w l d ∧ _serial_number d = serial_number ∧
               _type d = t) ∧
  (is_Some (GetType serial_number w) ↔
   serial_number ∈ _serial_numbers (PLATFORMS w)).
Proof.
  intros Hwf.
  assert (∀ l d, registered w l d → _serial_number d = serial_number →
                 GetType serial_number w = Some (_type d)) as Hfound.
  { intros l d Hreg <-. unfold GetType.
    rewrite (first_platform_serial w l d Hwf Hreg).
    destruct Hreg as [_ ->]. done. }
  assert (∀ t, GetType serial_number w = Some t →
               ∃ l d, registered w l d ∧ _serial_number d = serial_number ∧
                      _type d = t) as Hinv.
  { intros t. unfold GetType.
    destruct (first_platform _ _ _) as [l|] eqn:E; [|done].
    apply first_platform_Some in E as (i & d & Hi & Hd & HP & _).
    rewrite Hd. simpl. intros [= <-]. exists l, d.
    split; [split; [by eapply list_elem_of_lookup_2|done]|].
    split; [by apply has_serial_true|done]. }
  split; [done|]. split; [done|]. split.
  - intros [t Ht]. destruct (Hinv t Ht) as (l & d & Hreg & Hsn & _).
    apply (wf_serial_set _ Hwf), elem_of_serials. eauto.
  - intros Hin. apply (wf_serial_set _ Hwf), elem_of_serials in Hin
      as (l & d & Hreg & Hsn).
    rewrite (Hfound l d Hreg Hsn). by eexists.
Qed.

Lemma GetType_registered_witness :
  GetType "S1" Example.w2 = Some "nucleo_f746zg"%string ∧
  (is_Some (GetType "S9" Example.w2) ↔
   "S9"%string ∈ _serial_numbers (PLATFORMS Example.w2)).
Proof.
  destruct (GetType_registered "S1" Example.w2
              (reachable_wf _ Example_w2_reachable)) as (Hfound & _).
  destruct (GetType_registered "S9" Example.w2
              (reachable_wf _ Example_w2_reachable)) as (_ & _ & Hiff).
  split; [|exact Hiff].
  apply (Hfound 2%positive (Device.take "alice" (Example.board "S1")));
    [|reflexivity].
  split; [vm_compute; right; left|reflexivity].
Defined.

(** ** One representative for every type *)

Lemma has_type_true' t d : has_type t d = true ↔ _type d = t.
Proof. unfold has_type, Device.GetType. apply String.eqb_eq. Qed.

Lemma first_at_inj P h ls i i' l l' d d' :
  first_at P h ls i l d → first_at P h ls i' l' d' → i = i' ∧ l = l' ∧ d = d'.
Proof.
  intros (Hi & Hd & HP & Hfirst) (Hi' & Hd' & HP' & Hfirst').
  assert (i = i') as <-.
  { destruct (Nat.lt_trichotomy i i') as [Hlt|[?|Hlt]]; [|done|].
    - specialize (Hfirst' i l d Hlt Hi Hd). congruence.
    - specialize (Hfirst i' l' d' Hlt Hi' Hd'). congruence. }
  split; [done|]. assert (l = l') as <- by congruence.
  split; [done|congruence].
Qed.

Lemma first_at_cons_alive P h a da ls i l d :
  h !! a = Some da → P da = false →
  first_at P h (a :: ls) (S i) l d ↔ first_at P h ls i l d.
Proof.
  intros Ha HPa. unfold first_at. simpl. split.
  - intros (Hi & Hd & HP & Hfirst). repeat split; try done.
    intros j l' d' Hj. apply (Hfirst (S j)). lia.
  - intros (Hi & Hd & HP & Hfirst). repeat split; try done.
    intros [|j] l' d' Hj Hl' Hd'; simpl in Hl'; [congruence|].
    apply (Hfirst j l' d'); [lia|done..].
Qed.

Lemma first_at_cons_dangling P h a ls i l d :
  h !! a = None →
  first_at P h (a :: ls) (S i) l d ↔ first_at P h ls i l d.
Proof.
  intros Ha. unfold first_at. simpl. split.
  - intros (Hi & Hd & HP & Hfirst). repeat split; try done.
    intros j l' d' Hj. apply (Hfirst (S j)). lia.
  - intros (Hi & Hd & HP & Hfirst). repeat split; try done.
    intros [|j] l' d' Hj Hl' Hd'; simpl in Hl'; [congruence|].
    apply (Hfirst j l' d'); [lia|done..].
Qed.

Lemma elem_of_GetAllDeviceTypes_loop h seen ls l :
  l ∈ GetAllDeviceTypes_loop h seen ls ↔
  ∃ i d, first_at (has_type (_type d)) h ls i l d ∧ _type d ∉ seen.
Proof.
  revert seen. induction ls as [|a ls IH]; intros seen; simpl.
  { split; [intros H; inversion H|]. intros (i & d & (Hi & _) & _). by destruct i. }
  destruct (h !! a) as [da|] eqn:Ha.
  - unfold Device.GetType.
    destruct (decide (_type da ∈ seen)) as [Hseen|Hnew].
    + rewrite IH. split.
      * intros (i & d & Hfirst & Hd). exists (S i), d. split; [|done].
        apply first_at_cons_alive with da; [done| |done].
        apply has_type_false. intros Heq. by rewrite Heq in Hseen.
      * intros (i & d & Hfirst & Hd). destruct i as [|i].
        -- destruct Hfirst as (Hi & Hd' & _). simpl in Hi. injection Hi as ->.
           assert (da = d) as -> by congruence. done.
        -- exists i, d. split; [|done].
           assert (has_type (_type d) da = false) as HP.
           { destruct Hfirst as (_ & _ & _ & Hfirst).
             apply (Hfirst 0%nat a da); [lia|done..]. }
           exact (proj1 (first_at_cons_alive _ _ a da ls i l d Ha HP) Hfirst).
    + rewrite elem_of_cons, IH. split.
      * intros [->|(i & d & Hfirst & Hd)].
        -- exists 0%nat, da. split; [|done]. repeat split; try done.
           ++ by apply has_type_true'.
           ++ intros j l' d' Hj. lia.
        -- exists (S i), d. apply not_elem_of_union in Hd as [Hd Hne].
           split; [|done]. apply first_at_cons_alive with da; [done| |done].
           apply has_type_false. intros Heq. apply Hne.
           by apply elem_of_singleton.
      * intros (i & d & Hfirst & Hd). destruct i as [|i].
        -- left. destruct Hfirst as (Hi & _). simpl in Hi. congruence.
        -- right. exists i, d.
           assert (has_type (_type d) da = false) as HP.
           { destruct Hfirst as (_ & _ & _ & Hfirst).
             apply (Hfirst 0%nat a da); [lia|done..]. }
           split; [exact (proj1 (first_at_cons_alive _ _ a da ls i l d Ha HP) Hfirst)|].
           apply not_elem_of_union. split; [done|].
           apply has_type_false in HP. intros Hin.
           apply elem_of_singleton in Hin. done.
  - rewrite IH. split.
    + intros (i & d & Hfirst & Hd). exists (S i), d. split; [|done].
      by apply first_at_cons_dangling.
    + intros (i & d & Hfirst & Hd). destruct i as [|i].
      * destruct Hfirst as (Hi & Hd' & _). simpl in Hi. congruence.
      * exists i, d. split; [|done]. exact (proj1 (first_at_cons_dangling _ _ a ls i l d Ha) Hfirst).
Qed.

(** [GetAllDeviceTypes] returns the registered objects themselves, not
    copies: exactly those that are the first of their type in registration
    order.  So every registered type has one representative, no two
    representatives have the same type, and the representative of a type is
    the record that [GetDeviceWithType] copies. *)
Theorem GetAllDeviceTypes_representatives (w : world) :
  (∀ l, l ∈ GetAllDeviceTypes w ↔
        ∃ i d, first_at (has_type (_type d)) (heap w)
                 (_platforms (PLATFORMS w)) i l d) ∧
  (∀ l d, registered w l d →
          ∃ l0 d0, l0 ∈ GetAllDeviceTypes w ∧ registered w l0 d0 ∧
                   _type d0 = _type d) ∧
  (∀ l1 l2 d1 d2,
     l1 ∈ GetAllDeviceTypes w → l2 ∈ GetAllDeviceTypes w →
     heap w !! l1 = Some d1 → heap w !! l2 = Some d2 →
     _type d1 = _type d2 → l1 = l2) ∧
  (∀ l d, l ∈ GetAllDeviceTypes w → heap w !! l = Some d →
          GetDeviceWithType (_type d) w =
            (Some (fresh (dom (heap w))),
             set_heap (<[fresh (dom (heap w)) := d]> (heap w)) w)).
Proof.
  assert (∀ l, l ∈ GetAllDeviceTypes w ↔
               ∃ i d, first_at (has_type (_type d)) (heap w)
                        (_platforms (PLATFORMS w)) i l d) as Hchar.
  { intros l. unfold GetAllDeviceTypes.
    rewrite elem_of_GetAllDeviceTypes_loop. split.
    - intros (i & d & H & _). eauto.
    - intros (i & d & H). exists i, d. split; [done|]. apply not_elem_of_empty. }
  split; [done|]. split; [|split].
  - intros l d [Hl Hd].
    destruct (first_platform (has_type (_type d)) (heap w)
                (_platforms (PLATFORMS w))) as [l0|] eqn:E.
    + apply first_platform_Some in E as (i & d0 & Hfirst).
      pose proof Hfirst as (Hi & Hd0 & HP & _).
      apply has_type_true' in HP. exists l0, d0. split; [|split].
      * apply Hchar. exists i, d0. by rewrite HP.
      * split; [by eapply list_elem_of_lookup_2|done].
      * done.
    + rewrite first_platform_None in E. specialize (E l d Hl Hd).
      apply has_type_false in E. done.
  - intros l1 l2 d1 d2 H1 H2 Hd1 Hd2 Ht.
    apply Hchar in H1 as (i1 & d1' & F1). apply Hchar in H2 as (i2 & d2' & F2).
    assert (d1' = d1) as -> by (destruct F1 as (_ & ? & _); congruence).
    assert (d2' = d2) as -> by (destruct F2 as (_ & ? & _); congruence).
    rewrite Ht in F1. by destruct (first_at_inj _ _ _ _ _ _ _ _ _ F1 F2) as (_ & ? & _).
  - intros l d Hl Hd. apply Hchar in Hl as (i & d' & F).
    assert (d' = d) as -> by (destruct F as (_ & ? & _); congruence).
    unfold GetDeviceWithType, copy_object.
    rewrite (first_at_platform _ _ _ _ _ _ F), Hd. done.
Qed.

Lemma GetAllDeviceTypes_representatives_witness :
  ∃ l0 d0, l0 ∈ GetAllDeviceTypes Example.w2 ∧ registered Example.w2 l0 d0 ∧
           _type d0 = "nucleo_f746zg"%string.
Proof.
  destruct (GetAllDeviceTypes_representatives Example.w2) as (_ & Hrep & _).
  apply (Hrep 2%positive (Device.take "alice" (Example.board "S1"))).
  split; [vm_compute; right; left|reflexivity].
Defined.

(** ** The registry that [LoadDeviceTable] builds *)

Lemma register_records d w :
  wf w →
  records (register d w) =
  if decide (_serial_number d ∈ _serial_numbers (PLATFORMS w))
  then records w else records w ++ [d].
Proof.
  intros Hwf. destruct (decide _) as [Hin|Hnin].
  { by destruct (register_present d w Hwf Hin) as (_ & ? & _). }
  rewrite register_unfold. unfold AddPlatform, Device.GetSerialNumber. simpl.
  rewrite lookup_insert_eq. destruct (decide _) as [|_]; [done|].
  unfold records at 1. simpl. rewrite omap_app. simpl.
  rewrite lookup_insert_eq. f_equal.
  change (omap (λ l, <[fresh (dom (heap w)):=d]> (heap w) !! l)
            (_platforms (PLATFORMS w)))
    with (records (set_heap (<[fresh (dom (heap w)):=d]> (heap w)) w)).
  apply records_insert_unregistered. intros Hin.
  by apply (fresh_not_registered w _ Hwf Hin).
Qed.

Lemma register_sessions_foldl ds w :
  _sessions (PLATFORMS (foldl (fun w d => register d w) w ds)) =
  _sessions (PLATFORMS w).
Proof.
  revert w. induction ds as [|d ds IH]; intros w; simpl; [done|].
  by rewrite IH, register_sessions.
Qed.

Lemma GetType_of_registered w l d :
  wf w → registered w l d → GetType (_serial_number d) w = Some (_type d).
Proof.
  intros Hwf Hreg. unfold GetType.
  rewrite (first_platform_serial w l d Hwf Hreg).
  destruct Hreg as [_ ->]. done.
Qed.

(** The records after registering [ds] one by one in an empty registry
    are the elements of [ds] that are the first with their serial number. *)
Lemma foldl_register_first ds d :
  d ∈ records (foldl (fun w d => register d w) empty_world ds) ↔
  ∃ i, ds !! i = Some d ∧
       ∀ j d', (j < i)%nat → ds !! j = Some d' →
               _serial_number d' ≠ _serial_number d.
Proof.
  revert d. induction ds as [|x ds IH] using rev_ind; intros d.
  { simpl. split; [intros H; inversion H|]. intros (i & Hi & _). by destruct i. }
  rewrite foldl_app. simpl.
  set (w := foldl (fun w d => register d w) empty_world ds) in *.
  assert (wf w) as Hwf by (apply wf_foldl_register, wf_empty).
  assert (_serial_number x ∈ _serial_numbers (PLATFORMS w) ↔
          ∃ j d', ds !! j = Some d' ∧ _serial_number d' = _serial_number x)
    as Hset.
  { subst w. rewrite foldl_register_serial_numbers. simpl.
    rewrite list_elem_of_fmap. split.
    - intros [Hin|(d' & Hsn & Hin)]; [by apply not_elem_of_empty in Hin|].
      apply list_elem_of_lookup_1 in Hin as [j Hj]. eauto.
    - intros (j & d' & Hj & Hsn). right. exists d'. split; [done|].
      by eapply list_elem_of_lookup_2. }
  rewrite (register_records x w Hwf). split.
  - intros Hin.
    assert (d ∈ records w ∨
            (d = x ∧ _serial_number x ∉ _serial_numbers (PLATFORMS w)))
      as [Hold|[-> Hnew]].
    { destruct (decide _); [by left|].
      apply elem_of_app in Hin as [?|Hin]; [by left|].
      apply list_elem_of_singleton in Hin. by right. }
    + apply IH in Hold as (i & Hi & Hfirst). exists i.
      pose proof (lookup_lt_Some _ _ _ Hi) as Hlt.
      split; [by rewrite lookup_app_l|].
      intros j d' Hj Hd'. rewrite lookup_app_l in Hd' by lia. eauto.
    + exists (length ds). split.
      * by rewrite lookup_app_r, Nat.sub_diag.
      * intros j d' Hj Hd' Hsn. rewrite lookup_app_l in Hd' by lia.
        apply Hnew, Hset. eauto.
  - intros (i & Hi & Hfirst).
    destruct (decide (i < length ds)%nat) as [Hlt|Hge].
    + rewrite lookup_app_l in Hi by done.
      assert (d ∈ records w) as Hold.
      { apply IH. exists i. split; [done|]. intros j d' Hj Hd'.
        apply (Hfirst j d' Hj). rewrite lookup_app_l; [done|lia]. }
      destruct (decide _); [done|]. apply elem_of_app. by left.
    + pose proof (lookup_lt_Some _ _ _ Hi) as Hlt'.
      rewrite length_app in Hlt'. simpl in Hlt'.
      assert (i = length ds) as -> by lia.
      rewrite lookup_app_r, Nat.sub_diag in Hi by lia. injection Hi as <-.
      destruct (decide _) as [Hin|Hnin].
      * apply Hset in Hin as (j & d' & Hj & Hsn). exfalso.
        apply (Hfirst j d'); [by eapply lookup_lt_Some| |done].
        rewrite lookup_app_l; [done|by eapply lookup_lt_Some].
      * apply elem_of_app. right. left.
Qed.

Lemma elem_of_table_devices data d :
  d ∈ table_devices data ↔
  ∃ entry item, entry ∈ data ∧ item ∈ instances entry.2 ∧
    d = Device.init entry.1 item (Some (vid_hex entry.2))
          (Some (pid_hex entry.2)).
Proof.
  unfold table_devices. rewrite list_elem_of_bind. split.
  - intros (entry & Hd & Hentry). apply list_elem_of_fmap in Hd as (item & -> & Hitem).
    eauto.
  - intros (entry & item & Hentry & Hitem & ->). exists entry. split; [|done].
    apply list_elem_of_fmap. eauto.
Qed.

(** [LoadDeviceTable] registers every serial number of the table once, as
    a free, enabled record without user that carries the type, VID and PID
    of its entry; when a serial number is listed more than once, under one
    type or under several, the first listing wins and decides the type that
    [GetType] reports.  The registry has no session. *)
Theorem LoadDeviceTable_first_listing_wins (data : list (string * config)) :
  let w := LoadDeviceTable data in
  wf w ∧ _sessions (PLATFORMS w) = ∅ ∧
  (∀ d, d ∈ records w →
        ∃ entry item, entry ∈ data ∧ item ∈ instances entry.2 ∧
          d = Device.init entry.1 item (Some (vid_hex entry.2))
                (Some (pid_hex entry.2))) ∧
  (∀ entry item, entry ∈ data → item ∈ instances entry.2 →
                 item ∈ serials w) ∧
  (∀ i d, table_devices data !! i = Some d →
     (∀ j d', (j < i)%nat → table_devices data !! j = Some d' →
              _serial_number d' ≠ _serial_number d) →
     d ∈ records w ∧ GetType (_serial_number d) w = Some (_type d)).
Proof.
  intros w. subst w. unfold LoadDeviceTable. rewrite add_table_devices.
  set (w := foldl (fun w d => register d w) empty_world (table_devices data)).
  assert (wf w) as Hwf by (apply wf_foldl_register, wf_empty).
  split; [done|]. split; [by subst w; rewrite register_sessions_foldl|].
  split; [|split].
  - intros d Hd. apply foldl_register_first in Hd as (i & Hi & _).
    apply elem_of_table_devices. by eapply list_elem_of_lookup_2.
  - intros entry item Hentry Hitem. apply (wf_serial_set _ Hwf).
    subst w. apply foldl_register_serial_numbers. right.
    apply list_elem_of_fmap.
    exists (Device.init entry.1 item (Some (vid_hex entry.2))
              (Some (pid_hex entry.2))).
    split; [done|]. apply elem_of_table_devices. eauto.
  - intros i d Hi Hfirst.
    assert (d ∈ records w) as Hd by (apply foldl_register_first; eauto).
    split; [done|]. apply elem_of_records in Hd as (l & Hreg).
    by apply GetType_of_registered with l.
Qed.

Lemma LoadDeviceTable_first_listing_wins_witness :
  Example.board "S2" ∈ records (LoadDeviceTable Example.table) ∧
  GetType "S2" (LoadDeviceTable Example.table) = Some "nucleo_f746zg"%string.
Proof.
  destruct (LoadDeviceTable_first_listing_wins Example.table)
    as (_ & _ & _ & _ & Hfirst).
  apply (Hfirst 0%nat (Example.board "S2")); [reflexivity|].
  intros j d' Hj. lia.
Defined.

(** ** A leased record is not handed out again *)

Lemma length_filter_ne (p : loc) (ls : list loc) :
  NoDup ls → p ∈ ls →
  (length (filter (λ l, l ≠ p) ls) + 1 = length ls)%nat.
Proof.
  induction 1 as [|a ls Ha Hnd IH]; intros Hin; [inversion Hin|].
  rewrite filter_cons. destruct (decide (a ≠ p)) as [Hne|Heq]; simpl.
  - apply elem_of_cons in Hin as [->|Hin]; [done|]. by rewrite IH.
  - assert (a = p) as -> by (destruct (decide (a = p)); [done|by destruct Heq]).
    assert (filter (λ l, l ≠ p) ls = ls) as ->; [|lia].
    clear IH Hnd Hin. induction ls as [|b ls IH]; [done|].
    apply not_elem_of_cons in Ha as [Hb Ha].
    rewrite filter_cons_True by done. by rewrite IH.
Qed.

(** The candidates after [platform] has been marked taken. *)
Lemma candidate_platforms_taken type w platform d s u leased c :
  registered w platform d → c ∉ _platforms (PLATFORMS w) →
  candidate_platforms type (leased_world w platform d s u leased c) =
  filter (λ l, l ≠ platform) (candidate_platforms type w).
Proof.
  intros [_ Hd]. unfold candidate_platforms, leased_world. simpl.
  induction (_platforms (PLATFORMS w)) as [|a ls IH]; intros Hc; [done|].
  apply not_elem_of_cons in Hc as [Hca Hc]. simpl.
  rewrite lookup_insert_ne by done.
  destruct (decide (platform = a)) as [<-|Hne].
  - rewrite lookup_insert_eq, Hd.
    replace (is_candidate type (Device.take u d)) with false
      by (unfold is_candidate; simpl; by rewrite andb_false_r).
    destruct (is_candidate type d); [|by apply IH].
    rewrite filter_cons_False by (intros H; by apply H). by apply IH.
  - rewrite lookup_insert_ne by done.
    destruct (match heap w !! a with Some d0 => is_candidate type d0 | None => false end);
      [|by apply IH].
    rewrite filter_cons_True by done. f_equal. by apply IH.
Qed.

(** A successful [GetPlatform] removes the chosen record, and only it,
    from the candidates of every type: until it is released no later call
    can choose it, and the number of candidates of its type drops by one. *)
Theorem GetPlatform_removes_candidate (type s u : string) (n : nat)
    (w w' : world) (c : loc) :
  wf w →
  GetPlatform type s u n w = (Return (Some c), w') →
  ∃ platform d,
    candidate_platforms type w !! n = Some platform ∧
    registered w platform d ∧
    registered w' platform (Device.take u d) ∧
    (∀ type', candidate_platforms type' w' =
              filter (λ l, l ≠ platform) (candidate_platforms type' w)) ∧
    (length (candidate_platforms type w') + 1 =
     length (candidate_platforms type w))%nat ∧
    (∀ type' n', candidate_platforms type' w' !! n' ≠ Some platform).
Proof.
  intros Hwf E.
  destruct (GetPlatform_cases type s u n w)
    as [[_ E']|[[_ E']|(p & d & Hc & Hreg & Hcand &
                        [[Hs E']|(leased & Hs & E')])]];
    simpl in E'; rewrite E' in E; try discriminate.
  injection E as <- <-.
  set (c := fresh (dom (<[p:=Device.take u d]> (heap w)))).
  assert (c ∉ _platforms (PLATFORMS w)) as Hfresh.
  { intros Hin. apply (wf_alive _ Hwf) in Hin. apply elem_of_dom in Hin.
    apply (is_fresh (dom (<[p:=Device.take u d]> (heap w)))).
    by apply dom_insert_subseteq. }
  assert (∀ type', candidate_platforms type' (leased_world w p d s u leased c) =
                   filter (λ l, l ≠ p) (candidate_platforms type' w)) as Hrest
    by (intros type'; by apply candidate_platforms_taken).
  exists p, d. split; [done|]. split; [done|]. split; [|split; [done|split]].
  - split; [apply Hreg|]. simpl. rewrite lookup_insert_ne, lookup_insert_eq; [done|].
    intros Heq. apply Hfresh. rewrite Heq. apply Hreg.
  - rewrite Hrest. apply length_filter_ne.
    + by apply candidate_platforms_NoDup, wf_NoDup_platforms.
    + by eapply list_elem_of_lookup_2.
  - intros type' n' Hn'. rewrite Hrest in Hn'.
    apply list_elem_of_lookup_2, list_elem_of_filter in Hn' as [Hne _]. done.
Qed.

Lemma GetPlatform_removes_candidate_witness :
  ∃ platform d,
    candidate_platforms "nucleo_f746zg" Example.w1 !! 1%nat = Some platform ∧
    registered Example.w1 platform d ∧
    registered Example.w2 platform (Device.take "alice" d) ∧
    (∀ type', candidate_platforms type' Example.w2 =
              filter (λ l, l ≠ platform) (candidate_platforms type' Example.w1)) ∧
    (length (candidate_platforms "nucleo_f746zg" Example.w2) + 1 =
     length (candidate_platforms "nucleo_f746zg" Example.w1))%nat ∧
    (∀ type' n', candidate_platforms type' Example.w2 !! n' ≠ Some platform).
Proof.
  apply (GetPlatform_removes_candidate "nucleo_f746zg" Example.X "alice" 1
           Example.w1 Example.w2 3%positive).
  - apply reachable_wf, Example_w1_reachable.
  - vm_compute. reflexivity.
Defined.

(** ** As many leases as there are candidates *)

Lemma leased_world_registered_other w p d s u leased c l d1 :
  c ∉ _platforms (PLATFORMS w) → l ≠ p →
  registered (leased_world w p d s u leased c) l d1 → registered w l d1.
Proof.
  intros Hc Hne [Hl Hd1]. simpl in Hl, Hd1. split; [done|].
  rewrite lookup_insert_ne, lookup_insert_ne in Hd1; [done|done|].
  intros <-. done.
Qed.

Lemma serve_DeviceRequest_leased type s u n w p d leased :
  type ≠ ""%string → s ≠ ""%string → u ≠ ""%string →
  candidate_platforms type w !! n = Some p →
  heap w !! p = Some d →
  _sessions (PLATFORMS w) !! s = Some leased →
  serve (DeviceRequest type s u n) w =
  leased_world w p d s u leased
    (fresh (dom (<[p := Device.take u d]> (heap w)))).
Proof.
  intros Ht Hs Hu Hc Hd Hopen. simpl.
  rewrite RPCDeviceRequest_GetPlatform by done.
  rewrite (GetPlatform_leased _ _ _ _ _ p d leased) by done. simpl.
  by rewrite lookup_insert_eq.
Qed.

Lemma requests_in_a_row type s u ns :
  type ≠ ""%string → s ≠ ""%string → u ≠ ""%string →
  ∀ w leased,
  wf w →
  _sessions (PLATFORMS w) !! s = Some leased →
  (∀ k n, ns !! k = Some n →
          (n + k < length (candidate_platforms type w))%nat) →
  let w' := run (DeviceRequest type s u <$> ns) w in
  wf w' ∧
  (length (candidate_platforms type w') + length ns =
   length (candidate_platforms type w))%nat ∧
  ∃ new, _sessions (PLATFORMS w') !! s = Some (leased ++ new) ∧
         length new = length ns ∧ NoDup new ∧
         ∀ sn, sn ∈ new →
               ∃ l d, registered w l d ∧ _serial_number d = sn ∧
                      is_candidate type d = true.
Proof.
  intros Ht Hs Hu. induction ns as [|n ns IH]; intros w leased Hwf Hopen Hdraws.
  { simpl. split; [done|]. split; [lia|]. exists []. rewrite app_nil_r.
    repeat split; try done; [constructor|]. intros sn Hsn. inversion Hsn. }
  assert (n < length (candidate_platforms type w))%nat as Hn
    by (specialize (Hdraws 0%nat n eq_refl); lia).
  apply lookup_lt_is_Some_2 in Hn as [p Hp].
  assert (p ∈ candidate_platforms type w) as Hin by by eapply list_elem_of_lookup_2.
  apply elem_of_candidate_platforms in Hin as (d & Hreg & Hcand).
  set (c := fresh (dom (<[p := Device.take u d]> (heap w)))).
  assert (c ∉ _platforms (PLATFORMS w)) as Hfresh.
  { intros Hin. apply (wf_alive _ Hwf) in Hin. apply elem_of_dom in Hin.
    apply (is_fresh (dom (<[p:=Device.take u d]> (heap w)))).
    by apply dom_insert_subseteq. }
  assert (serve (DeviceRequest type s u n) w = leased_world w p d s u leased c)
    as Hstep by (apply serve_DeviceRequest_leased; try done; apply Hreg).
  assert (wf (leased_world w p d s u leased c)) as Hwf1
    by (rewrite <- Hstep; by apply wf_serve).
  assert (length (candidate_platforms type (leased_world w p d s u leased c)) + 1
          = length (candidate_platforms type w))%nat as Hlen.
  { rewrite candidate_platforms_taken by done. apply length_filter_ne.
    - by apply candidate_platforms_NoDup, wf_NoDup_platforms.
    - by eapply list_elem_of_lookup_2. }
  assert (run (DeviceRequest type s u <$> n :: ns) w =
          run (DeviceRequest type s u <$> ns)
            (leased_world w p d s u leased c)) as Hrun.
  { change (run (DeviceRequest type s u <$> n :: ns) w)
      with (run (DeviceRequest type s u <$> ns)
              (serve (DeviceRequest type s u n) w)).
    by rewrite Hstep. }
  intros w'. subst w'. rewrite Hrun.
  destruct (IH (leased_world w p d s u leased c)
              (leased ++ [_serial_number d]) Hwf1)
    as (Hwf' & Hlen' & new & Hnew & Hlnew & Hnd & Hwas).
  { simpl. by rewrite lookup_insert_eq. }
  { intros k n' Hk. specialize (Hdraws (S k) n' Hk). lia. }
  assert (∀ sn, sn ∈ new →
            ∃ l d1, registered w l d1 ∧ _serial_number d1 = sn ∧
                    is_candidate type d1 = true ∧ l ≠ p) as Hwas'.
  { intros sn Hsn. destruct (Hwas sn Hsn) as (l & d1 & Hreg1 & Hsn1 & Hc1).
    assert (l ≠ p) as Hne.
    { intros ->. destruct Hreg1 as [_ Hd1]. simpl in Hd1.
      rewrite lookup_insert_ne, lookup_insert_eq in Hd1
        by (intros Heq; apply Hfresh; rewrite Heq; apply Hreg).
      injection Hd1 as <-. unfold is_candidate in Hc1. simpl in Hc1.
      by rewrite andb_false_r in Hc1. }
    exists l, d1.
    split; [by apply (leased_world_registered_other w p d s u leased c)|].
    done. }
  split; [done|]. split; [cbn [length]; lia|].
  exists (_serial_number d :: new). split; [|split; [|split]].
  - rewrite Hnew, <- app_assoc. done.
  - simpl. by rewrite Hlnew.
  - constructor; [|done]. intros Hsn.
    destruct (Hwas' _ Hsn) as (l & d1 & Hreg1 & Hsn1 & _ & Hne).
    apply Hne. by apply (wf_registered_inj w l p d1 d).
  - intros sn Hsn. apply elem_of_cons in Hsn as [->|Hsn]; [by exists p, d|].
    destruct (Hwas' _ Hsn) as (l & d1 & ? & ? & ? & _). by exists l, d1.
Qed.

(** With the session open, requests for a type served in a row all
    succeed as long as candidates are left: after as many requests as there
    were candidates, the session's list has grown by that many pairwise
    different serial numbers, each of a record that was a candidate, and
    the next request gets the empty reply and changes nothing. *)
Theorem requests_exhaust_candidates (type s u : string) (ns : list nat)
    (leased : list string) (w : world) :
  wf w → type ≠ ""%string → s ≠ ""%string → u ≠ ""%string →
  _sessions (PLATFORMS w) !! s = Some leased →
  length ns = length (candidate_platforms type w) →
  (∀ k n, ns !! k = Some n →
          (n + k < length (candidate_platforms type w))%nat) →
  let w' := run (DeviceRequest type s u <$> ns) w in
  (∃ new, _sessions (PLATFORMS w') !! s = Some (leased ++ new) ∧
          length new = length (candidate_platforms type w) ∧ NoDup new ∧
          ∀ sn, sn ∈ new →
                ∃ l d, registered w l d ∧ _serial_number d = sn ∧
                       is_candidate type d = true) ∧
  candidate_platforms type w' = [] ∧
  ∀ n, RPCDeviceRequest type s u n w' =
         (Return {| serial_number := ""; vid := None; pid := None |}, w').
Proof.
  intros Hwf Ht Hs Hu Hopen Hlen Hdraws w'.
  destruct (requests_in_a_row type s u ns Ht Hs Hu w leased Hwf Hopen Hdraws)
    as (Hwf' & Hcount & new & Hnew & Hlnew & Hnd & Hwas).
  fold w' in Hwf', Hcount, Hnew.
  assert (candidate_platforms type w' = []) as Hnil.
  { apply length_zero_iff_nil. lia. }
  split; [exists new; by rewrite Hlnew, Hlen in *|]. split; [done|].
  intros n. rewrite RPCDeviceRequest_GetPlatform by done.
  by rewrite GetPlatform_unavailable.
Qed.

Lemma requests_exhaust_candidates_witness :
  let w' := run (DeviceRequest "nucleo_f746zg" Example.X "alice" <$> [1; 0]%nat)
              Example.w1 in
  candidate_platforms "nucleo_f746zg" w' = [] ∧
  ∀ n, RPCDeviceRequest "nucleo_f746zg" Example.X "alice" n w' =
         (Return {| serial_number := ""; vid := None; pid := None |}, w').
Proof.
  destruct (requests_exhaust_candidates "nucleo_f746zg" Example.X "alice"
              [1; 0]%nat [] Example.w1) as (_ & Hnil & Hnext);
    try discriminate; try reflexivity.
  - apply reachable_wf, Example_w1_reachable.
  - intros [|[|k]] n Hk; simpl in Hk; try discriminate;
      injection Hk as <-; vm_compute; lia.
  - split; [exact Hnil|exact Hnext].
Defined.

(** ** Lease and release, open and close: round trips *)

Lemma candidate_platforms_ext type w w' :
  _platforms (PLATFORMS w') = _platforms (PLATFORMS w) →
  (∀ l, l ∈ _platforms (PLATFORMS w) →
        is_candidate type <$> heap w' !! l = is_candidate type <$> heap w !! l) →
  candidate_platforms type w' = candidate_platforms type w.
Proof.
  intros Hp Hh. unfold candidate_platforms. rewrite Hp.
  revert Hh. generalize (_platforms (PLATFORMS w)). intros ls.
  induction ls as [|a ls IH]; intros Hh; [done|]. simpl.
  pose proof (Hh a (list_elem_of_here _ _)) as Ha.
  rewrite IH by (intros l Hl; apply Hh; by right).
  destruct (heap w' !! a), (heap w !! a); simpl in Ha; try done.
  by injection Ha as ->.
Qed.

Lemma Free_take_candidate type u d :
  is_candidate type (Device.Free (Device.take u d)) = is_candidate type d ∨
  _is_taken d = true.
Proof.
  unfold is_candidate. simpl. destruct (_is_taken d); [by right|by left].
Qed.

Lemma Free_take_fresh u d :
  _is_taken d = false → _user d = None → Device.Free (Device.take u d) = d.
Proof. destruct d. simpl. by intros -> ->. Qed.

(** The state after [platform] was leased in [w] and released again. *)
Lemma leased_then_released w platform d s u leased c :
  wf (leased_world w platform d s u leased c) →
  registered w platform d → c ∉ _platforms (PLATFORMS w) →
  (ReleasePlatform (_serial_number d)
     (leased_world w platform d s u leased c)).2 =
  set_heap (<[platform := Device.Free (Device.take u d)]>
              (heap (leased_world w platform d s u leased c)))
    (leased_world w platform d s u leased c).
Proof.
  intros Hwf [Hin Hd] Hc.
  assert (registered (leased_world w platform d s u leased c) platform
            (Device.take u d)) as Hreg.
  { split; [done|]. simpl. rewrite lookup_insert_ne, lookup_insert_eq; [done|].
    by intros ->. }
  change (_serial_number d) with (_serial_number (Device.take u d)).
  by rewrite (ReleasePlatform_registered _ platform (Device.take u d) Hwf Hreg).
Qed.

(** A device that was handed out and is released is a candidate again:
    the candidates of every type are those before the lease, so a request
    with a draw in range succeeds again, and when the record had no user
    before, the registered records are exactly those before the lease.
    The serial number stays in the session's list. *)
Theorem release_after_lease_restores (type s u : string) (n : nat)
    (w w' : world) (c : loc) :
  wf w →
  GetPlatform type s u n w = (Return (Some c), w') →
  ∃ platform d,
    candidate_platforms type w !! n = Some platform ∧
    registered w platform d ∧
    let w'' := (ReleasePlatform (_serial_number d) w').2 in
    registered w'' platform (Device.Free (Device.take u d)) ∧
    (∀ type', candidate_platforms type' w'' = candidate_platforms type' w) ∧
    (∀ u' n', (n' < length (candidate_platforms type w))%nat →
              ∃ c' w3, GetPlatform type s u' n' w'' = (Return (Some c'), w3)) ∧
    (_user d = None → records w'' = records w) ∧
    listed w'' s (_serial_number d).
Proof.
  intros Hwf E.
  pose proof (wf_GetPlatform type s u n w Hwf) as Hwf'. rewrite E in Hwf'.
  destruct (GetPlatform_cases type s u n w)
    as [[_ E']|[[_ E']|(p & d & Hc & Hreg & Hcand &
                        [[Hs E']|(leased & Hs & E')])]];
    simpl in E'; rewrite E' in E; try discriminate.
  injection E as <- <-. simpl in Hwf'.
  set (c := fresh (dom (<[p:=Device.take u d]> (heap w)))) in *.
  assert (c ∉ _platforms (PLATFORMS w)) as Hfresh.
  { intros Hin. apply (wf_alive _ Hwf) in Hin. apply elem_of_dom in Hin.
    apply (is_fresh (dom (<[p:=Device.take u d]> (heap w)))).
    by apply dom_insert_subseteq. }
  exists p, d. split; [done|]. split; [done|]. intros w''. subst w''.
  rewrite leased_then_released by done.
  set (w'' := set_heap _ _).
  assert (∀ l, l ∈ _platforms (PLATFORMS w) → l ≠ p →
               heap w'' !! l = heap w !! l) as Hother.
  { intros l Hl Hne. subst w''. simpl.
    rewrite !lookup_insert_ne; try done. by intros <-. }
  assert (heap w'' !! p = Some (Device.Free (Device.take u d))) as Hp
    by (subst w''; simpl; by rewrite lookup_insert_eq).
  assert (∀ type', candidate_platforms type' w'' = candidate_platforms type' w)
    as Hcands.
  { intros type'. apply candidate_platforms_ext; [done|]. intros l Hl.
    destruct (decide (l = p)) as [->|Hne]; [|by rewrite Hother].
    destruct Hreg as [_ Hd]. rewrite Hp, Hd. simpl. f_equal.
    destruct (Free_take_candidate type' u d) as [?|Htaken]; [done|].
    apply is_candidate_true in Hcand as (_ & Hfree & _). congruence. }
  split; [split; [apply Hreg|done]|]. split; [done|]. split; [|split].
  - intros u' n' Hn'. rewrite <- (Hcands type) in Hn'.
    apply lookup_lt_is_Some_2 in Hn' as [p' Hp'].
    assert (p' ∈ candidate_platforms type w'') as Hin
      by by eapply list_elem_of_lookup_2.
    apply elem_of_candidate_platforms in Hin as (d' & [_ Hd'] & _).
    eexists _, _.
    apply (GetPlatform_leased _ _ _ _ _ p' d' (leased ++ [_serial_number d]));
      [done|done|].
    subst w''. simpl. by rewrite lookup_insert_eq.
  - intros Huser. apply records_ext; [done|]. intros l Hl.
    destruct (decide (l = p)) as [->|Hne]; [|by apply Hother].
    destruct Hreg as [_ Hd]. rewrite Hp, Hd. f_equal.
    apply is_candidate_true in Hcand as (_ & Hfree & _).
    by apply Free_take_fresh.
  - exists (leased ++ [_serial_number d]). split.
    + subst w''. simpl. by rewrite lookup_insert_eq.
    + apply elem_of_app. right. left.
Qed.

Lemma release_after_lease_restores_witness :
  ∃ platform d,
    candidate_platforms "nucleo_f746zg" Example.w1 !! 1%nat = Some platform ∧
    registered Example.w1 platform d ∧
    let w'' := (ReleasePlatform (_serial_number d) Example.w2).2 in
    registered w'' platform (Device.Free (Device.take "alice" d)) ∧
    (∀ type', candidate_platforms type' w'' =
              candidate_platforms type' Example.w1) ∧
    (∀ u' n',
       (n' < length (candidate_platforms "nucleo_f746zg" Example.w1))%nat →
       ∃ c' w3, GetPlatform "nucleo_f746zg" Example.X u' n' w''
                = (Return (Some c'), w3)) ∧
    (_user d = None → records w'' = records Example.w1) ∧
    listed w'' Example.X (_serial_number d).
Proof.
  apply (release_after_lease_restores "nucleo_f746zg" Example.X "alice" 1
           Example.w1 Example.w2 3%positive).
  - apply reachable_wf, Example_w1_reachable.
  - vm_compute. reflexivity.
Defined.

Lemma sess_num_nonempty draw :
  (∀ num, (num < SESSION_NUM_MAX_LEN)%nat → (draw num ≤ 9)%nat) →
  sess_num draw ≠ ""%string.
Proof.
  intros H Heq. destruct (sess_num_digits draw H) as [Hlen _].
  rewrite Heq in Hlen. discriminate.
Qed.

(** A session that is opened, is given a device and is closed leaves the
    registry as it found it: the device is a candidate again, the
    candidates of every type are those before, and when the record had no
    user before, the registered records are exactly those before.  What
    remains is the session's entry, which lists the serial number. *)
Theorem open_lease_close_restores (draw : nat → nat) (type u : string)
    (n : nat) (w : world) (platform : loc) (d : MicroDevice) :
  wf w → type ≠ ""%string → u ≠ ""%string →
  (∀ num, (num < SESSION_NUM_MAX_LEN)%nat → (draw num ≤ 9)%nat) →
  candidate_platforms type w !! n = Some platform →
  registered w platform d →
  let id := sess_num draw in
  let w3 := run [SessionRequest draw; DeviceRequest type id u n;
                 SessionClose id] w in
  registered w3 platform (Device.Free (Device.take u d)) ∧
  (_user d = None → records w3 = records w) ∧
  (∀ type', candidate_platforms type' w3 = candidate_platforms type' w) ∧
  _sessions (PLATFORMS w3) =
    <[id := [_serial_number d]]> (_sessions (PLATFORMS w)) ∧
  _platforms (PLATFORMS w3) = _platforms (PLATFORMS w) ∧
  _serial_numbers (PLATFORMS w3) = _serial_numbers (PLATFORMS w).
Proof.
  intros Hwf Ht Hu Hdraw Hc Hreg id w3.
  pose proof (sess_num_nonempty draw Hdraw) as Hid. fold id in Hid.
  set (w1 := serve (SessionRequest draw) w).
  assert (wf w1) as Hwf1 by by apply wf_serve.
  assert (registered w1 platform d) as Hreg1 by done.
  assert (candidate_platforms type w1 !! n = Some platform) as Hc1 by done.
  set (c := fresh (dom (<[platform := Device.take u d]> (heap w1)))).
  assert (c ∉ _platforms (PLATFORMS w)) as Hfresh.
  { intros Hin. apply (wf_alive _ Hwf) in Hin. apply elem_of_dom in Hin.
    apply (is_fresh (dom (<[platform:=Device.take u d]> (heap w)))).
    by apply dom_insert_subseteq. }
  assert (serve (DeviceRequest type id u n) w1 =
          leased_world w1 platform d id u [] c) as Hstep2.
  { apply serve_DeviceRequest_leased; try done; [apply Hreg|].
    subst w1 id. simpl. by rewrite lookup_insert_eq. }
  set (w2 := leased_world w1 platform d id u [] c) in *.
  assert (wf w2) as Hwf2 by (rewrite <- Hstep2; by apply wf_serve).
  assert (serve (SessionClose id) w2 =
          set_heap (<[platform := Device.Free (Device.take u d)]> (heap w2)) w2)
    as Hstep3.
  { simpl. unfold RPCSessionClose. apply truthy_true in Hid. rewrite Hid.
    subst w2. cbn [negb leased_world PLATFORMS _sessions].
    rewrite lookup_insert_eq. cbn [app release_all foldl snd].
    by apply leased_then_released. }
  assert (w3 = set_heap (<[platform := Device.Free (Device.take u d)]> (heap w2)) w2)
    as ->.
  { subst w3.
    change (run [SessionRequest draw; DeviceRequest type id u n; SessionClose id] w)
      with (serve (SessionClose id) (serve (DeviceRequest type id u n) w1)).
    by rewrite Hstep2, Hstep3. }
  set (w3' := set_heap _ w2).
  assert (∀ l, l ∈ _platforms (PLATFORMS w) → l ≠ platform →
               heap w3' !! l = heap w !! l) as Hother.
  { intros l Hl Hne. subst w3' w2 w1. simpl.
    rewrite !lookup_insert_ne; try done. by intros <-. }
  assert (heap w3' !! platform = Some (Device.Free (Device.take u d))) as Hp
    by (subst w3'; simpl; by rewrite lookup_insert_eq).
  assert (is_candidate type d = true) as Hcand.
  { assert (platform ∈ candidate_platforms type w) as Hin
      by by eapply list_elem_of_lookup_2.
    apply elem_of_candidate_platforms in Hin as (d' & [_ Hd'] & Hcand).
    destruct Hreg as [_ Hd]. congruence. }
  apply is_candidate_true in Hcand as (_ & Hfree & _).
  split; [split; [apply Hreg|done]|]. split; [|split; [|split]].
  - intros Huser. apply records_ext; [done|]. intros l Hl.
    destruct (decide (l = platform)) as [->|Hne]; [|by apply Hother].
    destruct Hreg as [_ Hd]. rewrite Hp, Hd. f_equal. by apply Free_take_fresh.
  - intros type'. apply candidate_platforms_ext; [done|]. intros l Hl.
    destruct (decide (l = platform)) as [->|Hne]; [|by rewrite Hother].
    destruct Hreg as [_ Hd]. rewrite Hp, Hd. simpl. f_equal.
    destruct (Free_take_candidate type' u d) as [?|Htaken]; [done|congruence].
  - subst w3' w2 w1 id. simpl. by rewrite insert_insert_eq.
  - done.
Qed.

Lemma open_lease_close_restores_witness :
  records (run [SessionRequest (fun _ => 0%nat);
                DeviceRequest "nucleo_f746zg" Example.X "alice" 1;
                SessionClose Example.X] Example.w0) = records Example.w0.
Proof.
  assert (registered Example.w0 2%positive (Example.board "S1")) as Hreg
    by (split; [vm_compute; right; left|reflexivity]).
  assert (∀ num, (num < SESSION_NUM_MAX_LEN)%nat → (0 ≤ 9)%nat) as Hdraw
    by (intros num _; lia).
  assert ("nucleo_f746zg"%string ≠ ""%string) as Ht by discriminate.
  assert ("alice"%string ≠ ""%string) as Hu by discriminate.
  pose proof (open_lease_close_restores (fun _ => 0%nat) "nucleo_f746zg" "alice"
                1 Example.w0 2%positive (Example.board "S1")
                (reachable_wf _ Example_w0_reachable) Ht Hu Hdraw eq_refl Hreg)
    as (_ & Hrecords & _).
  exact (Hrecords eq_refl).
Defined.

(** ** What serving requests never changes *)

Lemma run_cons r rs w : run (r :: rs) w = run rs (serve r w).
Proof. done. Qed.

Lemma wf_run_requests rs w : wf w → wf (run rs w).
Proof.
  revert w. induction rs as [|r rs IH]; intros w Hwf; [done|].
  rewrite run_cons. by apply IH, wf_serve.
Qed.

Lemma GetType_ext w w' sn :
  _platforms (PLATFORMS w') = _platforms (PLATFORMS w) →
  (∀ l d, registered w l d →
          ∃ d', heap w' !! l = Some d' ∧ _type d' = _type d ∧
                _serial_number d' = _serial_number d) →
  wf w → GetType sn w' = GetType sn w.
Proof.
  intros Hp Hh Hwf. unfold GetType. rewrite Hp.
  pose proof (wf_alive _ Hwf) as Halive. revert Halive Hh. unfold registered.
  generalize (_platforms (PLATFORMS w)). intros ls.
  induction ls as [|a ls IH]; intros Halive Hh; [done|]. simpl.
  destruct (Halive a (list_elem_of_here _ _)) as [d Hd]. rewrite Hd.
  destruct (Hh a d (conj (list_elem_of_here _ _) Hd)) as (d' & Hd' & Ht & Hsn).
  rewrite Hd'. unfold has_serial, Device.GetSerialNumber. rewrite Hsn.
  destruct (String.eqb (_serial_number d) sn).
  - rewrite Hd, Hd'. simpl. by rewrite Ht.
  - apply IH.
    + intros l Hl. apply Halive. by right.
    + intros l d0 [Hl Hd0]. apply Hh. split; [by right|done].
Qed.

(** The inventory is fixed while the server runs: no sequence of requests
    adds or removes a device or changes the type, serial number, VID or PID
    of a registered record, so the type that [GetType] reports for a
    serial number never changes. *)
Theorem requests_keep_inventory (rs : list request) (w : world) :
  wf w →
  _platforms (PLATFORMS (run rs w)) = _platforms (PLATFORMS w) ∧
  _serial_numbers (PLATFORMS (run rs w)) = _serial_numbers (PLATFORMS w) ∧
  (∀ l d, registered w l d →
     ∃ d', registered (run rs w) l d' ∧
           _type d' = _type d ∧ _serial_number d' = _serial_number d ∧
           _vid_hex d' = _vid_hex d ∧ _pid_hex d' = _pid_hex d) ∧
  (∀ sn, GetType sn (run rs w) = GetType sn w).
Proof.
  revert w. induction rs as [|r rs IH]; intros w Hwf.
  { split; [done|]. split; [done|]. split; [|done]. intros l d Hreg. by exists d. }
  rewrite run_cons.
  destruct (serve_frame r w Hwf) as (Hp & Hs & Hf).
  destruct (IH (serve r w) (wf_serve r w Hwf)) as (Hp' & Hs' & Hf' & Hg').
  split; [congruence|]. split; [congruence|]. split.
  - intros l d Hreg. destruct (Hf l d Hreg) as (d1 & Hreg1 & Ht & Hsn & Hv & Hpid & _).
    destruct (Hf' l d1 Hreg1) as (d2 & Hreg2 & Ht2 & Hsn2 & Hv2 & Hpid2).
    exists d2. split; [done|]. repeat split; congruence.
  - intros sn. rewrite Hg'. apply GetType_ext; [done| |done].
    intros l d Hreg. destruct (Hf l d Hreg) as (d1 & [_ Hd1] & Ht & Hsn & _).
    by exists d1.
Qed.

Lemma requests_keep_inventory_witness :
  GetType "S1" (run [DeviceRelease "nucleo_f746zg" "S1";
                     DeviceRequestDisable "S1"] Example.w2) =
  GetType "S1" Example.w2.
Proof.
  destruct (requests_keep_inventory
              [DeviceRelease "nucleo_f746zg" "S1"; DeviceRequestDisable "S1"]
              Example.w2 (reachable_wf _ Example_w2_reachable))
    as (_ & _ & _ & Hg).
  apply Hg.
Defined.

(** ** Taken flag and user go together *)

Lemma served_coherent r d d' :
  served r d d' →
  (_is_taken d = false ↔ _user d = None) →
  (_is_taken d' = false ↔ _user d' = None).
Proof.
  intros (_ & _ & _ & _ & _ & Hlease) Hd.
  destruct r; try (destruct Hlease as [-> ->]; done).
  - destruct Hlease as [->| ->]; done.
  - destruct Hlease as [->|[_ ->]]; done.
  - destruct Hlease as [->| ->]; done.
Qed.

Lemma run_coherent rs w :
  wf w →
  (∀ l d, registered w l d → (_is_taken d = false ↔ _user d = None)) →
  ∀ l d, registered (run rs w) l d → (_is_taken d = false ↔ _user d = None).
Proof.
  revert w. induction rs as [|r rs IH]; intros w Hwf Hw; [done|].
  rewrite run_cons. apply IH; [by apply wf_serve|].
  intros l d' Hreg. destruct (serve_registered_inv r w l d' Hwf Hreg)
    as (d & Hd & Hs).
  apply (served_coherent r d d' Hs). by apply (Hw l).
Qed.

Lemma LoadDeviceTable_records_init data :
  wf (LoadDeviceTable data) ∧
  ∀ d, d ∈ records (LoadDeviceTable data) →
       ∃ t sn v p, d = Device.init t sn v p.
Proof.
  unfold LoadDeviceTable. rewrite add_table_devices. split.
  - apply wf_foldl_register, wf_empty.
  - intros d Hd. apply foldl_register_first in Hd as (i & Hi & _).
    apply list_elem_of_lookup_2, elem_of_table_devices in Hi
      as (entry & item & _ & _ & ->). by eexists _, _, _, _.
Qed.

(** In a server that was started from a device table, a registered record
    is not taken exactly when it has no user, after any requests: the two
    fields are always written together. *)
Theorem taken_iff_user (data : list (string * config)) (rs : list request) :
  ∀ l d, registered (run rs (LoadDeviceTable data)) l d →
         (_is_taken d = false ↔ _user d = None).
Proof.
  destruct (LoadDeviceTable_records_init data) as [Hwf Hinit].
  apply run_coherent; [done|]. intros l d Hreg.
  destruct (Hinit d) as (t & sn & v & p & ->); [|done].
  apply elem_of_records. eauto.
Qed.

Lemma taken_iff_user_witness :
  _is_taken (Device.take "alice" (Example.board "S1")) = false ↔
  _user (Device.take "alice" (Example.board "S1")) = None.
Proof.
  apply (taken_iff_user Example.table
           [SessionRequest (fun _ => 0%nat);
            DeviceRequest "nucleo_f746zg" Example.X "alice" 1] 2%positive).
  split; [vm_compute; right; left|reflexivity].
Defined.

(** ** One holder at a time *)

(** As long as no [RPCDeviceRelease] and no [RPCSessionClose] is served, a
    record that is taken stays taken by the same user: no request hands a
    leased device to another requester. *)
Theorem lease_holder_stable (rs : list request) (w : world) (l : loc)
    (d : MicroDevice) :
  wf w → Forall (λ r, ¬ releases (Serve r)) rs →
  registered w l d → _is_taken d = true →
  ∃ d', registered (run rs w) l d' ∧
        _is_taken d' = true ∧ _user d' = _user d.
Proof.
  intros Hwf Hrs. revert w d Hwf.
  induction Hrs as [|r rs Hr _ IH]; intros w d Hwf Hreg Htaken.
  { by exists d. }
  rewrite run_cons.
  destruct (serve_frame r w Hwf) as (_ & _ & Hf).
  destruct (Hf l d Hreg) as (d1 & Hreg1 & _ & _ & _ & _ & _ & Hlease).
  assert (_is_taken d1 = true ∧ _user d1 = _user d) as [Ht1 Hu1].
  { destruct r; try (destruct Hlease as [-> ->]; done); try (by destruct Hr).
    destruct Hlease as [->|[Hfree _]]; [done|congruence]. }
  destruct (IH (serve r w) d1 (wf_serve r w Hwf) Hreg1 Ht1) as (d' & ? & ? & ?).
  exists d'. split; [done|]. split; [done|congruence].
Qed.

Lemma lease_holder_stable_witness :
  ∃ d', registered
          (run [DeviceRequest "nucleo_f746zg" Example.X "bob" 0;
                DeviceRequestDisable "S1"] Example.w2) 2%positive d' ∧
        _is_taken d' = true ∧ _user d' = Some "alice"%string.
Proof.
  apply (lease_holder_stable
           [DeviceRequest "nucleo_f746zg" Example.X "bob" 0;
            DeviceRequestDisable "S1"] Example.w2 2%positive
           (Device.take "alice" (Example.board "S1"))).
  - apply reachable_wf, Example_w2_reachable.
  - repeat constructor; by intros [].
  - split; [vm_compute; right; left|reflexivity].
  - reflexivity.
Defined.

(** ** Enabling, disabling and releasing compose *)

Lemma alter_alter_same (f g : MicroDevice → MicroDevice)
    (h : gmap loc MicroDevice) l :
  alter f l (alter g l h) = alter (f ∘ g) l h.
Proof.
  apply map_eq. intros k. destruct (decide (l = k)) as [->|Hne].
  - rewrite !lookup_alter_eq. by destruct (h !! k).
  - by rewrite !lookup_alter_ne.
Qed.

Lemma alter_ext_fun (f g : MicroDevice → MicroDevice)
    (h : gmap loc MicroDevice) l :
  (∀ d, f d = g d) → alter f l h = alter g l h.
Proof.
  intros Hfg. apply map_eq. intros k. destruct (decide (l = k)) as [->|Hne].
  - rewrite !lookup_alter_eq. destruct (h !! k); simpl; [|done]. by rewrite Hfg.
  - by rewrite !lookup_alter_ne.
Qed.

Lemma alter_swap (f g : MicroDevice → MicroDevice)
    (h : gmap loc MicroDevice) l l' :
  (∀ d, f (g d) = g (f d)) →
  alter f l (alter g l' h) = alter g l' (alter f l h).
Proof.
  intros Hfg. apply map_eq. intros k.
  destruct (decide (l = k)) as [->|Hne]; destruct (decide (l' = k)) as [->|Hne'].
  - rewrite !lookup_alter_eq. destruct (h !! k); simpl; [|done]. by rewrite Hfg.
  - rewrite lookup_alter_eq, !lookup_alter_ne, lookup_alter_eq by done. done.
  - rewrite lookup_alter_ne, !lookup_alter_eq, lookup_alter_ne by done. done.
  - by rewrite !lookup_alter_ne.
Qed.

(** The enabled flag and the lease are independent, and the last write of
    the flag wins: enabling or disabling twice is the second call alone,
    disabling and enabling again a record that was enabled gives the state
    back, and [EnablePlatform] and [ReleasePlatform], for the same serial
    number or for two, give the same state in either order. *)
Theorem EnablePlatform_composes (serial_number : string) (w : world) :
  (∀ b1 b2,
     EnablePlatform serial_number b2 (EnablePlatform serial_number b1 w).2 =
     EnablePlatform serial_number b2 w) ∧
  (∀ l d, wf w → registered w l d → _serial_number d = serial_number →
          _enabled d = true →
          (EnablePlatform serial_number true
             (EnablePlatform serial_number false w).2).2 = w) ∧
  (∀ b sn',
     (ReleasePlatform sn' (EnablePlatform serial_number b w).2).2 =
     (EnablePlatform serial_number b (ReleasePlatform sn' w).2).2).
Proof.
  assert (∀ b1 b2,
     EnablePlatform serial_number b2 (EnablePlatform serial_number b1 w).2 =
     EnablePlatform serial_number b2 w) as Hlast.
  { intros b1 b2. unfold EnablePlatform.
    destruct (first_platform _ (heap w) _) as [p|] eqn:E; simpl.
    - rewrite first_platform_alter by done. rewrite E. f_equal.
      unfold set_heap. simpl. f_equal. rewrite alter_alter_same.
      by apply alter_ext_fun.
    - by rewrite E. }
  split; [done|]. split.
  - intros l d Hwf Hreg <- Hen. rewrite Hlast.
    rewrite (EnablePlatform_registered w l d true Hwf Hreg). simpl.
    destruct w as [h P]. unfold set_heap. simpl. f_equal.
    apply insert_id. destruct Hreg as [_ Hd]. simpl in Hd. rewrite Hd.
    f_equal. destruct d. simpl in *. by rewrite Hen.
  - intros b sn'. unfold EnablePlatform, ReleasePlatform.
    destruct (first_platform (has_serial serial_number) (heap w) _) as [p|] eqn:E;
      destruct (first_platform (has_serial sn') (heap w) _) as [p'|] eqn:E';
      simpl; rewrite ?first_platform_alter by done; rewrite ?E, ?E'; simpl;
      try done.
    unfold set_heap. simpl. f_equal. by apply alter_swap.
Qed.

Lemma EnablePlatform_composes_witness :
  (EnablePlatform "S1" true (EnablePlatform "S1" false Example.w2).2).2 =
  Example.w2.
Proof.
  destruct (EnablePlatform_composes "S1" Example.w2) as (_ & Hback & _).
  apply (Hback 2%positive (Device.take "alice" (Example.board "S1")));
    [|split; [vm_compute; right; left|reflexivity]|reflexivity..].
  apply reachable_wf, Example_w2_reachable.
Defined.

(** * Discovery *)

(** ** The objects that [ListConnectedDevices] creates *)

Lemma scanned_Some md device :
  is_Some (device !! "SerialNumber"%string) →
  is_Some (device !! "Current State"%string) →
  ∃ sn st, device !! "SerialNumber"%string = Some sn ∧
           device !! "Current State"%string = Some st ∧
           scanned md device =
             Some (if String.eqb st "Captured"
                   then Device.SetUser None
                          (Device.init (_type md) sn (_vid_hex md) (_pid_hex md))
                   else Device.init (_type md) sn (_vid_hex md) (_pid_hex md)).
Proof.
  intros [sn Hsn] [st Hst]. exists sn, st. unfold scanned. by rewrite Hsn, Hst.
Qed.

Lemma device_list_cons micro_device device devices w md sn st :
  heap w !! micro_device = Some md →
  device !! "SerialNumber"%string = Some sn →
  device !! "Current State"%string = Some st →
  device_list micro_device (device :: devices) w =
  let l := fresh (dom (heap w)) in
  let w1 :=
    set_heap (<[l := Device.init (_type md) sn (_vid_hex md) (_pid_hex md)]>
                (heap w)) w in
  let w2 :=
    if String.eqb st "Captured"
    then set_heap (alter (Device.SetUser None) l (heap w1)) w1 else w1 in
  match device_list micro_device devices w2 with
  | (Return ls, w3) => (Return (l :: ls), w3)
  | (Raise e, w3) => (Raise e, w3)
  end.
Proof. intros H1 H2 H3. simpl. by rewrite H1, H2, H3. Qed.

Lemma device_list_spec micro_device md devices w :
  heap w !! micro_device = Some md → parsed_ok devices →
  ∃ ls w',
    device_list micro_device devices w = (Return ls, w') ∧
    PLATFORMS w' = PLATFORMS w ∧
    (∀ l, is_Some (heap w !! l) → heap w' !! l = heap w !! l) ∧
    (∀ l, is_Some (heap w' !! l) → is_Some (heap w !! l) ∨ l ∈ ls) ∧
    NoDup ls ∧
    (∀ l, l ∈ ls → heap w !! l = None) ∧
    Forall2 (λ l device, heap w' !! l = scanned md device ∧
                         is_Some (scanned md device)) ls devices.
Proof.
  revert w. induction devices as [|device devices IH]; intros w Hmd Hok.
  { exists [], w. simpl. repeat split; try done; try constructor; auto.
    intros l Hl. inversion Hl. }
  destruct (Hok device (list_elem_of_here _ _)) as [Hsn Hst].
  destruct (scanned_Some md device Hsn Hst) as (sn & st & Esn & Est & Escan).
  rewrite (device_list_cons _ _ _ _ md sn st Hmd Esn Est).
  set (d0 := Device.init (_type md) sn (_vid_hex md) (_pid_hex md)) in *.
  set (l := fresh (dom (heap w))).
  assert (heap w !! l = None) as Hl by apply not_elem_of_dom, is_fresh.
  cbv zeta.
  set (w2 := if String.eqb st "Captured"
             then set_heap (alter (Device.SetUser None) l
                              (heap (set_heap (<[l:=d0]> (heap w)) w)))
                    (set_heap (<[l:=d0]> (heap w)) w)
             else set_heap (<[l:=d0]> (heap w)) w).
  assert (PLATFORMS w2 = PLATFORMS w) as HP2
    by (subst w2; by destruct (String.eqb st "Captured")).
  assert (∀ k, k ≠ l → heap w2 !! k = heap w !! k) as Hother.
  { intros k Hk. subst w2. destruct (String.eqb st "Captured"); simpl.
    - rewrite lookup_alter_ne, lookup_insert_ne; done.
    - by rewrite lookup_insert_ne. }
  assert (heap w2 !! l = scanned md device) as Hnew.
  { rewrite Escan. subst w2. destruct (String.eqb st "Captured"); simpl.
    - by rewrite lookup_alter_eq, lookup_insert_eq.
    - by rewrite lookup_insert_eq. }
  assert (l ≠ micro_device) as Hne by (intros ->; congruence).
  destruct (IH w2) as (ls & w' & E & HP & Hold & Hdom & Hnd & Hfresh & Hall).
  { by rewrite Hother. }
  { intros dev Hdev. apply Hok. by right. }
  rewrite E. exists (l :: ls), w'. split; [done|]. split; [congruence|].
  split; [|split; [|split; [|split]]].
  - intros k Hk. assert (k ≠ l) as Hkl by (intros ->; rewrite Hl in Hk; by destruct Hk).
    rewrite Hold, Hother; [done|done|]. by rewrite Hother.
  - intros k Hk. destruct (decide (k = l)) as [->|Hkl]; [right; left|].
    destruct (Hdom k Hk) as [H2|Hin]; [|right; by right].
    left. by rewrite <- Hother.
  - constructor; [|done]. intros Hin. specialize (Hfresh l Hin).
    rewrite Hnew, Escan in Hfresh. done.
  - intros k Hk. apply elem_of_cons in Hk as [->|Hk]; [done|].
    specialize (Hfresh k Hk). destruct (decide (k = l)) as [->|Hkl]; [done|].
    by rewrite <- Hother.
  - constructor; [|done]. split; [|by rewrite Escan].
    rewrite Hold; [done|]. rewrite Hnew, Escan. done.
Qed.

Lemma device_list_KeyError micro_device md devices w :
  heap w !! micro_device = Some md → ¬ parsed_ok devices →
  ∃ key w', device_list micro_device devices w = (Raise (KeyError key), w') ∧
            PLATFORMS w' = PLATFORMS w ∧
            (∀ l, is_Some (heap w !! l) → heap w' !! l = heap w !! l).
Proof.
  revert w. induction devices as [|device devices IH]; intros w Hmd Hbad.
  { destruct Hbad. intros dev Hdev. inversion Hdev. }
  set (l := fresh (dom (heap w))).
  assert (heap w !! l = None) as Hl by apply not_elem_of_dom, is_fresh.
  destruct (device !! "SerialNumber"%string) as [sn|] eqn:Esn.
  2:{ simpl. rewrite Hmd, Esn. eexists _, w. by repeat split. }
  destruct (device !! "Current State"%string) as [st|] eqn:Est.
  2:{ simpl. rewrite Hmd, Esn, Est. eexists _, _. split; [done|]. split; [done|].
      intros k Hk. simpl. rewrite lookup_insert_ne; [done|].
      intros Heq. fold l in Heq. subst k. rewrite Hl in Hk. by destruct Hk. }
  rewrite (device_list_cons _ _ _ _ md sn st Hmd Esn Est). cbv zeta. fold l.
  set (d0 := Device.init (_type md) sn (_vid_hex md) (_pid_hex md)) in *.
  set (w2 := if String.eqb st "Captured"
             then set_heap (alter (Device.SetUser None) l
                              (heap (set_heap (<[l:=d0]> (heap w)) w)))
                    (set_heap (<[l:=d0]> (heap w)) w)
             else set_heap (<[l:=d0]> (heap w)) w).
  assert (PLATFORMS w2 = PLATFORMS w) as HP2
    by (subst w2; by destruct (String.eqb st "Captured")).
  assert (∀ k, k ≠ l → heap w2 !! k = heap w !! k) as Hother.
  { intros k Hk. subst w2. destruct (String.eqb st "Captured"); simpl.
    - rewrite lookup_alter_ne, lookup_insert_ne; done.
    - by rewrite lookup_insert_ne. }
  assert (l ≠ micro_device) as Hne by (intros Heq; rewrite Heq in Hl; congruence).
  destruct (IH w2) as (key & w' & E & HP & Hold).
  { by rewrite Hother. }
  { intros Hok. apply Hbad. intros dev Hdev.
    apply elem_of_cons in Hdev as [->|Hdev]; [|by apply Hok].
    rewrite Esn, Est. by split. }
  rewrite E. exists key, w'. split; [done|]. split; [congruence|].
  intros k Hk. assert (k ≠ l) as Hkl by (intros ->; rewrite Hl in Hk; by destruct Hk).
  rewrite Hold, Hother; [done|done|]. by rewrite Hother.
Qed.

(** ** The loop that removes repetitions *)

Section Refined.
Context (h : gmap loc MicroDevice) (dl : list loc).
Hypothesis dl_alive : ∀ l, l ∈ dl → is_Some (h !! l).

(** The devices of the list with serial number [sn]. *)
Local Abbreviation with_serial sn :=
  (List.filter (fun l2 => bool_decide (Some sn = serial_of h l2)) dl).

Lemma elem_of_with_serial sn l :
  l ∈ with_serial sn ↔ l ∈ dl ∧ serial_of h l = Some sn.
Proof.
  rewrite list_elem_of_In, filter_In, <- list_elem_of_In, bool_decide_eq_true.
  split; intros [? ?]; by split.
Qed.

(** What [l'] has to satisfy to be appended for serial number [sn]. *)
Local Abbreviation kept sn l' :=
  (taken_in h l' = true ∨
   ((∀ l, l ∈ dl → serial_of h l = Some sn → taken_in h l = false) ∧
    last (with_serial sn) = Some l')).

Lemma elem_of_refined_for device_1 sn l' :
  device_1 ∈ dl → serial_of h device_1 = Some sn →
  l' ∈ refined_for h (temp_devices h dl device_1) device_1 ↔
  l' ∈ dl ∧ serial_of h l' = Some sn ∧ kept sn l'.
Proof.
  intros Hin Hsn. unfold refined_for, temp_devices. rewrite Hsn.
  assert (device_1 ∈ with_serial sn) as Hfirst by by apply elem_of_with_serial.
  assert (∀ l, l ∈ device_1 :: with_serial sn ↔ l ∈ dl ∧ serial_of h l = Some sn)
    as Htemp.
  { intros l. rewrite elem_of_cons, elem_of_with_serial. split; [|auto].
    intros [->|?]; [by split|done]. }
  assert (∀ l, l ∈ List.filter (taken_in h) (device_1 :: with_serial sn) ↔
               (l ∈ dl ∧ serial_of h l = Some sn) ∧ taken_in h l = true) as Htaken.
  { intros l. rewrite list_elem_of_In, filter_In, <- list_elem_of_In, Htemp. done. }
  destruct (List.filter (taken_in h) (device_1 :: with_serial sn))
    as [|t ts] eqn:ET.
  - assert (∀ l, l ∈ dl → serial_of h l = Some sn → taken_in h l = false) as Hnone.
    { intros l Hl Hs. destruct (taken_in h l) eqn:E; [|done].
      assert (l ∈ []) as Hbad by (apply Htaken; by repeat split). inversion Hbad. }
    rewrite last_cons.
    destruct (last (with_serial sn)) as [lF|] eqn:EF.
    2:{ apply last_None in EF. rewrite EF in Hfirst. inversion Hfirst. }
    simpl. rewrite list_elem_of_singleton. split.
    + intros ->. assert (lF ∈ with_serial sn) as HlF.
      { apply last_Some in EF as [pre ->]. apply elem_of_app. right. left. }
      apply elem_of_with_serial in HlF as [? ?]. repeat split; try done.
      right. by split.
    + intros (Hl' & Hs' & [Ht|[_ Hlast]]); [|congruence].
      rewrite (Hnone l' Hl' Hs') in Ht. done.
  - rewrite Htaken. split.
    + intros [[? ?] ?]. repeat split; try done. by left.
    + intros (Hl' & Hs' & [Ht|[Hnone _]]); [done|].
      assert (t ∈ t :: ts) as Hbad by left.
      apply Htaken in Hbad as [[Hd Hs] Ht]. rewrite (Hnone t Hd Hs) in Ht. done.
Qed.

Lemma elem_of_refined_list todo seen l' :
  (∀ l, l ∈ todo → l ∈ dl) →
  l' ∈ refined_list h dl todo seen ↔
  ∃ sn, l' ∈ dl ∧ serial_of h l' = Some sn ∧ (sn ∉ seen) ∧
        (∃ l, l ∈ todo ∧ serial_of h l = Some sn) ∧ kept sn l'.
Proof.
  revert seen. induction todo as [|device_1 todo IH]; intros seen Hsub.
  { simpl. split; [intros H; inversion H|].
    intros (sn & _ & _ & _ & (l & Hl & _) & _). inversion Hl. }
  assert (∀ l, l ∈ todo → l ∈ dl) as Hsub' by (intros l Hl; apply Hsub; by right).
  assert (device_1 ∈ dl) as Hd1 by (apply Hsub; left).
  destruct (dl_alive device_1 Hd1) as [d1 Hh1].
  assert (serial_of h device_1 = Some (_serial_number d1)) as Hs1
    by (unfold serial_of; by rewrite Hh1).
  simpl. rewrite Hs1. destruct (decide _) as [Hseen|Hnew].
  - rewrite (IH seen Hsub'). split.
    + intros (sn & ? & ? & ? & (l & Hl & Hs) & ?). exists sn. repeat split; try done.
      exists l. split; [by right|done].
    + intros (sn & ? & ? & Hnot & (l & Hl & Hs) & ?). exists sn. repeat split; try done.
      apply elem_of_cons in Hl as [->|Hl]; [|eauto].
      rewrite Hs1 in Hs. injection Hs as <-. done.
  - rewrite elem_of_app, (elem_of_refined_for device_1 _ l' Hd1 Hs1),
      (IH _ Hsub'). split.
    + intros [(? & ? & ?)|(sn & ? & ? & Hnot & (l & Hl & Hs) & ?)].
      * exists (_serial_number d1). repeat split; try done.
        exists device_1. split; [left|done].
      * exists sn. repeat split; try done.
        -- intros Hin. apply Hnot, elem_of_app. by left.
        -- exists l. split; [by right|done].
    + intros (sn & ? & ? & Hnot & (l & Hl & Hs) & ?).
      destruct (decide (sn = _serial_number d1)) as [->|Hne]; [by left|].
      right. exists sn. repeat split; try done.
      * intros Hin. apply elem_of_app in Hin as [?|Hin]; [done|].
        apply list_elem_of_singleton in Hin. done.
      * apply elem_of_cons in Hl as [->|Hl]; [|eauto].
        rewrite Hs1 in Hs. injection Hs as <-. done.
Qed.

(** The whole list: an object is kept when it is taken, or when it is the
    last of the list with its serial number and none with that serial
    number is taken. *)
Lemma elem_of_refined_all l' :
  l' ∈ refined_list h dl dl [] ↔
  ∃ sn, l' ∈ dl ∧ serial_of h l' = Some sn ∧ kept sn l'.
Proof.
  rewrite elem_of_refined_list by done. split.
  - intros (sn & ? & ? & _ & _ & ?). eauto.
  - intros (sn & Hl & Hs & Hk). exists sn. repeat split; try done.
    + apply not_elem_of_nil.
    + eauto.
Qed.

End Refined.

(** When the first device of the list is taken, it is appended twice. *)
Lemma refined_list_first_taken_twice (h : gmap loc MicroDevice) l1 rest d1 :
  h !! l1 = Some d1 → _is_taken d1 = true →
  ∃ more, refined_list h (l1 :: rest) (l1 :: rest) [] = l1 :: l1 :: more.
Proof.
  intros Hd1 Htaken.
  assert (serial_of h l1 = Some (_serial_number d1)) as Hs1
    by (unfold serial_of; by rewrite Hd1).
  assert (taken_in h l1 = true) as Ht1 by (unfold taken_in; by rewrite Hd1).
  cbn [refined_list]. rewrite Hs1.
  destruct (decide _) as [Hin|_]; [inversion Hin|].
  unfold refined_for, temp_devices.
  cbn [List.filter]. rewrite bool_decide_eq_true_2 by done.
  cbn [List.filter]. rewrite Ht1. by eexists.
Qed.

(** ** [ListConnectedDevices] *)

Lemma scanned_inv md device d :
  scanned md device = Some d →
  device !! "SerialNumber"%string = Some (_serial_number d) ∧
  (_is_taken d = true ↔ device !! "Current State"%string = Some "Captured"%string) ∧
  _type d = _type md ∧ _vid_hex d = _vid_hex md ∧ _pid_hex d = _pid_hex md ∧
  _enabled d = true ∧
  (_is_taken d = true → _user d = Some "Unknown"%string) ∧
  (_is_taken d = false → _user d = None).
Proof.
  unfold scanned.
  destruct (device !! "SerialNumber"%string) as [sn|]; [|done].
  destruct (device !! "Current State"%string) as [st|]; [|done].
  destruct (String.eqb_spec st "Captured") as [->|Hne]; intros [= <-]; simpl.
  - repeat split; done.
  - repeat split; try done. intros [= ->]. done.
Qed.

Lemma Forall2_scanned_l (h : gmap loc MicroDevice) md ls devices l :
  Forall2 (λ l device, h !! l = scanned md device ∧
                       is_Some (scanned md device)) ls devices →
  l ∈ ls →
  ∃ device d, device ∈ devices ∧ scanned md device = Some d ∧ h !! l = Some d.
Proof.
  intros HF Hl. apply list_elem_of_lookup_1 in Hl as [i Hi].
  destruct (Forall2_lookup_l _ _ _ _ _ HF Hi) as (device & Hdev & Hh & [d Hd]).
  exists device, d. split; [by eapply list_elem_of_lookup_2|]. split; [done|].
  by rewrite Hh.
Qed.

Lemma Forall2_scanned_r (h : gmap loc MicroDevice) md ls devices device :
  Forall2 (λ l device, h !! l = scanned md device ∧
                       is_Some (scanned md device)) ls devices →
  device ∈ devices →
  ∃ l d, l ∈ ls ∧ scanned md device = Some d ∧ h !! l = Some d.
Proof.
  intros HF Hdev. apply list_elem_of_lookup_1 in Hdev as [i Hi].
  destruct (Forall2_lookup_r _ _ _ _ _ HF Hi) as (l & Hl & Hh & [d Hd]).
  exists l, d. split; [by eapply list_elem_of_lookup_2|]. split; [done|].
  by rewrite Hh.
Qed.

(** Every serial number of the list is kept. *)
Lemma refined_list_covers (h : gmap loc MicroDevice) (ls : list loc) l0 sn :
  (∀ l, l ∈ ls → is_Some (h !! l)) →
  l0 ∈ ls → serial_of h l0 = Some sn →
  ∃ l, l ∈ refined_list h ls ls [] ∧ serial_of h l = Some sn.
Proof.
  intros Halive Hl0 Hs0.
  pose proof (elem_of_refined_all h ls Halive) as Hchar.
  destruct (List.filter (taken_in h)
              (List.filter (fun l2 => bool_decide (Some sn = serial_of h l2)) ls))
    as [|t ts] eqn:ET.
  - assert (∀ l, l ∈ ls → serial_of h l = Some sn → taken_in h l = false)
      as Hnone.
    { intros l Hl Hs. destruct (taken_in h l) eqn:Et; [|done].
      assert (l ∈ []) as Hbad; [|inversion Hbad].
      rewrite <- ET, list_elem_of_In, filter_In, <- list_elem_of_In.
      split; [|done]. by apply elem_of_with_serial. }
    destruct (last (List.filter
                (fun l2 => bool_decide (Some sn = serial_of h l2)) ls))
      as [lF|] eqn:EF.
    2:{ apply last_None in EF.
        assert (l0 ∈ []) as Hbad; [|inversion Hbad].
        rewrite <- EF. by apply elem_of_with_serial. }
    assert (lF ∈ ls ∧ serial_of h lF = Some sn) as [HlF HsF].
    { apply elem_of_with_serial. apply last_Some in EF as [pre ->].
      apply elem_of_app. right. left. }
    exists lF. split; [|done].
    apply Hchar. exists sn. repeat split; try done. by right.
  - assert (t ∈ t :: ts) as Ht by left.
    rewrite <- ET, list_elem_of_In, filter_In, <- list_elem_of_In in Ht.
    destruct Ht as [Hin Htaken]. apply elem_of_with_serial in Hin as [Hin Hs].
    exists t. split; [|done].
    apply Hchar. exists sn. repeat split; try done. by left.
Qed.

(** [ListConnectedDevices] returns new objects only and leaves every
    existing object and the registry as they are.  When every parsed device
    has a serial number and a state: each returned object carries the type,
    VID and PID of [micro_device] and the serial number of a parsed device;
    every parsed serial number is returned; a returned object is taken (by
    ["Unknown"]) exactly when some parsed device with its serial number is
    ["Captured"], so a captured listing wins over the others; a serial
    number that is not captured is returned as one object.  The repetition
    of a captured device is not removed: when the first parsed device is
    captured, its object is returned twice.  A parsed device without one
    of the two fields makes the call raise [KeyError]. *)
Theorem ListConnectedDevices_found (devices : list usb_device)
    (micro_device : loc) (md : MicroDevice) (w : world) :
  heap w !! micro_device = Some md →
  (parsed_ok devices →
   ∃ found w',
     ListConnectedDevices devices micro_device w = (Return found, w') ∧
     PLATFORMS w' = PLATFORMS w ∧
     (∀ l, is_Some (heap w !! l) → heap w' !! l = heap w !! l) ∧
     (∀ l, l ∈ found →
           heap w !! l = None ∧
           ∃ device d, device ∈ devices ∧ scanned md device = Some d ∧
                       heap w' !! l = Some d) ∧
     (∀ device sn, device ∈ devices →
        device !! "SerialNumber"%string = Some sn →
        ∃ l d, l ∈ found ∧ heap w' !! l = Some d ∧ _serial_number d = sn) ∧
     (∀ l d, l ∈ found → heap w' !! l = Some d →
        (_is_taken d = true ↔
         ∃ device, device ∈ devices ∧
           device !! "SerialNumber"%string = Some (_serial_number d) ∧
           device !! "Current State"%string = Some "Captured"%string)) ∧
     (∀ l1 l2 d1 d2, l1 ∈ found → l2 ∈ found →
        heap w' !! l1 = Some d1 → heap w' !! l2 = Some d2 →
        _serial_number d1 = _serial_number d2 → _is_taken d1 = false →
        l1 = l2) ∧
     (∀ device rest, devices = device :: rest →
        device !! "Current State"%string = Some "Captured"%string →
        ∃ l more, found = l :: l :: more)) ∧
  (¬ parsed_ok devices →
   ∃ key w',
     ListConnectedDevices devices micro_device w = (Raise (KeyError key), w') ∧
     PLATFORMS w' = PLATFORMS w ∧
     (∀ l, is_Some (heap w !! l) → heap w' !! l = heap w !! l)).
Proof.
  intros Hmd. split.
  2:{ intros Hbad.
      destruct (device_list_KeyError micro_device md devices w Hmd Hbad)
        as (key & w' & E & HP & Hold).
      exists key, w'. unfold ListConnectedDevices. by rewrite E. }
  intros Hok.
  destruct (device_list_spec micro_device md devices w Hmd Hok)
    as (ls & w' & E & HP & Hold & _ & Hnd & Hfresh & HF).
  exists (refined_list (heap w') ls ls []), w'.
  split; [unfold ListConnectedDevices; by rewrite E|].
  split; [done|]. split; [done|].
  assert (∀ l, l ∈ ls → is_Some (heap w' !! l)) as Halive.
  { intros l Hl. destruct (Forall2_scanned_l _ _ _ _ _ HF Hl) as (? & d & _ & _ & ->).
    by eexists. }
  pose proof (elem_of_refined_all (heap w') ls Halive) as Hchar.
  assert (∀ l d, heap w' !! l = Some d →
                 serial_of (heap w') l = Some (_serial_number d) ∧
                 taken_in (heap w') l = _is_taken d) as Hview.
  { intros l d Hd. unfold serial_of, taken_in. by rewrite Hd. }
  split; [|split; [|split; [|split]]].
  - intros l Hl. apply Hchar in Hl as (sn & Hl & _). split; [by apply Hfresh|].
    by apply (Forall2_scanned_l _ _ _ _ _ HF).
  - intros device sn Hdev Hsn.
    destruct (Forall2_scanned_r _ _ _ _ _ HF Hdev) as (l0 & d0 & Hl0 & Hscan & Hd0).
    destruct (scanned_inv _ _ _ Hscan) as (Hsn0 & _).
    assert (_serial_number d0 = sn) as <- by congruence.
    destruct (Hview l0 d0 Hd0) as [Hs0 _].
    destruct (refined_list_covers (heap w') ls l0 _ Halive Hl0 Hs0)
      as (l & Hl & Hs).
    assert (l ∈ ls) as Hin by (apply Hchar in Hl as (? & ? & _); done).
    destruct (Halive l Hin) as [d Hd]. exists l, d. split; [done|].
    split; [done|]. destruct (Hview l d Hd) as [Hs' _]. congruence.
  - intros l d Hl Hd. destruct (Hview l d Hd) as [Hs Ht].
    apply Hchar in Hl as (sn & Hl & Hs' & Hkept).
    assert (sn = _serial_number d) as -> by congruence.
    destruct (Forall2_scanned_l _ _ _ _ _ HF Hl) as (device & d' & Hdev & Hscan & Hd').
    assert (d' = d) as -> by congruence.
    destruct (scanned_inv _ _ _ Hscan) as (Hsn & Hcap & _).
    split.
    + intros Htaken. exists device. split; [done|]. split; [done|]. by apply Hcap.
    + intros (dev & Hdev' & Hsn' & Hcap').
      destruct (Forall2_scanned_r _ _ _ _ _ HF Hdev') as (lc & dc & Hlc & Hscanc & Hdc).
      destruct (scanned_inv _ _ _ Hscanc) as (Hsnc & Hcapc & _).
      destruct (Hview lc dc Hdc) as [Hsc Htc].
      destruct Hkept as [Hk|[Hnone _]]; [congruence|].
      assert (taken_in (heap w') lc = false) as Hfalse.
      { apply Hnone; [done|]. rewrite Hsc. congruence. }
      rewrite Htc, (proj2 Hcapc Hcap') in Hfalse. done.
  - intros l1 l2 d1 d2 Hl1 Hl2 Hd1 Hd2 Hsn Hfree.
    destruct (Hview l1 d1 Hd1) as [Hs1 Ht1]. destruct (Hview l2 d2 Hd2) as [Hs2 Ht2].
    apply Hchar in Hl1 as (sn1 & Hin1 & Hs1' & Hk1).
    apply Hchar in Hl2 as (sn2 & Hin2 & Hs2' & Hk2).
    assert (sn1 = _serial_number d1) as -> by congruence.
    assert (sn2 = _serial_number d1) as -> by congruence.
    destruct Hk1 as [Hk1|[Hnone Hlast1]]; [congruence|].
    destruct Hk2 as [Hk2|[_ Hlast2]]; [|congruence].
    rewrite (Hnone l2 Hin2) in Hk2; [done|congruence].
  - intros device rest -> Hcap.
    inversion HF as [|l1 dev ls' rest' [Hh1 [d1 Hscan1]] HF' Heq1 Heq2]. subst.
    destruct (scanned_inv _ _ _ Hscan1) as (_ & Hcap1 & _).
    destruct (refined_list_first_taken_twice (heap w') l1 ls' d1) as [more ->].
    + by rewrite Hh1.
    + by apply Hcap1.
    + by exists l1, more.
Qed.

Lemma ListConnectedDevices_found_witness :
  ∃ found w',
    ListConnectedDevices [Example.usb_captured; Example.usb_busy] 1%positive
      Example.w0 = (Return found, w') ∧
    ∃ l more, found = l :: l :: more.
Proof.
  destruct (ListConnectedDevices_found [Example.usb_captured; Example.usb_busy]
              1%positive (Example.board "S2") Example.w0 eq_refl) as [Hok _].
  destruct Hok as (found & w' & E & _ & _ & _ & _ & _ & _ & Htwice).
  - intros device Hdev.
    repeat (apply elem_of_cons in Hdev as [->|Hdev];
            [split; by eexists|]).
    inversion Hdev.
  - exists found, w'. split; [exact E|].
    apply (Htwice Example.usb_captured [Example.usb_busy]); reflexivity.
Defined.

(** ** [DeviceIsAlive] *)

(** [DeviceIsAlive(type, serial)] answers whether some parsed device has
    that serial number, whatever its state and whatever the type, when
    every parsed device has a serial number and a state; otherwise it
    raises [KeyError].  It creates objects but leaves the existing ones and
    the registry untouched. *)
Theorem DeviceIsAlive_parsed_serial (devices : list usb_device)
    (device_type serial : string) (w : world) :
  (parsed_ok devices →
   ∃ b w',
     DeviceIsAlive devices device_type serial w = (Return b, w') ∧
     (b = true ↔
      ∃ device, device ∈ devices ∧
                device !! "SerialNumber"%string = Some serial) ∧
     PLATFORMS w' = PLATFORMS w ∧
     (∀ l, is_Some (heap w !! l) → heap w' !! l = heap w !! l)) ∧
  (¬ parsed_ok devices →
   ∃ key w',
     DeviceIsAlive devices device_type serial w = (Raise (KeyError key), w') ∧
     PLATFORMS w' = PLATFORMS w ∧
     (∀ l, is_Some (heap w !! l) → heap w' !! l = heap w !! l)).
Proof.
  unfold DeviceIsAlive, new_object, ListConnectedDevices.
  set (md := Device.init device_type serial None None).
  set (m := fresh (dom (heap w))).
  set (w0 := set_heap (<[m := md]> (heap w)) w).
  assert (heap w !! m = None) as Hm by apply not_elem_of_dom, is_fresh.
  assert (heap w0 !! m = Some md) as Hmd by (subst w0; simpl; by rewrite lookup_insert_eq).
  assert (∀ l, is_Some (heap w !! l) → heap w0 !! l = heap w !! l ∧
                                         is_Some (heap w0 !! l)) as Hw0.
  { intros l Hl. assert (heap w0 !! l = heap w !! l) as ->; [|done].
    subst w0. simpl. rewrite lookup_insert_ne; [done|].
    intros <-. rewrite Hm in Hl. by destruct Hl. }
  split.
  - intros Hok.
    destruct (device_list_spec m md devices w0 Hmd Hok)
      as (ls & w' & E & HP & Hold & _ & Hnd & Hfresh & HF).
    rewrite E. eexists _, w'. split; [done|]. split; [|split; [done|]].
    2:{ intros l Hl. destruct (Hw0 l Hl) as [<- Hl0]. by apply Hold. }
    assert (∀ l, l ∈ ls → is_Some (heap w' !! l)) as Halive.
    { intros l Hl.
      destruct (Forall2_scanned_l _ _ _ _ _ HF Hl) as (? & d & _ & _ & ->).
      by eexists. }
    rewrite existsb_exists. split.
    + intros (l & Hl & Hs). apply bool_decide_eq_true in Hs.
      apply list_elem_of_In, (elem_of_refined_all _ _ Halive) in Hl
        as (sn & Hl & _).
      destruct (Forall2_scanned_l _ _ _ _ _ HF Hl)
        as (device & d & Hdev & Hscan & Hd).
      destruct (scanned_inv _ _ _ Hscan) as (Hsn & _).
      exists device. split; [done|]. unfold serial_of in Hs. rewrite Hd in Hs.
      simpl in Hs. unfold Device.GetSerialNumber in Hs. congruence.
    + intros (device & Hdev & Hsn).
      destruct (Forall2_scanned_r _ _ _ _ _ HF Hdev) as (l0 & d0 & Hl0 & Hscan & Hd0).
      destruct (scanned_inv _ _ _ Hscan) as (Hsn0 & _).
      assert (serial_of (heap w') l0 = Some serial) as Hs0.
      { unfold serial_of. rewrite Hd0. simpl. unfold Device.GetSerialNumber.
        congruence. }
      destruct (refined_list_covers (heap w') ls l0 serial Halive Hl0 Hs0)
        as (l & Hl & Hs).
      exists l. split; [by apply list_elem_of_In|]. by apply bool_decide_eq_true.
  - intros Hbad.
    destruct (device_list_KeyError m md devices w0 Hmd Hbad)
      as (key & w' & E & HP & Hold).
    rewrite E. exists key, w'. split; [done|]. split; [done|].
    intros l Hl. destruct (Hw0 l Hl) as [<- Hl0]. by apply Hold.
Qed.

Lemma DeviceIsAlive_parsed_serial_witness :
  ∃ b w',
    DeviceIsAlive [Example.usb_captured; Example.usb_busy] "nucleo_f746zg" "S2"
      Example.w0 = (Return b, w') ∧ b = true.
Proof.
  destruct (DeviceIsAlive_parsed_serial [Example.usb_captured; Example.usb_busy]
              "nucleo_f746zg" "S2" Example.w0) as [Hok _].
  destruct Hok as (b & w' & E & Hb & _).
  - intros device Hdev.
    repeat (apply elem_of_cons in Hdev as [->|Hdev];
            [split; by eexists|]).
    inversion Hdev.
  - exists b, w'. split; [exact E|]. apply Hb.
    exists Example.usb_busy. split; [right; left|reflexivity].
Defined.

(** ** [LoadAttachedDevices] *)

Lemma parsed_ok_dec devices : {parsed_ok devices} + {¬ parsed_ok devices}.
Proof.
  destruct (decide (Forall (λ device : usb_device,
              is_Some (device !! "SerialNumber"%string) ∧
              is_Some (device !! "Current State"%string)) devices)) as [H|H].
  - left. intros device Hdev. rewrite Forall_forall in H. by apply H.
  - right. intros Hok. apply H, Forall_forall. intros device Hdev. by apply Hok.
Qed.

Lemma scanned_as_discovered md device d :
  scanned md device = Some d → as_discovered d.
Proof.
  intros H. destruct (scanned_inv _ _ _ H) as (_ & _ & _ & _ & _ & Hen & Ht & Hf).
  split; [done|]. destruct (_is_taken d); [right|left]; auto.
Qed.

(** What every call of [ListConnectedDevices] guarantees. *)
Lemma ListConnectedDevices_new devices micro_device md w :
  heap w !! micro_device = Some md →
  ∃ r w',
    ListConnectedDevices devices micro_device w = (r, w') ∧
    PLATFORMS w' = PLATFORMS w ∧
    (∀ l, is_Some (heap w !! l) → heap w' !! l = heap w !! l) ∧
    ((∃ key, r = Raise (KeyError key)) ∨
     (∃ found, r = Return found ∧
        (∀ l, l ∈ found →
              heap w !! l = None ∧
              ∃ d, heap w' !! l = Some d ∧ as_discovered d) ∧
        (∀ device sn, device ∈ devices →
           device !! "SerialNumber"%string = Some sn →
           ∃ l d, l ∈ found ∧ heap w' !! l = Some d ∧ _serial_number d = sn))).
Proof.
  intros Hmd. unfold ListConnectedDevices.
  destruct (parsed_ok_dec devices) as [Hok|Hbad].
  2:{ destruct (device_list_KeyError micro_device md devices w Hmd Hbad)
        as (key & w' & E & HP & Hold).
      rewrite E. eexists _, w'. split; [done|]. split; [done|]. split; [done|].
      left. by exists key. }
  destruct (device_list_spec micro_device md devices w Hmd Hok)
    as (ls & w' & E & HP & Hold & _ & Hnd & Hfresh & HF).
  rewrite E. eexists _, w'. split; [done|]. split; [done|]. split; [done|].
  right. eexists. split; [done|].
  assert (∀ l, l ∈ ls → is_Some (heap w' !! l)) as Halive.
  { intros l Hl. destruct (Forall2_scanned_l _ _ _ _ _ HF Hl) as (? & d & _ & _ & ->).
    by eexists. }
  pose proof (elem_of_refined_all (heap w') ls Halive) as Hchar. split.
  - intros l Hl. apply Hchar in Hl as (sn & Hl & _). split; [by apply Hfresh|].
    destruct (Forall2_scanned_l _ _ _ _ _ HF Hl) as (device & d & _ & Hscan & Hd).
    exists d. split; [done|]. by eapply scanned_as_discovered.
  - intros device sn Hdev Hsn.
    destruct (Forall2_scanned_r _ _ _ _ _ HF Hdev) as (l0 & d0 & Hl0 & Hscan & Hd0).
    destruct (scanned_inv _ _ _ Hscan) as (Hsn0 & _).
    assert (serial_of (heap w') l0 = Some sn) as Hs0.
    { unfold serial_of. rewrite Hd0. simpl. unfold Device.GetSerialNumber.
      congruence. }
    destruct (refined_list_covers (heap w') ls l0 sn Halive Hl0 Hs0)
      as (l & Hl & Hs).
    assert (l ∈ ls) as Hin by (apply Hchar in Hl as (? & ? & _); done).
    destruct (Halive l Hin) as [d Hd]. exists l, d. split; [done|].
    split; [done|]. unfold serial_of in Hs. rewrite Hd in Hs. simpl in Hs.
    unfold Device.GetSerialNumber in Hs. congruence.
Qed.

Section Attach.
Context (tablew : world) (Hwft : wf tablew).

Local Abbreviation table := (PLATFORMS tablew).

Lemma GetType_table w sn :
  (∀ l, is_Some (heap tablew !! l) → heap w !! l = heap tablew !! l) →
  GetType sn {| heap := heap w; PLATFORMS := table |} = GetType sn tablew.
Proof.
  intros Hh. apply GetType_ext; [done| |done].
  intros l d [_ Hd]. exists d. split; [|done]. simpl.
  rewrite Hh; [done|]. by rewrite Hd.
Qed.

Lemma AddPlatform_frame l w :
  heap (AddPlatform l w) = heap w ∧
  _sessions (PLATFORMS (AddPlatform l w)) = _sessions (PLATFORMS w) ∧
  (∀ sn, sn ∈ _serial_numbers (PLATFORMS w) →
         sn ∈ _serial_numbers (PLATFORMS (AddPlatform l w))) ∧
  (∀ d, heap w !! l = Some d →
        _serial_number d ∈ _serial_numbers (PLATFORMS (AddPlatform l w))) ∧
  (∀ l', l' ∈ _platforms (PLATFORMS (AddPlatform l w)) →
         l' ∈ _platforms (PLATFORMS w) ∨ l' = l).
Proof.
  unfold AddPlatform, Device.GetSerialNumber.
  destruct (heap w !! l) as [d|] eqn:Hd; [|repeat split; auto; done].
  destruct (decide _) as [Hin|Hnin]; simpl.
  - repeat split; auto. by intros d' [= <-].
  - repeat split; try done.
    + intros sn Hsn. apply elem_of_union. by left.
    + intros d' [= <-]. apply elem_of_union. right. by apply elem_of_singleton.
    + intros l' Hl'. apply elem_of_app in Hl' as [?|Hl']; [by left|].
      apply list_elem_of_singleton in Hl'. by right.
Qed.

(** One step of the inner loop. *)
Lemma attaching_step w l d t :
  attaching tablew w → heap w !! l = Some d → heap tablew !! l = None →
  as_discovered d →
  GetType (_serial_number d) tablew = Some t →
  attaching tablew (AddPlatform l (set_heap (alter (Device.SetType t) l (heap w)) w)).
Proof.
  intros [Hwf Hs Ht Hn Hk] Hd Hnew Hdisc Hty.
  set (w1 := set_heap (alter (Device.SetType t) l (heap w)) w).
  destruct (AddPlatform_frame l w1) as (Hheap & Hsess & _ & _ & Hplat).
  split.
  - apply wf_AddPlatform. by apply wf_alter.
  - by rewrite Hsess.
  - intros k Hk'. rewrite Hheap. subst w1. simpl.
    rewrite lookup_alter_ne; [by apply Ht|].
    intros <-. rewrite Hnew in Hk'. by destruct Hk'.
  - intros k Hk'. apply Hplat in Hk' as [Hk'| ->]; [by apply Hn|done].
  - intros k d' [Hk' Hd']. rewrite Hheap in Hd'. subst w1. simpl in Hd'.
    destruct (decide (l = k)) as [<-|Hne].
    + rewrite lookup_alter_eq, Hd in Hd'. injection Hd' as <-. done.
    + rewrite lookup_alter_ne in Hd' by done.
      apply Hplat in Hk' as [Hk'|?]; [|done]. by apply (Hk k).
Qed.

Lemma attach_found_attaching found w :
  attaching tablew w →
  (∀ l, l ∈ found →
        heap tablew !! l = None ∧ ∃ d, heap w !! l = Some d ∧ as_discovered d) →
  attaching tablew (attach_found table found w) ∧
  (∀ l, is_Some (heap w !! l) → is_Some (heap (attach_found table found w) !! l)) ∧
  (∀ sn, sn ∈ _serial_numbers (PLATFORMS w) →
         sn ∈ _serial_numbers (PLATFORMS (attach_found table found w))) ∧
  (∀ l d, l ∈ found → heap w !! l = Some d →
          is_Some (GetType (_serial_number d) tablew) →
          _serial_number d ∈
            _serial_numbers (PLATFORMS (attach_found table found w))).
Proof.
  revert w. induction found as [|l found IH]; intros w Hatt Hfound.
  { simpl. split; [done|]. split; [done|]. split; [done|].
    intros l d Hl. inversion Hl. }
  destruct (Hfound l (list_elem_of_here _ _)) as (Hnew & d & Hd & Hdisc).
  simpl. rewrite Hd. unfold Device.GetSerialNumber.
  rewrite (GetType_table w _ (att_table tablew w Hatt)).
  destruct (GetType (_serial_number d) tablew) as [t|] eqn:Hty.
  - set (w1 := AddPlatform l (set_heap (alter (Device.SetType t) l (heap w)) w)).
    assert (attaching tablew w1) as Hatt1 by by apply attaching_step with d.
    destruct (AddPlatform_frame l (set_heap (alter (Device.SetType t) l (heap w)) w))
      as (Hheap & _ & Hmono & Hadded & _).
    assert (∀ k dk, heap w !! k = Some dk →
              ∃ dk', heap w1 !! k = Some dk' ∧
                     _serial_number dk' = _serial_number dk ∧
                     (as_discovered dk → as_discovered dk')) as Hkeep.
    { intros k dk Hk. subst w1. rewrite Hheap. simpl.
      destruct (decide (l = k)) as [<-|Hne].
      - rewrite lookup_alter_eq, Hk. simpl. eexists. split; [done|]. by split.
      - rewrite lookup_alter_ne by done. by exists dk. }
    destruct (IH w1 Hatt1) as (Hatt' & Halive' & Hmono' & Hcov').
    { intros k Hk. destruct (Hfound k) as (Hnewk & dk & Hdk & Hdisck); [by right|].
      split; [done|]. destruct (Hkeep k dk Hdk) as (dk' & ? & _ & Himp).
      exists dk'. split; [done|]. by apply Himp. }
    split; [done|]. split; [|split].
    + intros k [dk Hk]. apply Halive'. destruct (Hkeep k dk Hk) as (dk' & -> & _).
      by eexists.
    + intros sn Hsn. apply Hmono'. by apply Hmono.
    + intros k dk Hk Hdk Hknown. apply elem_of_cons in Hk as [->|Hk].
      * apply Hmono'. assert (dk = d) as -> by congruence.
        apply (Hadded (Device.SetType t d)). simpl. by rewrite lookup_alter_eq, Hd.
      * destruct (Hkeep k dk Hdk) as (dk' & Hdk' & Hsn & _).
        rewrite <- Hsn. apply (Hcov' k dk' Hk Hdk'). by rewrite Hsn.
  - destruct (IH w Hatt) as (Hatt' & Halive' & Hmono' & Hcov').
    { intros k Hk. apply Hfound. by right. }
    split; [done|]. split; [done|]. split; [done|].
    intros k dk Hk Hdk Hknown. apply elem_of_cons in Hk as [->|Hk].
    + assert (dk = d) as -> by congruence. rewrite Hty in Hknown. by destruct Hknown.
    + by apply (Hcov' k dk).
Qed.

End Attach.

Section AttachTypes.
Context (tablew : world) (Hwft : wf tablew).

Lemma attaching_ext w w1 :
  attaching tablew w →
  PLATFORMS w1 = PLATFORMS w →
  (∀ l, is_Some (heap w !! l) → heap w1 !! l = heap w !! l) →
  attaching tablew w1.
Proof.
  intros [Hwf Hs Ht Hn Hk] HP Hold.
  assert (∀ l, l ∈ _platforms (PLATFORMS w) → heap w1 !! l = heap w !! l) as Hreg
    by (intros l Hl; by apply Hold, (wf_alive _ Hwf)).
  split.
  - apply (wf_ext w); try done; try by rewrite HP.
    + intros l Hl. by rewrite Hreg.
    + intros s sn Hl. apply (wf_listed _ Hwf s). unfold listed in *.
      by rewrite HP in Hl.
  - by rewrite HP.
  - intros l Hl. rewrite Hold; [by apply Ht|]. rewrite Ht by done. done.
  - intros l Hl. rewrite HP in Hl. by apply Hn.
  - intros l d [Hl Hd]. rewrite HP in Hl. rewrite Hreg in Hd by done.
    by apply (Hk l).
Qed.

Lemma attach_types_attaching scan reps w :
  attaching tablew w →
  (∀ l, l ∈ reps → is_Some (heap tablew !! l)) →
  ∃ r w',
    attach_types scan (PLATFORMS tablew) reps w = (r, w') ∧
    ((∃ key, r = Raise (KeyError key)) ∨
     (r = Return () ∧ attaching tablew w' ∧
      (∀ sn, sn ∈ _serial_numbers (PLATFORMS w) →
             sn ∈ _serial_numbers (PLATFORMS w')) ∧
      (∀ l md device sn,
         l ∈ reps → heap tablew !! l = Some md →
         device ∈ scan md →
         device !! "SerialNumber"%string = Some sn →
         is_Some (GetType sn tablew) →
         sn ∈ _serial_numbers (PLATFORMS w')))).
Proof.
  revert w. induction reps as [|micro_device reps IH]; intros w Hatt Hreps.
  { exists (Return ()), w. split; [done|]. right.
    split; [done|]. split; [done|]. split; [done|].
    intros l md device sn Hl. inversion Hl. }
  destruct (Hreps micro_device (list_elem_of_here _ _)) as [md Hmd].
  assert (heap w !! micro_device = Some md) as Hmdw.
  { rewrite (att_table _ _ Hatt); [done|]. by rewrite Hmd. }
  simpl. rewrite Hmdw.
  destruct (ListConnectedDevices_new (scan md) micro_device md w Hmdw)
    as (r & w1 & E & HP & Hold & Hres).
  rewrite E. destruct Hres as [[key ->]|(found & -> & Hfound & Hcov)].
  { eexists _, _. split; [done|]. left. by exists key. }
  assert (attaching tablew w1) as Hatt1 by by apply (attaching_ext w).
  destruct (attach_found_attaching tablew Hwft found w1 Hatt1)
    as (Hatt2 & _ & Hmono2 & Hcov2).
  { intros l Hl. destruct (Hfound l Hl) as [Hnew Hd]. split; [|done].
    destruct (heap tablew !! l) as [dt|] eqn:Ht; [|done].
    rewrite (att_table _ _ Hatt) in Hnew by by rewrite Ht. congruence. }
  destruct (IH (attach_found (PLATFORMS tablew) found w1) Hatt2)
    as (r & w' & E' & Hres').
  { intros l Hl. apply Hreps. by right. }
  exists r, w'. split; [done|].
  destruct Hres' as [?|(-> & Hatt' & Hmono' & Hcov')]; [by left|].
  right. split; [done|]. split; [done|]. split.
  - intros sn Hsn. apply Hmono', Hmono2. by rewrite HP.
  - intros l md' device sn Hl Hmd' Hdev Hsn Hknown.
    apply elem_of_cons in Hl as [->|Hl]; [|by apply (Hcov' l md' device)].
    assert (md' = md) as -> by congruence.
    destruct (Hcov device sn Hdev Hsn) as (l0 & d0 & Hl0 & Hd0 & Hsn0).
    apply Hmono'. rewrite <- Hsn0. apply (Hcov2 l0 d0 Hl0 Hd0). by rewrite Hsn0.
Qed.

End AttachTypes.

Lemma GetAllDeviceTypes_alive w l :
  l ∈ GetAllDeviceTypes w → is_Some (heap w !! l).
Proof.
  unfold GetAllDeviceTypes. rewrite elem_of_GetAllDeviceTypes_loop.
  intros (i & d & (_ & Hd & _) & _). by eexists.
Qed.



(** * The virtual machine *)

(** ** The dictionary of [VirtualBoxGetInfo] *)

Lemma record_line_lookup machine_info line key :
  VirtualBox.record_line machine_info line !! key =
  match value_for key line with
  | Some v => Some (add_value (machine_info !! key) v)
  | None => machine_info !! key
  end.
Proof.
  unfold VirtualBox.record_line, value_for, entry.
  destruct (VirtualBox.split_once ":" line) as [[k v]|]; [|done].
  cbv zeta. destruct (decide (k = key)) as [->|Hne].
  - destruct (machine_info !! key) as [old|]; cbn; by rewrite lookup_insert_eq.
  - destruct (machine_info !! k) as [old|]; cbn; by rewrite lookup_insert_ne.
Qed.

Lemma foldl_record_line lines machine_info key :
  foldl VirtualBox.record_line machine_info lines !! key =
  add_values (machine_info !! key) (omap (value_for key) lines).
Proof.
  revert machine_info. induction lines as [|line lines IH]; intros m; [done|].
  cbn [foldl omap list_omap]. rewrite IH, record_line_lookup.
  by destruct (value_for key line).
Qed.

Lemma VirtualBoxGetInfo_lookup output key :
  VirtualBox.VirtualBoxGetInfo output !! key =
  add_values None (values_of key output).
Proof.
  unfold VirtualBox.VirtualBoxGetInfo, values_of.
  by rewrite foldl_record_line, lookup_empty.
Qed.

Lemma add_values_Some v xs : add_values (Some v) xs = Some (nest v xs).
Proof. revert v. induction xs as [|x xs IH]; intros v; [done|]. cbn. by rewrite IH. Qed.

Lemma nest_snoc v xs x :
  nest v (xs ++ [x]) = VirtualBox.Lst [nest v xs; VirtualBox.Str x].
Proof. revert v. induction xs as [|y xs IH]; intros v; [done|]. cbn. by rewrite IH. Qed.

Lemma nest_Lst l xs : ∃ l', nest (VirtualBox.Lst l) xs = VirtualBox.Lst l'.
Proof.
  revert l. induction xs as [|x xs IH]; intros l; [by exists l|]. cbn. apply IH.
Qed.

Lemma nest_two_or_more v x xs :
  ∃ l', nest (VirtualBox.Str v) (x :: xs) = VirtualBox.Lst l'.
Proof. cbn. apply nest_Lst. Qed.

(** The values of a key that occurs on several lines.  [VirtualBoxGetInfo]
    keeps the string of a key that one line gives; for a key that several
    lines give it never appends, because [is list] is never true: every
    further line pairs the value so far with the new one.  Two lines give
    the list of the two values; from the third line on the list has two
    elements, the first of which is the list built so far, and only the
    last value is an element of it.  A line without a colon is skipped. *)
Theorem VirtualBoxGetInfo_repeated_keys (output key : string) :
  let machine_info := VirtualBox.VirtualBoxGetInfo output in
  let values := values_of key output in
  (machine_info !! key =
     match values with
     | [] => None
     | v :: vs => Some (nest (VirtualBox.Str v) vs)
     end) ∧
  (values = [] ↔ machine_info !! key = None) ∧
  (∀ v, values = [v] → machine_info !! key = Some (VirtualBox.Str v)) ∧
  (∀ v1 v2, values = [v1; v2] →
     machine_info !! key =
       Some (VirtualBox.Lst [VirtualBox.Str v1; VirtualBox.Str v2])) ∧
  (∀ vs v, (2 ≤ length vs)%nat → values = vs ++ [v] →
     ∃ l, machine_info !! key =
            Some (VirtualBox.Lst [VirtualBox.Lst l; VirtualBox.Str v])).
Proof.
  cbv zeta. rewrite VirtualBoxGetInfo_lookup.
  assert (Hmain : add_values None (values_of key output) =
                  match values_of key output with
                  | [] => None
                  | v :: vs => Some (nest (VirtualBox.Str v) vs)
                  end).
  { destruct (values_of key output) as [|v vs]; [done|]. cbn. apply add_values_Some. }
  rewrite Hmain. split; [done|]. split.
  { destruct (values_of key output); split; done. }
  split; [by intros v ->|]. split; [by intros v1 v2 ->|].
  intros vs v Hlen ->. destruct vs as [|v1 [|v2 vs]]; cbn in Hlen; [lia|lia|].
  cbn. rewrite nest_snoc.
  destruct (nest_Lst [VirtualBox.Str v1; VirtualBox.Str v2] vs) as [l ->].
  by exists l.
Qed.

Lemma VirtualBoxGetInfo_repeated_keys_witness :
  ∃ l, VirtualBox.VirtualBoxGetInfo Example.showvminfo3 !! "SerialNumber"%string =
       Some (VirtualBox.Lst [VirtualBox.Lst l; VirtualBox.Str "S3"]).
Proof.
  destruct (VirtualBoxGetInfo_repeated_keys Example.showvminfo3 "SerialNumber")
    as (_ & _ & _ & _ & H).
  apply (H ["S1"; "S2"]%string "S3"%string); [cbn; lia|vm_compute; reflexivity].
Defined.

(** ** The test [serial in machine_info["SerialNumber"]] *)

Lemma py_in_pair serial v x :
  VirtualBox.py_in serial (VirtualBox.Lst [v; VirtualBox.Str x]) =
  match v with
  | VirtualBox.Str s => String.eqb s serial
  | VirtualBox.Lst _ => false
  end || String.eqb x serial.
Proof. cbn. destruct v; by rewrite orb_false_r. Qed.

Lemma recognised_spec serial v vs :
  VirtualBox.py_in serial (nest (VirtualBox.Str v) vs) = true ↔
  recognised serial (v :: vs).
Proof.
  destruct vs as [|x vs _] using rev_ind; [done|]. rename vs into vs'.
  rewrite nest_snoc, py_in_pair. destruct vs' as [|y vs'].
  - cbn. rewrite orb_true_iff, !String.eqb_eq. split; intros [?|?]; auto.
  - destruct (nest_two_or_more v y vs') as [l ->]. cbn [orb].
    rewrite String.eqb_eq.
    assert (Hlast : last (v :: (y :: vs') ++ [x]) = Some x).
    { change (v :: (y :: vs') ++ [x]) with ((v :: y :: vs') ++ [x]).
      apply (last_snoc x (v :: y :: vs')). }
    assert (Hrec : recognised serial (v :: (y :: vs') ++ [x]) ↔
                   last (v :: (y :: vs') ++ [x]) = Some serial).
    { destruct vs'; done. }
    rewrite Hrec, Hlast. split; [by intros ->|by intros [= ->]].
Qed.

(** The test of [attach], by the values of the key in the output. *)
Lemma attached_test serial showvminfo :
  match VirtualBox.VirtualBoxGetInfo showvminfo !! "SerialNumber"%string with
  | Some v => VirtualBox.py_in serial v
  | None => false
  end = true ↔
  recognised serial (values_of "SerialNumber" showvminfo).
Proof.
  rewrite VirtualBoxGetInfo_lookup.
  destruct (values_of "SerialNumber" showvminfo) as [|v vs]; [done|].
  cbn [add_values add_value]. rewrite add_values_Some. apply recognised_spec.
Qed.

(** ** The device that [attach] and [detach] pick *)

Section Pick.
Context (serial : string).

Lemma attach_loop_first (pre post : list usb_device) (dev : usb_device)
    vid_hex pid_hex dev_uuid :
  (∀ d, d ∈ pre → ∃ sn, d !! "SerialNumber"%string = Some sn ∧ sn ≠ serial) →
  dev !! "SerialNumber"%string = Some serial →
  dev !! "vid_hex"%string = Some vid_hex →
  dev !! "pid_hex"%string = Some pid_hex →
  dev !! "UUID"%string = Some dev_uuid →
  VirtualBox.attach_loop serial (pre ++ dev :: post) =
  inr (Some (vid_hex, pid_hex, serial, dev_uuid)).
Proof.
  intros Hpre Hsn Hvid Hpid Huuid. induction pre as [|d pre IH].
  - cbn. by rewrite Hsn, String.eqb_refl, Hvid, Hpid, Huuid.
  - cbn. destruct (Hpre d) as (sn & -> & Hne); [left|].
    apply String.eqb_neq in Hne as ->. apply IH.
    intros d' Hd'. apply Hpre. by right.
Qed.

Lemma detach_loop_first (pre post : list usb_device) (dev : usb_device)
    dev_uuid :
  (∀ d, d ∈ pre → ∃ sn, d !! "SerialNumber"%string = Some sn ∧ sn ≠ serial) →
  dev !! "SerialNumber"%string = Some serial →
  dev !! "UUID"%string = Some dev_uuid →
  VirtualBox.detach_loop serial (pre ++ dev :: post) = inr (Some dev_uuid).
Proof.
  intros Hpre Hsn Huuid. induction pre as [|d pre IH].
  - cbn. by rewrite Hsn, String.eqb_refl, Huuid.
  - cbn. destruct (Hpre d) as (sn & -> & Hne); [left|].
    apply String.eqb_neq in Hne as ->. apply IH.
    intros d' Hd'. apply Hpre. by right.
Qed.

(** What the loop of [attach] returns, read backwards. *)
Lemma attach_loop_Some usb_devices vid_hex pid_hex serial' dev_uuid :
  VirtualBox.attach_loop serial usb_devices =
    inr (Some (vid_hex, pid_hex, serial', dev_uuid)) →
  serial' = serial ∧
  VirtualBox.detach_loop serial usb_devices = inr (Some dev_uuid) ∧
  ∃ pre dev post,
    usb_devices = pre ++ dev :: post ∧
    (∀ d, d ∈ pre → ∃ sn, d !! "SerialNumber"%string = Some sn ∧ sn ≠ serial) ∧
    dev !! "SerialNumber"%string = Some serial ∧
    dev !! "UUID"%string = Some dev_uuid.
Proof.
  induction usb_devices as [|d ds IH]; [done|]. cbn.
  destruct (d !! "SerialNumber"%string) as [sn|] eqn:Hsn; [|done].
  destruct (String.eqb sn serial) eqn:Heq.
  - apply String.eqb_eq in Heq as ->.
    destruct (d !! "vid_hex"%string); [|done].
    destruct (d !! "pid_hex"%string); [|done].
    destruct (d !! "UUID"%string) as [u|] eqn:Hu; [|done].
    intros [= <- <- <- <-]. split; [done|]. split; [done|].
    exists [], d, ds. split; [done|]. split; [|done]. intros d' Hd'. inversion Hd'.
  - intros H. destruct (IH H) as (-> & Hdet & pre & dev & post & -> & Hpre & Hdev & Hu).
    split; [done|]. split; [done|].
    exists (d :: pre), dev, post. split; [done|]. split; [|done].
    intros d' Hd'. apply elem_of_cons in Hd' as [->|Hd']; [|by apply Hpre].
    exists sn. split; [done|]. by apply String.eqb_neq.
Qed.

Lemma attach_loop_None usb_devices :
  VirtualBox.attach_loop serial usb_devices = inr None ↔
  ∀ d, d ∈ usb_devices → ∃ sn, d !! "SerialNumber"%string = Some sn ∧ sn ≠ serial.
Proof.
  induction usb_devices as [|d ds IH].
  { split; [|done]. intros _ d Hd. inversion Hd. }
  cbn. destruct (d !! "SerialNumber"%string) as [sn|] eqn:Hsn.
  - destruct (String.eqb sn serial) eqn:Heq.
    + split.
      * destruct (d !! "vid_hex"%string); [|done].
        destruct (d !! "pid_hex"%string); [|done].
        by destruct (d !! "UUID"%string).
      * intros H. destruct (H d) as (sn' & Hsn' & Hne); [left|].
        rewrite Hsn in Hsn'. injection Hsn' as <-.
        apply String.eqb_eq in Heq. done.
    + rewrite IH. split.
      * intros H d' Hd'. apply elem_of_cons in Hd' as [->|Hd']; [|by apply H].
        exists sn. split; [done|]. by apply String.eqb_neq.
      * intros H d' Hd'. apply H. by right.
  - split; [done|]. intros H. destruct (H d) as (sn' & Hsn' & _); [left|].
    by rewrite Hsn in Hsn'.
Qed.

Lemma detach_loop_None usb_devices :
  VirtualBox.detach_loop serial usb_devices = inr None ↔
  ∀ d, d ∈ usb_devices → ∃ sn, d !! "SerialNumber"%string = Some sn ∧ sn ≠ serial.
Proof.
  induction usb_devices as [|d ds IH].
  { split; [|done]. intros _ d Hd. inversion Hd. }
  cbn. destruct (d !! "SerialNumber"%string) as [sn|] eqn:Hsn.
  - destruct (String.eqb sn serial) eqn:Heq.
    + split.
      * by destruct (d !! "UUID"%string).
      * intros H. destruct (H d) as (sn' & Hsn' & Hne); [left|].
        rewrite Hsn in Hsn'. injection Hsn' as <-.
        apply String.eqb_eq in Heq. done.
    + rewrite IH. split.
      * intros H d' Hd'. apply elem_of_cons in Hd' as [->|Hd']; [|by apply H].
        exists sn. split; [done|]. by apply String.eqb_neq.
      * intros H d' Hd'. apply H. by right.
  - split; [done|]. intros H. destruct (H d) as (sn' & Hsn' & _); [left|].
    by rewrite Hsn in Hsn'.
Qed.

(** [detach] reads the serial number and the UUID only. *)
Lemma detach_loop_identity usb_devices usb_devices' :
  identity <$> usb_devices' = identity <$> usb_devices →
  VirtualBox.detach_loop serial usb_devices' =
  VirtualBox.detach_loop serial usb_devices.
Proof.
  revert usb_devices'. induction usb_devices as [|d ds IH]; intros [|d' ds'] H;
    try done.
  cbn in H. unfold identity in H. injection H as Hsn Hu Hds.
  cbn. rewrite Hsn, Hu. destruct (d !! "SerialNumber"%string) as [sn|]; [|done].
  destruct (String.eqb sn serial); [done|]. by apply IH.
Qed.

End Pick.

Lemma attach_loop_error serial usb_devices e :
  VirtualBox.attach_loop serial usb_devices = inl e →
  ∃ key, e = VirtualBox.KeyError key.
Proof.
  induction usb_devices as [|d ds IH]; [done|]. cbn.
  destruct (d !! "SerialNumber"%string) as [sn|]; [|intros [= <-]; by eexists].
  destruct (String.eqb sn serial); [|done].
  destruct (d !! "vid_hex"%string); [|intros [= <-]; by eexists].
  destruct (d !! "pid_hex"%string); [|intros [= <-]; by eexists].
  destruct (d !! "UUID"%string); [done|intros [= <-]; by eexists].
Qed.

Lemma attach_first_match (pre post : list usb_device) (dev : usb_device)
    machine_uuid showvminfo micro_device dev_uuid :
  let serial := Device.GetSerialNumber micro_device in
  (∀ d, d ∈ pre → ∃ sn, d !! "SerialNumber"%string = Some sn ∧ sn ≠ serial) →
  dev !! "SerialNumber"%string = Some serial →
  is_Some (dev !! "vid_hex"%string) →
  is_Some (dev !! "pid_hex"%string) →
  dev !! "UUID"%string = Some dev_uuid →
  serial ≠ ""%string → dev_uuid ≠ ""%string →
  VirtualBox.attach (pre ++ dev :: post) machine_uuid showvminfo micro_device =
  if decide (recognised serial (values_of "SerialNumber" showvminfo))
  then inr None
  else inr (Some (VirtualBox.usbattach machine_uuid dev_uuid)).
Proof.
  intros serial Hpre Hsn [vid Hvid] [pid Hpid] Hu Hs Hd.
  unfold VirtualBox.attach. fold serial.
  rewrite (attach_loop_first serial pre post dev vid pid dev_uuid) by done.
  assert (truthy serial = true) as -> by by destruct serial.
  assert (truthy dev_uuid = true) as -> by by destruct dev_uuid.
  cbn [andb]. cbv zeta.
  pose proof (attached_test serial showvminfo) as Htest.
  destruct (VirtualBox.VirtualBoxGetInfo showvminfo !! "SerialNumber"%string)
    as [v|].
  - destruct (VirtualBox.py_in serial v).
    + rewrite decide_True; [done|]. by apply Htest.
    + rewrite decide_False; [done|]. intros H. apply Htest in H. done.
  - rewrite decide_False; [done|]. intros H. apply Htest in H. done.
Qed.

(** When [attach] returns without a command.  For the first parsed
    device with the serial number of [micro_device], [attach] hands
    [usbattach] with the UUID of that device to [_check_call] unless the
    test [serial in machine_info["SerialNumber"]] holds.  With one
    ["SerialNumber"] line in the output of [showvminfo] the test is a
    substring test; with two lines it compares the serial number with
    both values; with three or more it compares it with the last value
    only, so that a device the machine lists on an earlier line is
    attached again. *)
Theorem attach_skips_recognised (pre post : list usb_device) (dev : usb_device)
    (machine_uuid showvminfo : string) (micro_device : MicroDevice)
    (dev_uuid : string) :
  let serial := Device.GetSerialNumber micro_device in
  let values := values_of "SerialNumber" showvminfo in
  let result :=
    VirtualBox.attach (pre ++ dev :: post) machine_uuid showvminfo micro_device in
  (∀ d, d ∈ pre → ∃ sn, d !! "SerialNumber"%string = Some sn ∧ sn ≠ serial) →
  dev !! "SerialNumber"%string = Some serial →
  is_Some (dev !! "vid_hex"%string) →
  is_Some (dev !! "pid_hex"%string) →
  dev !! "UUID"%string = Some dev_uuid →
  serial ≠ ""%string → dev_uuid ≠ ""%string →
  (recognised serial values → result = inr None) ∧
  (¬ recognised serial values →
   result = inr (Some (VirtualBox.usbattach machine_uuid dev_uuid))) ∧
  (∀ v, values = [v] →
     (result = inr None ↔ VirtualBox.contains serial v = true)) ∧
  (∀ v1 v2, values = [v1; v2] →
     (result = inr None ↔ serial = v1 ∨ serial = v2)) ∧
  ((3 ≤ length values)%nat →
     (result = inr None ↔ last values = Some serial)) ∧
  (serial ∈ values → (3 ≤ length values)%nat → last values ≠ Some serial →
   result = inr (Some (VirtualBox.usbattach machine_uuid dev_uuid))).
Proof.
  intros serial values result Hpre Hsn Hvid Hpid Hu Hs Hd.
  assert (Hres : result =
            if decide (recognised serial values) then inr None
            else inr (Some (VirtualBox.usbattach machine_uuid dev_uuid))).
  { by apply attach_first_match. }
  assert (Hiff : result = inr None ↔ recognised serial values).
  { rewrite Hres. destruct (decide (recognised serial values)); split; done. }
  split; [by intros H; apply Hiff|].
  split; [intros H; rewrite Hres; by rewrite decide_False|].
  split; [intros v Hv; by rewrite Hiff, Hv|].
  split; [intros v1 v2 Hv; by rewrite Hiff, Hv|].
  assert (Hthree : (3 ≤ length values)%nat →
            (recognised serial values ↔ last values = Some serial)).
  { intros Hlen. destruct values as [|v1 [|v2 [|v3 vs]]]; cbn in Hlen; try lia.
    done. }
  split; [intros Hlen; by rewrite Hiff, Hthree|].
  intros _ Hlen Hlast. rewrite Hres, decide_False; [done|].
  by rewrite Hthree.
Qed.

Lemma attach_skips_recognised_witness :
  VirtualBox.attach
    [Example.usb_full "S9" "u9"; Example.usb_full "S1" "u1";
     Example.usb_full "S1" "u0"]
    "vm" Example.showvminfo3 (Device.init "due" "S1" None None) =
  inr (Some (VirtualBox.usbattach "vm" "u1")).
Proof.
  destruct (attach_skips_recognised
              [Example.usb_full "S9" "u9"] [Example.usb_full "S1" "u0"]
              (Example.usb_full "S1" "u1") "vm" Example.showvminfo3
              (Device.init "due" "S1" None None) "u1")
    as (_ & _ & _ & _ & _ & H).
  - intros d Hd. apply elem_of_cons in Hd as [->|Hd]; [|inversion Hd].
    exists "S9"%string. split; [vm_compute; reflexivity|discriminate].
  - vm_compute; reflexivity.
  - vm_compute. by eexists.
  - vm_compute. by eexists.
  - vm_compute; reflexivity.
  - discriminate.
  - discriminate.
  - apply H.
    + vm_compute. left.
    + vm_compute. lia.
    + vm_compute. discriminate.
Defined.

(** [detach] after [attach], for two parsings that agree on the serial
    numbers and UUIDs.  The device that [attach] attached, or found
    attached, is the one [detach] detaches, from the same machine, whatever
    the machine lists; and [detach] returns without a command exactly when
    [attach] raises [ValueError], that is when no parsed device has the
    serial number. *)
Theorem detach_follows_attach (usb_devices usb_devices' : list usb_device)
    (machine_uuid showvminfo : string) (micro_device : MicroDevice) :
  let serial := Device.GetSerialNumber micro_device in
  let attached :=
    VirtualBox.attach usb_devices machine_uuid showvminfo micro_device in
  let detached := VirtualBox.detach usb_devices' machine_uuid micro_device in
  identity <$> usb_devices' = identity <$> usb_devices →
  (∀ m u, attached = inr (Some (VirtualBox.usbattach m u)) →
     m = machine_uuid ∧
     detached = inr (Some (VirtualBox.usbdetach machine_uuid u))) ∧
  (attached = inr None →
     ∃ u, detached = inr (Some (VirtualBox.usbdetach machine_uuid u))) ∧
  (attached = inl VirtualBox.ValueError ↔ detached = inr None) ∧
  (detached = inr None ↔
   ∀ d, d ∈ usb_devices →
     ∃ sn, d !! "SerialNumber"%string = Some sn ∧ sn ≠ serial).
Proof.
  intros serial attached detached Hid.
  assert (Hdet : detached =
            match VirtualBox.detach_loop serial usb_devices with
            | inl e => inl e
            | inr None => inr None
            | inr (Some u) => inr (Some (VirtualBox.usbdetach machine_uuid u))
            end).
  { unfold detached, VirtualBox.detach. fold serial.
    by rewrite (detach_loop_identity serial usb_devices usb_devices'). }
  assert (HdNone : detached = inr None ↔
            VirtualBox.detach_loop serial usb_devices = inr None).
  { rewrite Hdet.
    destruct (VirtualBox.detach_loop serial usb_devices) as [e|[u|]];
      split; done. }
  assert (Hatt : attached =
            match VirtualBox.attach_loop serial usb_devices with
            | inl e => inl e
            | inr None => inl VirtualBox.ValueError
            | inr (Some (vid_hex, pid_hex, serial', dev_uuid)) =>
                if truthy serial' && truthy dev_uuid then
                  match VirtualBox.VirtualBoxGetInfo showvminfo
                          !! "SerialNumber"%string with
                  | Some v =>
                      if VirtualBox.py_in serial' v then inr None
                      else inr (Some (VirtualBox.usbattach machine_uuid dev_uuid))
                  | None => inr (Some (VirtualBox.usbattach machine_uuid dev_uuid))
                  end
                else inl VirtualBox.Exception
            end) by done.
  split; [|split; [|split]].
  - intros m u. rewrite Hatt, Hdet.
    destruct (VirtualBox.attach_loop serial usb_devices)
      as [e|[[[[vid pid] s'] du]|]] eqn:Hloop; [done| |done].
    destruct (attach_loop_Some serial _ _ _ _ _ Hloop) as (-> & -> & _).
    destruct (truthy serial && truthy du); [|done].
    destruct (VirtualBox.VirtualBoxGetInfo showvminfo !! "SerialNumber"%string)
      as [v|]; [destruct (VirtualBox.py_in serial v); [done|]|];
      by intros [= <- <-].
  - rewrite Hatt, Hdet.
    destruct (VirtualBox.attach_loop serial usb_devices)
      as [e|[[[[vid pid] s'] du]|]] eqn:Hloop; [done| |done].
    destruct (attach_loop_Some serial _ _ _ _ _ Hloop) as (-> & -> & _).
    intros _. by exists du.
  - rewrite HdNone, detach_loop_None, <- attach_loop_None, Hatt.
    destruct (VirtualBox.attach_loop serial usb_devices)
      as [e|[[[[vid pid] s'] du]|]] eqn:Hloop.
    + split; [|done]. intros [= ->].
      by destruct (attach_loop_error _ _ _ Hloop) as (k & ?).
    + split; [|done].
      destruct (truthy s' && truthy du); [|done].
      destruct (VirtualBox.VirtualBoxGetInfo showvminfo !! "SerialNumber"%string)
      as [v|]; [by destruct (VirtualBox.py_in s' v)|done].
    + done.
  - by rewrite HdNone, detach_loop_None.
Qed.

Lemma detach_follows_attach_witness :
  VirtualBox.detach
    [Example.usb_full "S9" "u9"; Example.usb_full "S1" "u1"] "vm"
    (Device.init "due" "S1" None None) =
  inr (Some (VirtualBox.usbdetach "vm" "u1")).
Proof.
  destruct (detach_follows_attach
              [Example.usb_full "S9" "u9"; Example.usb_full "S1" "u1"]
              [Example.usb_full "S9" "u9"; Example.usb_full "S1" "u1"]
              "vm" Example.showvminfo3 (Device.init "due" "S1" None None)
              eq_refl) as (H & _).
  apply (H "vm"%string "u1"%string). vm_compute. reflexivity.
Defined.

(** [virtualbox_is_live].  Without a ["State"] line the lookup raises
    [KeyError]; with one line the result tells whether its value contains
    ["running"]; with several lines the value is a list, and the result
    tells whether ["running"] is one of the two values, or the last of
    three or more. *)
Theorem virtualbox_is_live_state (output : string) :
  let values := values_of "State" output in
  (values = [] ↔
   VirtualBox.virtualbox_is_live output = inl (VirtualBox.KeyError "State")) ∧
  (values ≠ [] →
   ∃ b, VirtualBox.virtualbox_is_live output = inr b ∧
        (b = true ↔ recognised "running" values)) ∧
  (∀ v, values = [v] →
     VirtualBox.virtualbox_is_live output =
       inr (VirtualBox.contains "running" v)).
Proof.
  cbv zeta. unfold VirtualBox.virtualbox_is_live.
  rewrite VirtualBoxGetInfo_lookup.
  destruct (values_of "State" output) as [|v vs].
  { split; [done|]. split; [done|]. intros v [=]. }
  cbn [add_values add_value]. rewrite add_values_Some.
  split; [split; done|]. split.
  - intros _. eexists. split; [done|]. apply recognised_spec.
  - by intros v' [= -> ->].
Qed.

Lemma virtualbox_is_live_state_witness :
  VirtualBox.virtualbox_is_live Example.showvminfo3 = inr true.
Proof.
  destruct (virtualbox_is_live_state Example.showvminfo3) as (_ & _ & H).
  apply (H "running (since 2021-09-01)"%string). vm_compute. reflexivity.
Defined.

(** * Session numbers *)

Lemma pretty_digit_inj (n m : nat) c :
  pretty n = String c "" → pretty m = String c "" → n = m.
Proof. intros Hn Hm. apply (inj pretty). by rewrite Hn, Hm. Qed.

Lemma sess_num_agree draw1 draw2 :
  (∀ num, (num < Server.SESSION_NUM_MAX_LEN)%nat → draw1 num = draw2 num) →
  Server.sess_num draw1 = Server.sess_num draw2.
Proof.
  intros H. unfold Server.sess_num. f_equal. apply list_fmap_ext.
  intros i num Hnum. apply lookup_seq in Hnum as [-> Hi]. cbn. f_equal.
  apply H. done.
Qed.

Lemma sess_num_inj draw1 draw2 :
  (∀ num, (num < Server.SESSION_NUM_MAX_LEN)%nat → (draw1 num ≤ 9)%nat) →
  (∀ num, (num < Server.SESSION_NUM_MAX_LEN)%nat → (draw2 num ≤ 9)%nat) →
  Server.sess_num draw1 = Server.sess_num draw2 →
  ∀ num, (num < Server.SESSION_NUM_MAX_LEN)%nat → draw1 num = draw2 num.
Proof.
  intros H1 H2. unfold Server.sess_num, Server.SESSION_NUM_MAX_LEN in *.
  cbn [seq fmap list_fmap].
  destruct (pretty_digit (draw1 0%nat)) as (a0 & Ha0 & _); [apply H1; lia|].
  destruct (pretty_digit (draw1 1%nat)) as (a1 & Ha1 & _); [apply H1; lia|].
  destruct (pretty_digit (draw1 2%nat)) as (a2 & Ha2 & _); [apply H1; lia|].
  destruct (pretty_digit (draw1 3%nat)) as (a3 & Ha3 & _); [apply H1; lia|].
  destruct (pretty_digit (draw1 4%nat)) as (a4 & Ha4 & _); [apply H1; lia|].
  destruct (pretty_digit (draw1 5%nat)) as (a5 & Ha5 & _); [apply H1; lia|].
  destruct (pretty_digit (draw1 6%nat)) as (a6 & Ha6 & _); [apply H1; lia|].
  destruct (pretty_digit (draw1 7%nat)) as (a7 & Ha7 & _); [apply H1; lia|].
  destruct (pretty_digit (draw1 8%nat)) as (a8 & Ha8 & _); [apply H1; lia|].
  destruct (pretty_digit (draw1 9%nat)) as (a9 & Ha9 & _); [apply H1; lia|].
  destruct (pretty_digit (draw2 0%nat)) as (b0 & Hb0 & _); [apply H2; lia|].
  destruct (pretty_digit (draw2 1%nat)) as (b1 & Hb1 & _); [apply H2; lia|].
  destruct (pretty_digit (draw2 2%nat)) as (b2 & Hb2 & _); [apply H2; lia|].
  destruct (pretty_digit (draw2 3%nat)) as (b3 & Hb3 & _); [apply H2; lia|].
  destruct (pretty_digit (draw2 4%nat)) as (b4 & Hb4 & _); [apply H2; lia|].
  destruct (pretty_digit (draw2 5%nat)) as (b5 & Hb5 & _); [apply H2; lia|].
  destruct (pretty_digit (draw2 6%nat)) as (b6 & Hb6 & _); [apply H2; lia|].
  destruct (pretty_digit (draw2 7%nat)) as (b7 & Hb7 & _); [apply H2; lia|].
  destruct (pretty_digit (draw2 8%nat)) as (b8 & Hb8 & _); [apply H2; lia|].
  destruct (pretty_digit (draw2 9%nat)) as (b9 & Hb9 & _); [apply H2; lia|].
  rewrite Ha0, Ha1, Ha2, Ha3, Ha4, Ha5, Ha6, Ha7, Ha8, Ha9.
  rewrite Hb0, Hb1, Hb2, Hb3, Hb4, Hb5, Hb6, Hb7, Hb8, Hb9.
  cbn. unfold String.append. cbn.
  intros [= -> -> -> -> -> -> -> -> -> ->] num Hnum.
  do 10 (destruct num as [|num]; [eauto using pretty_digit_inj|]).
  lia.
Qed.

(** When two session numbers collide.  Two calls of [RPCSessionRequest]
    give the same session number exactly when their ten draws agree, so a
    later call replaces the list of an open session only when it repeats
    all ten draws; with one draw that differs the list stays as it is. *)
Theorem session_numbers_collide_iff_draws_agree (draw1 draw2 : nat → nat)
    (w : world) :
  (∀ num, (num < Server.SESSION_NUM_MAX_LEN)%nat → (draw1 num ≤ 9)%nat) →
  (∀ num, (num < Server.SESSION_NUM_MAX_LEN)%nat → (draw2 num ≤ 9)%nat) →
  (Server.sess_num draw1 = Server.sess_num draw2 ↔
   ∀ num, (num < Server.SESSION_NUM_MAX_LEN)%nat → draw1 num = draw2 num) ∧
  ((∃ num, (num < Server.SESSION_NUM_MAX_LEN)%nat ∧ draw1 num ≠ draw2 num) →
   _sessions (PLATFORMS (Server.RPCSessionRequest draw2 w).2)
     !! Server.sess_num draw1 =
   _sessions (PLATFORMS w) !! Server.sess_num draw1) ∧
  ((∀ num, (num < Server.SESSION_NUM_MAX_LEN)%nat → draw1 num = draw2 num) →
   _sessions (PLATFORMS (Server.RPCSessionRequest draw2 w).2)
     !! Server.sess_num draw1 = Some []).
Proof.
  intros H1 H2. split; [split; [by apply sess_num_inj|apply sess_num_agree]|].
  split.
  - intros (num & Hnum & Hne). cbn. apply lookup_insert_ne.
    intros Heq. apply Hne. symmetry in Heq. by apply (sess_num_inj draw1 draw2).
  - intros H. cbn. rewrite (sess_num_agree draw1 draw2 H).
    apply lookup_insert_eq.
Qed.

Lemma session_numbers_collide_iff_draws_agree_witness :
  _sessions (PLATFORMS
     (Server.RPCSessionRequest (fun _ => 7%nat) Example.w3).2)
    !! Server.sess_num (fun num => num mod 10)%nat =
  _sessions (PLATFORMS Example.w3) !! Server.sess_num (fun num => num mod 10)%nat.
Proof.
  destruct (session_numbers_collide_iff_draws_agree
              (fun num => num mod 10)%nat (fun _ => 7%nat) Example.w3)
    as (_ & H & _).
  - intros num Hnum. pose proof (Nat.mod_upper_bound num 10). lia.
  - intros; lia.
  - apply H. exists 0%nat. split; [unfold Server.SESSION_NUM_MAX_LEN; lia|].
    cbn. lia.
Defined.

(** * Parsing the devices of the host *)

(** ** The lines *)

Lemma split_nonempty sep s : VirtualBox.split sep s ≠ [].
Proof.
  destruct s as [|c s]; [done|]. cbn. destruct (Ascii.eqb c sep); [done|].
  by destruct (VirtualBox.split sep s).
Qed.

Lemma last_line_elem output : last (lines_of output) = Some (last_line output).
Proof.
  unfold last_line. pose proof (split_nonempty "010" output) as H.
  fold (lines_of output) in H.
  destruct (lines_of output) as [|l ls] using rev_ind; [done|].
  by rewrite last_snoc.
Qed.

Lemma parse_lines_app md st l1 l2 :
  VirtualBox.parse_lines md st (l1 ++ l2) =
  match VirtualBox.parse_lines md st l1 with
  | inl e => inl e
  | inr st1 => VirtualBox.parse_lines md st1 l2
  end.
Proof.
  revert st. induction l1 as [|l l1 IH]; intros st; [done|]. cbn.
  destruct (VirtualBox.parse_line md st l); [done|]. apply IH.
Qed.

(** ** The end of a device *)

Lemma in_hex_converted md vid pid dev :
  Some vid = Device.GetVID md → Some pid = Device.GetPID md →
  converted md (in_hex vid pid dev) ∧ in_hex vid pid dev ≠ ∅.
Proof.
  intros Hvid Hpid.
  assert (H1 : in_hex vid pid dev !! "vid_hex"%string = Some vid).
  { unfold in_hex. rewrite lookup_delete_ne by done.
    rewrite lookup_insert_ne by done. rewrite lookup_delete_ne by done.
    apply lookup_insert_eq. }
  assert (H2 : in_hex vid pid dev !! "pid_hex"%string = Some pid).
  { unfold in_hex. rewrite lookup_delete_ne by done. apply lookup_insert_eq. }
  split.
  - unfold converted. rewrite H1, H2. split; [by eexists|]. split; [done|].
    split; [by eexists|]. split; [done|]. unfold in_hex. split.
    + rewrite lookup_delete_ne by done. rewrite lookup_insert_ne by done.
      apply lookup_delete_eq.
    + apply lookup_delete_eq.
  - intros Heq. rewrite Heq in H1. by rewrite lookup_empty in H1.
Qed.

Lemma end_of_device_cases md cur devices devices' :
  VirtualBox.end_of_device md cur devices = inr devices' →
  devices' = devices ∨
  ∃ vendor product vid pid,
    cur !! "VendorId"%string = Some vendor ∧
    cur !! "ProductId"%string = Some product ∧
    VirtualBox.hex_field vendor = inr vid ∧
    VirtualBox.hex_field product = inr pid ∧
    Some vid = Device.GetVID md ∧ Some pid = Device.GetPID md ∧
    devices' = devices ++ [in_hex vid pid cur].
Proof.
  unfold VirtualBox.end_of_device.
  destruct (cur !! "VendorId"%string) as [vendor|]; [|intros [= <-]; by left].
  destruct (cur !! "ProductId"%string) as [product|]; [|intros [= <-]; by left].
  destruct (VirtualBox.VIRTUALBOX_VID_PID_RE vendor); cbn [negb];
    [|intros [= <-]; by left].
  destruct (VirtualBox.VIRTUALBOX_VID_PID_RE product); cbn [negb];
    [|intros [= <-]; by left].
  destruct (VirtualBox.hex_field vendor) as [e|vid] eqn:Hv; [done|].
  destruct (VirtualBox.hex_field product) as [e|pid] eqn:Hp; [done|].
  cbv zeta.
  destruct (bool_decide (Some vid = Device.GetVID md)) eqn:H1; cbn [andb];
    [|intros [= <-]; by left].
  destruct (bool_decide (Some pid = Device.GetPID md)) eqn:H2;
    [|intros [= <-]; by left].
  apply bool_decide_eq_true in H1, H2.
  intros [= <-]. right. exists vendor, product, vid, pid. done.
Qed.

Lemma end_of_device_match md cur devices vendor product vid pid :
  cur !! "VendorId"%string = Some vendor →
  cur !! "ProductId"%string = Some product →
  VirtualBox.VIRTUALBOX_VID_PID_RE vendor = true →
  VirtualBox.VIRTUALBOX_VID_PID_RE product = true →
  VirtualBox.hex_field vendor = inr vid →
  VirtualBox.hex_field product = inr pid →
  Some vid = Device.GetVID md → Some pid = Device.GetPID md →
  VirtualBox.end_of_device md cur devices = inr (devices ++ [in_hex vid pid cur]).
Proof.
  intros Hv Hp Hrv Hrp Hhv Hhp Hvid Hpid. unfold VirtualBox.end_of_device.
  rewrite Hv, Hp, Hrv, Hrp, Hhv, Hhp. cbn [negb]. cbv zeta.
  by rewrite !bool_decide_eq_true_2.
Qed.

Lemma end_of_device_error md cur devices e :
  VirtualBox.end_of_device md cur devices = inl e →
  e = VirtualBox.IndexError ∧
  ∃ key value,
    (key = "VendorId"%string ∨ key = "ProductId"%string) ∧
    cur !! key = Some value ∧
    VirtualBox.hex_field value = inl VirtualBox.IndexError.
Proof.
  assert (Hhex : ∀ s e', VirtualBox.hex_field s = inl e' →
                         e' = VirtualBox.IndexError).
  { intros s e'. unfold VirtualBox.hex_field.
    destruct (VirtualBox.split _ _) as [|? [|? ?]]; by intros [= <-]. }
  unfold VirtualBox.end_of_device.
  destruct (cur !! "VendorId"%string) as [vendor|] eqn:Hv; [|done].
  destruct (cur !! "ProductId"%string) as [product|] eqn:Hp; [|done].
  destruct (VirtualBox.VIRTUALBOX_VID_PID_RE vendor); cbn [negb]; [|done].
  destruct (VirtualBox.VIRTUALBOX_VID_PID_RE product); cbn [negb]; [|done].
  destruct (VirtualBox.hex_field vendor) as [e1|vid] eqn:Hhv.
  { intros [= <-]. pose proof (Hhex _ _ Hhv) as ->. split; [done|].
    exists "VendorId"%string, vendor. auto. }
  destruct (VirtualBox.hex_field product) as [e2|pid] eqn:Hhp.
  { intros [= <-]. pose proof (Hhex _ _ Hhp) as ->. split; [done|].
    exists "ProductId"%string, product. auto. }
  cbv zeta. by destruct (_ && _).
Qed.

(** ** One line *)

Lemma blank_no_colon line :
  VirtualBox.blank line = true → VirtualBox.split_once ":" line = None.
Proof.
  induction line as [|c line IH]; [done|]. cbn.
  intros [Hc Hl]%andb_true_iff. rewrite (IH Hl).
  destruct (Ascii.eqb c ":") eqn:Heq; [|done].
  apply Ascii.eqb_eq in Heq as ->. done.
Qed.

Lemma parse_line_text md cur devices line :
  VirtualBox.blank line = false →
  VirtualBox.parse_line md (cur, devices) line =
  match entry line with
  | Some (key, value) => inr (<[key := value]> cur, devices)
  | None => inl VirtualBox.ValueError
  end.
Proof.
  intros Hb. unfold VirtualBox.parse_line, entry. rewrite Hb.
  by destruct (VirtualBox.split_once ":" line) as [[k v]|].
Qed.

Lemma parse_line_blank md cur devices line :
  VirtualBox.blank line = true →
  VirtualBox.parse_line md (cur, devices) line =
  if bool_decide (cur ≠ ∅) then
    match VirtualBox.end_of_device md cur devices with
    | inl e => inl e
    | inr devices' => inr (∅, devices')
    end
  else inr (cur, devices).
Proof. intros Hb. unfold VirtualBox.parse_line. by rewrite Hb. Qed.

Lemma parse_line_blank_empty md cur devices line cur' devices' :
  VirtualBox.blank line = true →
  VirtualBox.parse_line md (cur, devices) line = inr (cur', devices') →
  cur' = ∅.
Proof.
  intros Hb. rewrite parse_line_blank by done. case_bool_decide as Hne.
  - destruct (VirtualBox.end_of_device md cur devices); [done|].
    by intros [= <- <-].
  - intros [= <- <-]. destruct (decide (cur = ∅)); [done|]. by destruct Hne.
Qed.

(** What a line that is read does to the state. *)
Lemma parse_line_cases md cur devices line cur' devices' :
  VirtualBox.parse_line md (cur, devices) line = inr (cur', devices') →
  (VirtualBox.blank line = false ∧ devices' = devices ∧
   ∃ key value, entry line = Some (key, value) ∧ cur' = <[key := value]> cur) ∨
  (VirtualBox.blank line = true ∧ cur' = ∅ ∧
   (devices' = devices ∨
    ∃ vid pid,
      Some vid = Device.GetVID md ∧ Some pid = Device.GetPID md ∧
      cur ≠ ∅ ∧ devices' = devices ++ [in_hex vid pid cur])).
Proof.
  destruct (VirtualBox.blank line) eqn:Hb.
  - intros H. right. split; [done|].
    split; [by eapply parse_line_blank_empty|].
    rewrite parse_line_blank in H by done. case_bool_decide as Hne.
    + destruct (VirtualBox.end_of_device md cur devices) as [e|ds] eqn:Hend;
        [done|]. injection H as <- <-.
      apply end_of_device_cases in Hend as [->|Hend]; [by left|].
      destruct Hend as (vendor & product & vid & pid & _ & _ & _ & _ & Hv & Hp & ->).
      right. by exists vid, pid.
    + injection H as <- <-. by left.
  - rewrite parse_line_text by done.
    destruct (entry line) as [[key value]|]; [|done].
    intros [= <- <-]. left. split; [done|]. split; [done|]. by exists key, value.
Qed.

(** ** The lines of one output *)

Arguments VirtualBox.parse_line : simpl never.

Section Lines.
Context (md : MicroDevice).

Lemma parse_lines_grow lines cur devices cur' devices' :
  VirtualBox.parse_lines md (cur, devices) lines = inr (cur', devices') →
  devices `prefix_of` devices'.
Proof.
  revert cur devices. induction lines as [|line lines IH]; intros cur devices.
  { by intros [= <- <-]. }
  cbn. destruct (VirtualBox.parse_line md (cur, devices) line)
    as [e|[cur1 devices1]] eqn:Hline; [done|].
  intros H. apply IH in H. etrans; [|exact H].
  apply parse_line_cases in Hline as [(_ & -> & _)|(_ & _ & [->|Hd])]; [done|done|].
  destruct Hd as (vid & pid & _ & _ & _ & ->). by apply prefix_app_r.
Qed.

Lemma parse_lines_sound (P : usb_device → Prop) lines cur devices cur' devices' :
  (∀ vid pid dev,
     Some vid = Device.GetVID md → Some pid = Device.GetPID md →
     P (in_hex vid pid dev)) →
  VirtualBox.parse_lines md (cur, devices) lines = inr (cur', devices') →
  Forall P devices → Forall P devices'.
Proof.
  intros HP. revert cur devices.
  induction lines as [|line lines IH]; intros cur devices.
  { by intros [= <- <-]. }
  cbn. destruct (VirtualBox.parse_line md (cur, devices) line)
    as [e|[cur1 devices1]] eqn:Hline; [done|].
  intros H Hall. apply (IH _ _ H).
  apply parse_line_cases in Hline as [(_ & -> & _)|(_ & _ & [->|Hd])]; [done|done|].
  destruct Hd as (vid & pid & Hv & Hp & _ & ->).
  apply Forall_app. split; [done|]. apply Forall_singleton. by apply HP.
Qed.

Lemma parse_lines_blank_end lines line st cur' devices' :
  VirtualBox.parse_lines md st (lines ++ [line]) = inr (cur', devices') →
  VirtualBox.blank line = true → cur' = ∅.
Proof.
  rewrite parse_lines_app.
  destruct (VirtualBox.parse_lines md st lines) as [e|[cur1 devices1]]; [done|].
  cbn. destruct (VirtualBox.parse_line md (cur1, devices1) line)
    as [e|[cur2 devices2]] eqn:Hline; [done|].
  intros [= <- <-] Hb. by eapply parse_line_blank_empty.
Qed.

Lemma parse_lines_text_end lines line st cur' devices' key value :
  VirtualBox.parse_lines md st (lines ++ [line]) = inr (cur', devices') →
  VirtualBox.blank line = false → entry line = Some (key, value) →
  cur' !! key = Some value.
Proof.
  rewrite parse_lines_app.
  destruct (VirtualBox.parse_lines md st lines) as [e|[cur1 devices1]]; [done|].
  cbn. intros H Hb He. rewrite parse_line_text, He in H by done.
  injection H as <- <-. apply lookup_insert_eq.
Qed.

(** A run of lines that are not empty fills [current_dev]. *)
Lemma parse_lines_block block cur devices st :
  Forall (λ line, VirtualBox.blank line = false) block →
  VirtualBox.parse_lines md (cur, devices) block = inr st →
  st = (foldl add_field cur block, devices).
Proof.
  revert cur. induction block as [|line block IH]; intros cur Hall.
  { by intros [= <-]. }
  apply Forall_cons in Hall as [Hb Hall]. cbn.
  rewrite parse_line_text by done. unfold add_field at 2.
  destruct (entry line) as [[key value]|]; [|done]. by apply IH.
Qed.

Lemma parse_lines_error lines seen cur devices e :
  (∀ key value, cur !! key = Some value →
     ∃ line, line ∈ seen ∧ entry line = Some (key, value)) →
  VirtualBox.parse_lines md (cur, devices) lines = inl e →
  explains (seen ++ lines) e.
Proof.
  revert seen cur devices.
  induction lines as [|line lines IH]; intros seen cur devices Hcur; [done|].
  cbn. destruct (VirtualBox.parse_line md (cur, devices) line)
    as [e'|[cur1 devices1]] eqn:Hline.
  - intros [= ->]. destruct (VirtualBox.blank line) eqn:Hb.
    + rewrite parse_line_blank in Hline by done.
      case_bool_decide; [|done].
      destruct (VirtualBox.end_of_device md cur devices) as [e1|] eqn:Hend;
        [|done]. injection Hline as ->.
      apply end_of_device_error in Hend
        as (-> & key & value & Hkey & Hlook & Hhex).
      destruct (Hcur _ _ Hlook) as (l & Hl & Hentry). right. split; [done|].
      exists l, key, value. split; [|done]. apply elem_of_app. by left.
    + rewrite parse_line_text in Hline by done.
      destruct (entry line) as [[key value]|] eqn:Hentry; [done|].
      injection Hline as <-. left. split; [done|]. exists line.
      split; [apply elem_of_app; right; left|]. split; [done|].
      unfold entry in Hentry.
      by destruct (VirtualBox.split_once ":" line) as [[k v]|].
  - intros H.
    replace (seen ++ line :: lines) with ((seen ++ [line]) ++ lines)
      by by rewrite <- app_assoc.
    apply (IH _ cur1 devices1); [|done].
    apply parse_line_cases in Hline
      as [(_ & _ & key & value & Hentry & ->)|(_ & -> & _)].
    + intros k v Hk. destruct (decide (key = k)) as [->|Hne].
      * rewrite lookup_insert_eq in Hk. injection Hk as <-. exists line.
        split; [apply elem_of_app; right; left|done].
      * rewrite lookup_insert_ne in Hk by done.
        destruct (Hcur _ _ Hk) as (l & Hl & Hentry').
        exists l. split; [apply elem_of_app; by left|done].
    + intros k v Hk. by rewrite lookup_empty in Hk.
Qed.

End Lines.

(** ** The outputs of the users *)

Section Users.
Context (usbhost : string → string) (md : MicroDevice).

Lemma parse_users_cons user users devices :
  VirtualBox.parse_users usbhost md (user :: users) devices =
  if VirtualBox.contains VirtualBox.NO_DEVICES (usbhost user)
  then VirtualBox.parse_users usbhost md users devices
  else
    match VirtualBox.parse_lines md (∅, devices) (lines_of (usbhost user)) with
    | inl e => inl e
    | inr (current_dev, devices') =>
        VirtualBox.parse_users usbhost md users
          (if bool_decide (current_dev ≠ ∅)
           then devices' ++ [current_dev] else devices')
    end.
Proof. done. Qed.

Lemma parse_users_grow users devices devices' :
  VirtualBox.parse_users usbhost md users devices = inr devices' →
  devices `prefix_of` devices'.
Proof.
  revert devices. induction users as [|user users IH]; intros devices.
  { by intros [= <-]. }
  rewrite parse_users_cons.
  destruct (VirtualBox.contains _ _); [apply IH|].
  destruct (VirtualBox.parse_lines md (∅, devices) _) as [e|[cur ds]] eqn:Hl;
    [done|].
  intros H. apply IH in H. apply parse_lines_grow in Hl.
  etrans; [exact Hl|]. etrans; [|exact H].
  case_bool_decide; [by apply prefix_app_r|done].
Qed.

(** The state in which the output of a parsed user leaves the loop. *)
Lemma parse_users_user users user devices devices' :
  parsed_user usbhost users user →
  VirtualBox.parse_users usbhost md users devices = inr devices' →
  ∃ devices0 cur devices1,
    VirtualBox.parse_lines md (∅, devices0) (lines_of (usbhost user)) =
      inr (cur, devices1) ∧
    (if bool_decide (cur ≠ ∅) then devices1 ++ [cur] else devices1)
      `prefix_of` devices'.
Proof.
  intros [Huser Hno]. revert devices.
  induction users as [|u users IH]; intros devices; [by inversion Huser|].
  rewrite parse_users_cons.
  apply elem_of_cons in Huser as [<-|Huser].
  - rewrite Hno.
    destruct (VirtualBox.parse_lines md (∅, devices) _) as [e|[cur ds]] eqn:Hl;
      [done|].
    intros H. apply parse_users_grow in H. by exists devices, cur, ds.
  - destruct (VirtualBox.contains _ (usbhost u)); [by apply IH|].
    destruct (VirtualBox.parse_lines md (∅, devices) _) as [e|[cur ds]];
      [done|]. by apply IH.
Qed.

Lemma parse_users_error users devices e :
  VirtualBox.parse_users usbhost md users devices = inl e →
  ∃ user, parsed_user usbhost users user ∧ explains (lines_of (usbhost user)) e.
Proof.
  revert devices. induction users as [|u users IH]; intros devices; [done|].
  rewrite parse_users_cons.
  assert (Hrest : ∀ ds, VirtualBox.parse_users usbhost md users ds = inl e →
            ∃ user, parsed_user usbhost (u :: users) user ∧
                    explains (lines_of (usbhost user)) e).
  { intros ds H. destruct (IH _ H) as (user & [Hin Hno] & Hex).
    exists user. split; [split; [by right|done]|done]. }
  destruct (VirtualBox.contains _ (usbhost u)) eqn:Hno; [apply Hrest|].
  destruct (VirtualBox.parse_lines md (∅, devices) _) as [e'|[cur ds]] eqn:Hl;
    [|apply Hrest].
  intros [= ->]. exists u. split; [split; [left|done]|].
  apply (parse_lines_error md _ [] ∅ devices); [|done].
  intros k v Hk. by rewrite lookup_empty in Hk.
Qed.

Lemma parse_users_sound (P : usb_device → Prop) users devices devices' :
  (∀ vid pid dev,
     Some vid = Device.GetVID md → Some pid = Device.GetPID md →
     P (in_hex vid pid dev)) →
  (∀ user dev, parsed_user usbhost users user →
     VirtualBox.blank (last_line (usbhost user)) = false → dev ≠ ∅ → P dev) →
  VirtualBox.parse_users usbhost md users devices = inr devices' →
  Forall P devices → Forall P devices'.
Proof.
  intros Hhex. revert devices.
  induction users as [|u users IH]; intros devices Hlast.
  { by intros [= <-]. }
  rewrite parse_users_cons.
  assert (Hlast' : ∀ user dev, parsed_user usbhost users user →
            VirtualBox.blank (last_line (usbhost user)) = false →
            dev ≠ ∅ → P dev).
  { intros user dev [Hin Hno]. apply Hlast. split; [by right|done]. }
  destruct (VirtualBox.contains _ (usbhost u)) eqn:Hno; [by apply IH|].
  destruct (VirtualBox.parse_lines md (∅, devices) _) as [e|[cur ds]] eqn:Hl;
    [done|].
  intros H Hall. apply (IH _ Hlast' H).
  pose proof (parse_lines_sound md P _ _ _ _ _ Hhex Hl Hall) as Hds.
  case_bool_decide as Hne; [|done].
  apply Forall_app. split; [done|]. apply Forall_singleton.
  apply (Hlast u); [split; [left|done]| |done].
  destruct (VirtualBox.blank (last_line (usbhost u))) eqn:Hb; [|done].
  pose proof (last_line_elem (usbhost u)) as Hlastl.
  destruct (lines_of (usbhost u)) as [|l ls _] using rev_ind; [done|].
  rewrite last_snoc in Hlastl. injection Hlastl as Heq. rewrite <- Heq in Hb.
  destruct Hne. by eapply parse_lines_blank_end.
Qed.

End Users.

(** What [ParseVirtualBoxDevices] returns.  A device that an empty line
    ends is returned only with the VID and PID of [micro_device], which it
    then has under ["vid_hex"] and ["pid_hex"] instead of ["VendorId"] and
    ["ProductId"].  When the output of every user ends with an empty line
    all the returned devices are of this kind.  The lines after the last
    empty line of an output are returned as a device whatever they hold:
    the device has the field of the last line, and its vendor and product
    are not looked at.  No returned dictionary is empty. *)
Theorem ParseVirtualBoxDevices_filters (usbhost : string → string)
    (groups : list VirtualBox.group) (micro_device : MicroDevice)
    (username : option string) (devices : list usb_device) :
  let users := VirtualBox.vboxusers groups username in
  VirtualBox.ParseVirtualBoxDevices usbhost groups micro_device username =
    inr devices →
  (∀ dev, dev ∈ devices →
     dev ≠ ∅ ∧
     (converted micro_device dev ∨
      ∃ user, parsed_user usbhost users user ∧
              VirtualBox.blank (last_line (usbhost user)) = false)) ∧
  ((∀ user, parsed_user usbhost users user →
      VirtualBox.blank (last_line (usbhost user)) = true) →
   ∀ dev, dev ∈ devices → converted micro_device dev) ∧
  (∀ user key value,
     parsed_user usbhost users user →
     VirtualBox.blank (last_line (usbhost user)) = false →
     entry (last_line (usbhost user)) = Some (key, value) →
     ∃ dev, dev ∈ devices ∧ dev !! key = Some value).
Proof.
  intros users Hparse. unfold VirtualBox.ParseVirtualBoxDevices in Hparse.
  fold users in Hparse.
  assert (Hall : ∀ dev, dev ∈ devices →
     dev ≠ ∅ ∧
     (converted micro_device dev ∨
      ∃ user, parsed_user usbhost users user ∧
              VirtualBox.blank (last_line (usbhost user)) = false)).
  { apply Forall_forall.
    apply (parse_users_sound usbhost micro_device _ users [] devices);
      [| |done|constructor].
    - intros vid pid dev Hv Hp.
      destruct (in_hex_converted micro_device vid pid dev Hv Hp). auto.
    - intros user dev Huser Hb Hne. split; [done|]. right. by exists user. }
  split; [done|]. split.
  - intros Hblank dev Hdev. destruct (Hall dev Hdev) as (_ & [H|H]); [done|].
    destruct H as (user & Huser & Hb). by rewrite Hblank in Hb.
  - intros user key value Huser Hb Hentry.
    destruct (parse_users_user usbhost micro_device users user [] devices
                Huser Hparse) as (ds0 & cur & ds1 & Hl & Hpre).
    pose proof (last_line_elem (usbhost user)) as Hlast.
    destruct (lines_of (usbhost user)) as [|l ls _] using rev_ind; [done|].
    rewrite last_snoc in Hlast. injection Hlast as Heq.
    rewrite <- Heq in Hb, Hentry.
    pose proof (parse_lines_text_end micro_device _ _ _ _ _ _ _ Hl Hb Hentry)
      as Hkey.
    exists cur. split; [|done].
    rewrite bool_decide_eq_true_2 in Hpre.
    + destruct Hpre as [k ->]. apply elem_of_app. left.
      apply elem_of_app. right. left.
    + intros ->. by rewrite lookup_empty in Hkey.
Qed.

Lemma ParseVirtualBoxDevices_filters_witness :
  (∀ dev,
     dev ∈ [in_hex "0483" "374b"
              (fields ["UUID:               u1"; "VendorId:           0x0483 (0483)";
                       "ProductId:          0x374B (374B)";
                       "SerialNumber:       S1"; "Current State:      Busy"]%string)] →
     converted Example.stlink dev) ∧
  ∃ dev, dev ∈ [fields ["UUID:               u2";
                        "VendorId:           0x2341 (2341)"]%string] ∧
         dev !! "VendorId"%string = Some "0x2341 (2341)"%string.
Proof.
  split.
  - destruct (ParseVirtualBoxDevices_filters (λ _, Example.usbhost2) []
                Example.stlink (Some "tvm"%string)
                [in_hex "0483" "374b"
                   (fields ["UUID:               u1";
                            "VendorId:           0x0483 (0483)";
                            "ProductId:          0x374B (374B)";
                            "SerialNumber:       S1";
                            "Current State:      Busy"]%string)])
      as (_ & H & _).
    + vm_compute. reflexivity.
    + apply H. intros user _. vm_compute. reflexivity.
  - destruct (ParseVirtualBoxDevices_filters (λ _, Example.usbhost_cut) []
                Example.stlink (Some "tvm"%string)
                [fields ["UUID:               u2";
                         "VendorId:           0x2341 (2341)"]%string])
      as (_ & _ & H).
    + vm_compute. reflexivity.
    + apply (H "tvm"%string).
      * split; [left|vm_compute; reflexivity].
      * vm_compute. reflexivity.
      * vm_compute. reflexivity.
Defined.

Lemma parse_users_skip usbhost md users devices :
  (∀ user, user ∈ users →
     VirtualBox.contains VirtualBox.NO_DEVICES (usbhost user) = true) →
  VirtualBox.parse_users usbhost md users devices = inr devices.
Proof.
  induction users as [|u users IH]; intros H; [done|].
  rewrite parse_users_cons, H by left. apply IH.
  intros user Huser. apply H. by right.
Qed.

(** When [ParseVirtualBoxDevices] raises.  The only errors are the
    [ValueError] of a line that is not empty and has no colon, and the
    [IndexError] of a ["VendorId"] or ["ProductId"] whose value matches
    the pattern but has no second word; both are raised for lines of a
    user who can see devices.  When every such line can be read the
    function returns, and when no user can see devices it returns the
    empty list. *)
Theorem ParseVirtualBoxDevices_errors (usbhost : string → string)
    (groups : list VirtualBox.group) (micro_device : MicroDevice)
    (username : option string) :
  let users := VirtualBox.vboxusers groups username in
  let result :=
    VirtualBox.ParseVirtualBoxDevices usbhost groups micro_device username in
  (∀ e, result = inl e →
     ∃ user, parsed_user usbhost users user ∧
             explains (lines_of (usbhost user)) e) ∧
  ((∀ user line, parsed_user usbhost users user →
      line ∈ lines_of (usbhost user) → readable line) →
   ∃ devices, result = inr devices) ∧
  ((∀ user, ¬ parsed_user usbhost users user) → result = inr []).
Proof.
  intros users result.
  assert (Herr : ∀ e, result = inl e →
     ∃ user, parsed_user usbhost users user ∧
             explains (lines_of (usbhost user)) e).
  { intros e. apply parse_users_error. }
  split; [done|]. split.
  - intros Hread. destruct result as [e|devices] eqn:Hres; [|by eexists].
    destruct (Herr e eq_refl) as (user & Huser & [Hval|Hidx]).
    + destruct Hval as (_ & line & Hline & Hb & Hsplit).
      destruct (Hread user line Huser Hline) as [Hb'|(k & v & Hentry & _)].
      * by rewrite Hb in Hb'.
      * unfold entry in Hentry. by rewrite Hsplit in Hentry.
    + destruct Hidx as (_ & line & key & value & Hline & Hentry & Hkey & Hhex).
      destruct (Hread user line Huser Hline) as [Hb'|(k & v & Hentry' & Hok)].
      * apply blank_no_colon in Hb'. unfold entry in Hentry.
        by rewrite Hb' in Hentry.
      * rewrite Hentry in Hentry'. injection Hentry' as <- <-.
        destruct (Hok Hkey) as (hex & Hhex'). by rewrite Hhex in Hhex'.
  - intros Hnone. apply parse_users_skip. intros user Huser.
    destruct (VirtualBox.contains _ (usbhost user)) eqn:Hno; [done|].
    by destruct (Hnone user).
Qed.

Lemma ParseVirtualBoxDevices_errors_witness :
  ∃ devices,
    VirtualBox.ParseVirtualBoxDevices (λ _, Example.usbhost_cut) []
      Example.stlink (Some "tvm"%string) = inr devices.
Proof.
  destruct (ParseVirtualBoxDevices_errors (λ _, Example.usbhost_cut) []
              Example.stlink (Some "tvm"%string)) as (_ & H & _).
  apply H. intros user line _ Hline. vm_compute in Hline.
  right.
  apply elem_of_cons in Hline as [->|Hline].
  { exists "UUID"%string, "u2"%string. split; [vm_compute; reflexivity|].
    intros [[=]|[=]]. }
  apply elem_of_cons in Hline as [->|Hline]; [|inversion Hline].
  exists "VendorId"%string, "0x2341 (2341)"%string.
  split; [vm_compute; reflexivity|]. intros _. eexists. vm_compute. reflexivity.
Defined.

Lemma parse_users_finds (usbhost : string → string) (md : MicroDevice)
    (users : list string) (devices : list usb_device)
    (user : string) (before block after : list string) (sep : string)
    (vendor product vid_hex pid_hex : string) :
  VirtualBox.parse_users usbhost md users [] = inr devices →
  parsed_user usbhost users user →
  lines_of (usbhost user) = before ++ block ++ sep :: after →
  (before = [] ∨ ∃ line, last before = Some line ∧ VirtualBox.blank line = true) →
  Forall (λ line, VirtualBox.blank line = false) block →
  VirtualBox.blank sep = true →
  fields block !! "VendorId"%string = Some vendor →
  fields block !! "ProductId"%string = Some product →
  VirtualBox.VIRTUALBOX_VID_PID_RE vendor = true →
  VirtualBox.VIRTUALBOX_VID_PID_RE product = true →
  VirtualBox.hex_field vendor = inr vid_hex →
  VirtualBox.hex_field product = inr pid_hex →
  Device.GetVID md = Some vid_hex →
  Device.GetPID md = Some pid_hex →
  in_hex vid_hex pid_hex (fields block) ∈ devices.
Proof.
  intros Hparse Huser Hlines Hbefore Hblock Hsep Hv Hp Hrv Hrp Hhv Hhp Hvid Hpid.
  destruct (parse_users_user usbhost md _ user [] devices Huser Hparse)
    as (ds0 & cur & ds1 & Hl & Hpre).
  assert (Hin : in_hex vid_hex pid_hex (fields block) ∈ ds1).
  { rewrite Hlines, parse_lines_app in Hl.
    destruct (VirtualBox.parse_lines md (∅, ds0) before)
      as [e|[cur1 ds']] eqn:Hb; [done|].
    assert (cur1 = ∅) as ->.
    { destruct Hbefore as [->|(line & Hlast & Hblank)].
      - by injection Hb as <- <-.
      - destruct before as [|l ls _] using rev_ind; [done|].
        rewrite last_snoc in Hlast. injection Hlast as ->.
        by eapply parse_lines_blank_end. }
    rewrite parse_lines_app in Hl.
    destruct (VirtualBox.parse_lines md (∅, ds') block)
      as [e|st] eqn:Hbl; [done|].
    apply parse_lines_block in Hbl as ->; [|done]. fold (fields block) in Hl.
    cbn [VirtualBox.parse_lines] in Hl.
    rewrite parse_line_blank in Hl by done.
    rewrite bool_decide_eq_true_2 in Hl
      by (intros Heq; by rewrite Heq, lookup_empty in Hv).
    rewrite (end_of_device_match md _ ds' vendor product
               vid_hex pid_hex) in Hl by done.
    apply parse_lines_grow in Hl as [k ->].
    apply elem_of_app. left. apply elem_of_app. right. left. }
  destruct Hpre as [k ->]. apply elem_of_app. left.
  case_bool_decide; [apply elem_of_app; by left|done].
Qed.


(** A device of the output that [ParseVirtualBoxDevices] finds.  When
    the output of a user who is parsed has, after an empty line or at its
    start, a run of lines that are not empty and then an empty line, and
    the lines give a ["VendorId"] and a ["ProductId"] that match the
    pattern and whose second words, in lower case, are the VID and PID of
    [micro_device], then the dictionary of these lines is returned, with
    the two fields in hex. *)
Theorem ParseVirtualBoxDevices_finds (usbhost : string → string)
    (groups : list VirtualBox.group) (micro_device : MicroDevice)
    (username : option string) (devices : list usb_device)
    (user : string) (before block after : list string) (sep : string)
    (vendor product vid_hex pid_hex : string) :
  VirtualBox.ParseVirtualBoxDevices usbhost groups micro_device username =
    inr devices →
  parsed_user usbhost (VirtualBox.vboxusers groups username) user →
  lines_of (usbhost user) = before ++ block ++ sep :: after →
  (before = [] ∨ ∃ line, last before = Some line ∧ VirtualBox.blank line = true) →
  Forall (λ line, VirtualBox.blank line = false) block →
  VirtualBox.blank sep = true →
  fields block !! "VendorId"%string = Some vendor →
  fields block !! "ProductId"%string = Some product →
  VirtualBox.VIRTUALBOX_VID_PID_RE vendor = true →
  VirtualBox.VIRTUALBOX_VID_PID_RE product = true →
  VirtualBox.hex_field vendor = inr vid_hex →
  VirtualBox.hex_field product = inr pid_hex →
  Device.GetVID micro_device = Some vid_hex →
  Device.GetPID micro_device = Some pid_hex →
  in_hex vid_hex pid_hex (fields block) ∈ devices.
Proof. apply parse_users_finds. Qed.

Lemma ParseVirtualBoxDevices_finds_witness :
  in_hex "0483" "374b"
    (fields ["UUID:               u1"; "VendorId:           0x0483 (0483)";
             "ProductId:          0x374B (374B)";
             "SerialNumber:       S1"; "Current State:      Busy"]%string)
  ∈ [in_hex "0483" "374b"
       (fields ["UUID:               u1"; "VendorId:           0x0483 (0483)";
                "ProductId:          0x374B (374B)";
                "SerialNumber:       S1"; "Current State:      Busy"]%string)].
Proof.
  apply (ParseVirtualBoxDevices_finds (λ _, Example.usbhost2) []
           Example.stlink (Some "tvm"%string) _ "tvm"%string
           ["Host USB Devices:"; ""]%string _
           ["UUID:               u2"; "VendorId:           0x2341 (2341)";
            "ProductId:          0x003D (003D)"; "SerialNumber:       S7";
            "Current State:      Captured"; ""; ""]%string ""%string
           "0x0483 (0483)"%string "0x374B (374B)"%string).
  - vm_compute. reflexivity.
  - split; [left|vm_compute; reflexivity].
  - vm_compute. reflexivity.
  - right. exists ""%string. split; reflexivity.
  - repeat constructor.
  - reflexivity.
  - vm_compute. reflexivity.
  - vm_compute. reflexivity.
  - vm_compute. reflexivity.
  - vm_compute. reflexivity.
  - vm_compute. reflexivity.
  - vm_compute. reflexivity.
  - reflexivity.
  - reflexivity.
Defined.

(** ** A device without VID and PID *)

Lemma parse_users_without_ids usbhost md users devices :
  Device.GetVID md = None ∨ Device.GetPID md = None →
  (∀ user, parsed_user usbhost users user →
     VirtualBox.blank (last_line (usbhost user)) = true) →
  VirtualBox.parse_users usbhost md users [] = inr devices →
  devices = [].
Proof.
  intros Hnone Hblank Hparse.
  assert (Hall : Forall (λ _, False) devices).
  { apply (parse_users_sound usbhost md _ users [] devices);
      [| |done|constructor].
    - intros vid pid dev Hv Hp. destruct Hnone as [H|H].
      + by rewrite H in Hv.
      + by rewrite H in Hp.
    - intros user dev Huser Hb. by rewrite (Hblank user Huser) in Hb. }
  destruct devices as [|dev devices]; [done|].
  by apply Forall_cons in Hall as [[] _].
Qed.

(** A [MicroDevice] without VID or PID finds no device.
    [ParseVirtualBoxDevices] compares the VID and PID of every device with
    those of [micro_device]; for a [micro_device] that has [None] for one
    of them, as [DeviceIsAlive] and [attach_command] build it, the
    comparison fails for every device.  So when the outputs end with an
    empty line the list is empty, whatever is connected: [DeviceIsAlive]
    returns [False], [attach] raises [ValueError] and [detach] returns
    without a command. *)
Theorem no_device_without_ids (usbhost : string → string)
    (groups : list VirtualBox.group) (micro_device : MicroDevice)
    (username : option string) (devices : list usb_device)
    (machine_uuid showvminfo : string) (w : world) :
  VirtualBox.ParseVirtualBoxDevices usbhost groups micro_device username =
    inr devices →
  Device.GetVID micro_device = None ∨ Device.GetPID micro_device = None →
  (∀ user, parsed_user usbhost (VirtualBox.vboxusers groups username) user →
     VirtualBox.blank (last_line (usbhost user)) = true) →
  devices = [] ∧
  (∀ device_type serial,
     (DeviceIsAlive devices device_type serial w).1 = Return false) ∧
  VirtualBox.attach devices machine_uuid showvminfo micro_device =
    inl VirtualBox.ValueError ∧
  VirtualBox.detach devices machine_uuid micro_device = inr None.
Proof.
  intros Hparse Hnone Hblank.
  assert (devices = []) as ->.
  { by eapply parse_users_without_ids. }
  split; [done|]. split; [|done]. intros device_type serial.
  unfold DeviceIsAlive, new_object. by cbn.
Qed.

Lemma no_device_without_ids_witness :
  (DeviceIsAlive [] "nucleo_f746zg" "S1" empty_world).1 = Return false.
Proof.
  destruct (no_device_without_ids (λ _, Example.usbhost2)
              [VirtualBox.mkGroup "vboxusers" ["tvm"%string]]
              (Device.init "nucleo_f746zg" "S1" None None) None []
              "vm" Example.showvminfo3 empty_world) as (_ & H & _).
  - vm_compute. reflexivity.
  - by left.
  - intros user _. vm_compute. reflexivity.
  - apply H.
Defined.

(** * From the output of [vboxmanage] to the registry *)

Lemma in_hex_other vid pid (dev : usb_device) key :
  key ≠ "vid_hex"%string → key ≠ "pid_hex"%string →
  key ≠ "VendorId"%string → key ≠ "ProductId"%string →
  in_hex vid pid dev !! key = dev !! key.
Proof.
  intros H1 H2 H3 H4. unfold in_hex.
  rewrite lookup_delete_ne by done. rewrite lookup_insert_ne by done.
  rewrite lookup_delete_ne by done. by rewrite lookup_insert_ne by done.
Qed.

Lemma attaching_start (tablew : world) :
  wf tablew →
  attaching tablew
    {| heap := heap tablew;
       PLATFORMS := {| _platforms := []; _serial_numbers := ∅;
                       _sessions := ∅ |} |}.
Proof.
  intros Hwft. split; try done.
  - split.
    + intros l Hl. inversion Hl.
    + constructor.
    + intros sn. unfold serials, records. simpl. split; intros H; inversion H.
    + intros s sn (lst & Hl & _). simpl in Hl. by rewrite lookup_empty in Hl.
  - intros l Hl. inversion Hl.
  - intros l d [Hl _]. inversion Hl.
Qed.

(** A found device that the table knows is registered, with the table's
    type. *)
Lemma LoadAttachedDevices_covers data scan w l md device sn :
  LoadAttachedDevices false data scan = Return w →
  l ∈ GetAllDeviceTypes (LoadDeviceTable data) →
  heap (LoadDeviceTable data) !! l = Some md →
  device ∈ scan md →
  device !! "SerialNumber"%string = Some sn →
  is_Some (GetType sn (LoadDeviceTable data)) →
  ∃ l' d, registered w l' d ∧ _serial_number d = sn ∧
          GetType sn (LoadDeviceTable data) = Some (_type d) ∧
          as_discovered d.
Proof.
  unfold LoadAttachedDevices. set (tablew := LoadDeviceTable data).
  assert (wf tablew) as Hwft by apply LoadDeviceTable_records_init.
  destruct (attach_types_attaching tablew Hwft scan (GetAllDeviceTypes tablew)
              _ (attaching_start tablew Hwft) (GetAllDeviceTypes_alive tablew))
    as (r & w' & E & Hres).
  simpl. rewrite E.
  destruct Hres as [[key ->]|(-> & Hatt & _ & Hcov)]; [done|].
  intros [= <-] Hl Hmd Hdev Hsn Hknown.
  pose proof (Hcov l md device sn Hl Hmd Hdev Hsn Hknown) as Hin.
  apply (wf_serial_set _ (att_wf _ _ Hatt)) in Hin.
  apply elem_of_serials in Hin as (l' & d & Hreg & <-).
  exists l', d. split; [done|]. split; [done|].
  by apply (att_known _ _ Hatt l').
Qed.

(** A board that is connected and that the table lists is registered at
    start-up.  When [LoadAttachedDevices] returns a registry, and the
    output of [vboxmanage list usbhost] for one of the users has a device,
    ended by an empty line, whose vendor and product are the VID and PID
    of the representative of some type of the table and whose serial
    number the table lists, then the registry holds a record with that
    serial number; it has the type under which the table lists the serial
    number, is enabled, and is free or taken by ["Unknown"]. *)
Theorem start_up_registers_connected_board (usbhost : string → string)
    (groups : list VirtualBox.group) (data : list (string * config))
    (scan : MicroDevice → list usb_device) (w : world)
    (l : loc) (md : MicroDevice) (user : string)
    (before block after : list string) (sep : string)
    (vendor product vid_hex pid_hex sn : string) :
  let table := LoadDeviceTable data in
  (∀ l md, l ∈ GetAllDeviceTypes table → heap table !! l = Some md →
     VirtualBox.ParseVirtualBoxDevices usbhost groups md None =
       inr (scan md)) →
  LoadAttachedDevices false data scan = Return w →
  l ∈ GetAllDeviceTypes table → heap table !! l = Some md →
  parsed_user usbhost (VirtualBox.vboxusers groups None) user →
  lines_of (usbhost user) = before ++ block ++ sep :: after →
  (before = [] ∨ ∃ line, last before = Some line ∧ VirtualBox.blank line = true) →
  Forall (λ line, VirtualBox.blank line = false) block →
  VirtualBox.blank sep = true →
  fields block !! "VendorId"%string = Some vendor →
  fields block !! "ProductId"%string = Some product →
  VirtualBox.VIRTUALBOX_VID_PID_RE vendor = true →
  VirtualBox.VIRTUALBOX_VID_PID_RE product = true →
  VirtualBox.hex_field vendor = inr vid_hex →
  VirtualBox.hex_field product = inr pid_hex →
  Device.GetVID md = Some vid_hex →
  Device.GetPID md = Some pid_hex →
  fields block !! "SerialNumber"%string = Some sn →
  is_Some (GetType sn table) →
  ∃ l' d, registered w l' d ∧ _serial_number d = sn ∧
          GetType sn table = Some (_type d) ∧ as_discovered d.
Proof.
  intros table Hscan Hload Hl Hmd Huser Hlines Hbefore Hblock Hsep Hv Hp
    Hrv Hrp Hhv Hhp Hvid Hpid Hsn Hknown.
  apply (LoadAttachedDevices_covers data scan w l md
           (in_hex vid_hex pid_hex (fields block)) sn); try done.
  - apply (parse_users_finds usbhost md (VirtualBox.vboxusers groups None)
             (scan md) user before block after sep vendor product);
      try done.
    apply (Hscan l md Hl Hmd).
  - by rewrite in_hex_other.
Qed.

Lemma start_up_registers_connected_board_witness :
  ∃ w l' d,
    LoadAttachedDevices false Example.table Example.scan2 = Return w ∧
    registered w l' d ∧ _serial_number d = "S1"%string ∧
    _type d = "nucleo_f746zg"%string.
Proof.
  destruct (LoadAttachedDevices false Example.table Example.scan2)
    as [w|e] eqn:E; [|by vm_compute in E].
  destruct (start_up_registers_connected_board (λ _, Example.usbhost2)
              [VirtualBox.mkGroup "vboxusers" ["tvm"%string]]
              Example.table Example.scan2 w 1%positive (Example.board "S2")
              "tvm"%string
              ["Host USB Devices:"; ""]%string
              ["UUID:               u1"; "VendorId:           0x0483 (0483)";
               "ProductId:          0x374B (374B)";
               "SerialNumber:       S1"; "Current State:      Busy"]%string
              ["UUID:               u2"; "VendorId:           0x2341 (2341)";
               "ProductId:          0x003D (003D)"; "SerialNumber:       S7";
               "Current State:      Captured"; ""; ""]%string ""%string
              "0x0483 (0483)"%string "0x374B (374B)"%string
              "0483"%string "374b"%string "S1"%string)
    as (l' & d & Hreg & Hsn & Hty & _).
  - intros l md Hl Hmd. vm_compute in Hl.
    apply elem_of_cons in Hl as [->|Hl]; [|inversion Hl].
    vm_compute in Hmd. injection Hmd as <-. vm_compute. reflexivity.
  - exact E.
  - vm_compute. left.
  - vm_compute. reflexivity.
  - split; [vm_compute; left|vm_compute; reflexivity].
  - vm_compute. reflexivity.
  - right. exists ""%string. split; reflexivity.
  - repeat constructor.
  - reflexivity.
  - vm_compute. reflexivity.
  - vm_compute. reflexivity.
  - vm_compute. reflexivity.
  - vm_compute. reflexivity.
  - vm_compute. reflexivity.
  - vm_compute. reflexivity.
  - reflexivity.
  - reflexivity.
  - vm_compute. reflexivity.
  - vm_compute. by eexists.
  - exists w, l', d. split; [done|]. split; [done|]. split; [done|].
    vm_compute in Hty. injection Hty as Hty. symmetry. exact Hty.
Defined.
